(** * Resume vetter: signal extraction and scoring

    A shallow embedding of the scoring pipeline of the three scripts of the
    repository:

    - [cv_vetter.py]   ("AI Resume Analyzer"), module [CvVetter];
    - [cv_vetter2.py]  ("Resume Vetter Pro"), module [CvVetter2];
    - [test.py]        ("AI-Powered CV Vetter"), module [TestPy].

    Conventions of the model.

    - Python [int] is [Z]; Python [float] is an exact rational [Q] (rounding
      error of the floating-point operations is outside the model).  What
      is stated of a sum of floats is an order between sums, or the
      equality of sums formed by the same additions in the same order,
      which the floats satisfy as well; no statement rests on the
      associativity of the sum or on the side to which a tie is rounded.
    - Python [str] is [string], read as the text of its code points.  The
      case mappings, the white space of [str.strip] and [str.split], and
      the classes [\d], [\s], [\w] and the flag [re.IGNORECASE] are those
      of Python on ASCII texts ([str.isascii], [Py.isascii]); what is
      stated of names, of date tokens and of profile handles, where Python
      treats other characters as letters, digits or white space, is stated
      of the ASCII texts.
    - Third-party collaborators ([dateparser.parse], [spacy], [difflib],
      [dateutil.relativedelta], and the browser of [scrape_linkedin], which
      may raise) are parameters of the functions that call them. *)

From stdpp Require Import gmap strings list fin_maps pretty.
From Stdlib Require Import Ascii QArith Qround Lqa.

Local Open Scope Z_scope.

(** * Python primitives *)

Module Py.

(** ** Characters *)

Definition code (c : ascii) : N := N_of_ascii c.

Definition between (lo hi : N) (c : ascii) : bool :=
  ((lo <=? code c) && (code c <=? hi))%N.

Definition is_upper : ascii → bool := between 65 90.
Definition is_lower : ascii → bool := between 97 122.
Definition is_digit : ascii → bool := between 48 57.
Definition is_cased (c : ascii) : bool := is_upper c || is_lower c.

(** [\w]: letters, digits and the underscore. *)
Definition is_word (c : ascii) : bool :=
  is_cased c || is_digit c || (code c =? 95)%N.

(** White space of [str.isspace], [str.split], [str.strip] and of [\s]
    among the ASCII characters: TAB, LF, VT, FF, CR, the four separators
    FS, GS, RS, US, and SPACE. *)
Definition is_space (c : ascii) : bool :=
  between 9 13 c || between 28 31 c || (code c =? 32)%N.

Definition to_lower (c : ascii) : ascii :=
  if is_upper c then ascii_of_N (code c + 32) else c.

Definition to_upper (c : ascii) : ascii :=
  if is_lower c then ascii_of_N (code c - 32) else c.

Definition newline : ascii := ascii_of_N 10.

(** ** Strings, as lists of characters *)

Abbreviation chars := String.list_ascii_of_string.
Abbreviation of_chars := String.string_of_list_ascii.

(** [s.lower()]. *)
Definition lower (s : string) : string := of_chars (to_lower <$> chars s).

(** [s.strip()]: white space removed at both ends. *)
Fixpoint lstrip_chars (l : list ascii) : list ascii :=
  match l with
  | [] => []
  | c :: l' => if is_space c then lstrip_chars l' else l
  end.
Definition strip_chars (l : list ascii) : list ascii :=
  reverse (lstrip_chars (reverse (lstrip_chars l))).
Definition strip (s : string) : string := of_chars (strip_chars (chars s)).

(** [s.split(sep)] for a one-character separator: the pieces between the
    separators, empty pieces included, at least one piece. *)
Fixpoint split_chars (sep : ascii) (cur : list ascii) (l : list ascii)
  : list (list ascii) :=
  match l with
  | [] => [reverse cur]
  | c :: l' =>
      if Ascii.eqb c sep then reverse cur :: split_chars sep [] l'
      else split_chars sep (c :: cur) l'
  end.
Definition split_on (sep : ascii) (s : string) : list string :=
  of_chars <$> split_chars sep [] (chars s).

(** [s.split()] without argument: the maximal runs of characters that are
    not white space. *)
Fixpoint words_chars (cur : list ascii) (l : list ascii)
  : list (list ascii) :=
  match l with
  | [] => match cur with [] => [] | _ => [reverse cur] end
  | c :: l' =>
      if is_space c then
        match cur with
        | [] => words_chars [] l'
        | _ => reverse cur :: words_chars [] l'
        end
      else words_chars (c :: cur) l'
  end.
Definition split (s : string) : list string :=
  of_chars <$> words_chars [] (chars s).

(** [s.isupper()]: no lower-case character and at least one cased one. *)
Definition isupper (s : string) : bool :=
  forallb (λ c, negb (is_lower c)) (chars s) && existsb is_cased (chars s).

(** [s.title()]: a character that follows a cased character is lowered,
    any other character is raised. *)
Fixpoint title_chars (previous_is_cased : bool) (l : list ascii)
  : list ascii :=
  match l with
  | [] => []
  | c :: l' =>
      (if previous_is_cased then to_lower c else to_upper c)
        :: title_chars (is_cased c) l'
  end.
Definition title (s : string) : string :=
  of_chars (title_chars false (chars s)).

(** [s.capitalize()]: first character raised, the others lowered. *)
Definition capitalize (s : string) : string :=
  match chars s with
  | [] => ""
  | c :: l => of_chars (to_upper c :: (to_lower <$> l))
  end.

(** [sub in s]: [sub] occurs in [s] as a contiguous substring. *)
Fixpoint prefix_chars (p l : list ascii) : bool :=
  match p, l with
  | [], _ => true
  | _ :: _, [] => false
  | a :: p', b :: l' => Ascii.eqb a b && prefix_chars p' l'
  end.
Fixpoint contains_chars (sub l : list ascii) : bool :=
  prefix_chars sub l ||
  match l with
  | [] => false
  | _ :: l' => contains_chars sub l'
  end.
Definition contains (sub s : string) : bool :=
  contains_chars (chars sub) (chars s).

(** ** Sequences *)

(** [range(start, stop, step)] for a positive step. *)
Definition range (start stop step : Z) : list Z :=
  (λ k : nat, start + Z.of_nat k * step)
    <$> seq 0 (Z.to_nat ((stop - start + step - 1) / step)).

(** [l[i]] for an index that is in range; [default] stands for the
    [IndexError] that the callers below never raise. *)
Definition index {A} (default : A) (l : list A) (i : Z) : A :=
  if i <? 0 then default else nth (Z.to_nat i) l default.

Definition len {A} (l : list A) : Z := Z.of_nat (length l).

(** ** Numbers *)

(** [x < y] on exact rationals. *)
Definition Qltb (x y : Q) : bool := negb (Qle_bool y x).

(** [max(x, 0)]: the first argument unless the second is greater. *)
Definition max0 (x : Q) : Q := if Qltb x 0 then 0%Q else x.

(** Rounding to the nearest integer, ties to the even one. *)
Definition round_half_even (x : Q) : Z :=
  let n := Qfloor x in
  let frac := (x - inject_Z n)%Q in
  if Qltb frac (1 # 2) then n
  else if Qltb (1 # 2) frac then n + 1
  else if Z.even n then n else n + 1.

(** [round(x, 1)]: the nearest multiple of one tenth, of the exact value;
    a tie, which a float seldom is, goes to the even tenth. *)
Definition round1 (x : Q) : Q := inject_Z (round_half_even (x * 10)) / 10.

(** ** Naive [datetime] values *)

Record datetime : Type := mk_datetime {
  year : Z; month : Z; day : Z;
  hour : Z; minute : Z; second : Z; microsecond : Z
}.

Definition is_leap (y : Z) : bool :=
  (y mod 4 =? 0) && (negb (y mod 100 =? 0) || (y mod 400 =? 0)).

Definition days_before_year (y : Z) : Z :=
  let y' := y - 1 in y' * 365 + y' / 4 - y' / 100 + y' / 400.

Definition days_before_month (y m : Z) : Z :=
  nth (Z.to_nat m) [0; 0; 31; 59; 90; 120; 151; 181; 212; 243; 273; 304; 334] 0
  + (if (2 <? m) && is_leap y then 1 else 0).

(** [d.toordinal()]: the proleptic Gregorian day number. *)
Definition toordinal (d : datetime) : Z :=
  days_before_year (year d) + days_before_month (year d) (month d) + day d.

(** Microseconds since the start of day 0.  Python orders naive datetimes
    field by field, which on the dates it constructs is the order of these
    numbers. *)
Definition timestamp (d : datetime) : Z :=
  (((toordinal d * 24 + hour d) * 60 + minute d) * 60 + second d) * 1000000
  + microsecond d.

Definition dt_le (a b : datetime) : bool := timestamp a <=? timestamp b.
Definition dt_gt (a b : datetime) : bool := timestamp b <? timestamp a.

(** [(a - b).days]: a [timedelta] is normalised so that its seconds and
    microseconds are not negative, hence [days] is a floor. *)
Definition sub_days (a b : datetime) : Z :=
  (timestamp a - timestamp b) / 86400000000.

(** ** More string methods *)

(** [s.endswith(suffix)]. *)
Definition endswith (s suffix : string) : bool :=
  prefix_chars (reverse (chars suffix)) (reverse (chars s)).

(** [s.isascii()]: every character is below U+0080.  On such a text the
    functions of this module, the classes [\d], [\s], [\w] and the flag
    [re.IGNORECASE] of the next one are those of Python. *)
Definition isascii (s : string) : bool :=
  forallb (λ c, (code c <? 128)%N) (chars s).

(** [sep.join(l)]. *)
Fixpoint join (sep : string) (l : list string) : string :=
  match l with
  | [] => ""
  | [x] => x
  | x :: l' => x +:+ sep +:+ join sep l'
  end.

End Py.

(** * Regular expressions

    The fragment of Python's [re] that the scripts use, with the
    backtracking semantics of the library: alternatives are tried from left
    to right, repetitions are greedy, and the first way to match wins. *)

Module Re.

Inductive regex : Type :=
  | Eps                        (* the empty pattern *)
  | Chr (c : ascii)            (* a literal character *)
  | Cls (p : ascii → bool)     (* a class: [A-Z], \d, \s, . *)
  | Seq (r1 r2 : regex)        (* r1 r2 *)
  | Alt (r1 r2 : regex)        (* r1|r2 *)
  | Star (r : regex)           (* r* *)
  | Bol                        (* ^ *)
  | Eol                        (* $ *)
  | WordB.                     (* \b *)

(** Derived forms. *)
Definition Plus (r : regex) : regex := Seq r (Star r).          (* r+ *)
Definition Opt (r : regex) : regex := Alt r Eps.                (* r? *)
Fixpoint Rep (n : nat) (r : regex) : regex :=                   (* r{n} *)
  match n with O => Eps | S n' => Seq r (Rep n' r) end.
Definition RepMin (n : nat) (r : regex) : regex :=              (* r{n,} *)
  Seq (Rep n r) (Star r).
Fixpoint seqs (rs : list regex) : regex :=
  match rs with [] => Eps | [r] => r | r :: rs' => Seq r (seqs rs') end.
Fixpoint alts (rs : list regex) : regex :=
  match rs with [] => Eps | [r] => r | r :: rs' => Alt r (alts rs') end.
Definition Lit (s : string) : regex := seqs (Chr <$> Py.chars s).

(** Character classes, as they are on ASCII characters. *)
Definition upper_az : ascii → bool := Py.is_upper.              (* [A-Z] *)
Definition lower_az : ascii → bool := Py.is_lower.              (* [a-z] *)
Definition digit : ascii → bool := Py.is_digit.                 (* \d *)
Definition space : ascii → bool := Py.is_space.                 (* \s *)
Definition dot (c : ascii) : bool := negb (Ascii.eqb c Py.newline). (* . *)
Definition union (p q : ascii → bool) (c : ascii) : bool := p c || q c.

Section Matcher.
(** [icase] is the flag [re.IGNORECASE], which on ASCII characters
    identifies a letter with its other case. *)
Context (icase : bool) {A : Type}.

Definition chr_ok (c x : ascii) : bool :=
  if icase then Ascii.eqb (Py.to_lower c) (Py.to_lower x) else Ascii.eqb c x.

Definition cls_ok (p : ascii → bool) (x : ascii) : bool :=
  if icase then p x || p (Py.to_lower x) || p (Py.to_upper x) else p x.

Definition word_at (c : option ascii) : bool :=
  match c with Some x => Py.is_word x | None => false end.

(** [go r prev s k]: match [r] at a position whose previous character is
    [prev] and whose remaining input is [s], then continue with [k]; a
    failure of [k] makes the matcher backtrack. *)
Fixpoint go (r : regex) (prev : option ascii) (s : list ascii)
    (k : option ascii → list ascii → option A) {struct r} : option A :=
  match r with
  | Eps => k prev s
  | Chr c =>
      match s with
      | x :: s' => if chr_ok c x then k (Some x) s' else None
      | [] => None
      end
  | Cls p =>
      match s with
      | x :: s' => if cls_ok p x then k (Some x) s' else None
      | [] => None
      end
  | Seq r1 r2 => go r1 prev s (λ prev' s', go r2 prev' s' k)
  | Alt r1 r2 =>
      match go r1 prev s k with
      | Some a => Some a
      | None => go r2 prev s k
      end
  | Star r' =>
      (fix loop (fuel : nat) (prev : option ascii) (s : list ascii)
           {struct fuel} : option A :=
         match fuel with
         | O => k prev s
         | S fuel' =>
             match go r' prev s
                     (λ prev' s',
                        if (length s' <? length s)%nat
                        then loop fuel' prev' s' else None) with
             | Some a => Some a
             | None => k prev s
             end
         end) (length s) prev s
  | Bol => match prev with None => k prev s | Some _ => None end
  | Eol =>
      match s with
      | [] => k prev s
      | [c] => if Ascii.eqb c Py.newline then k prev s else None
      | _ => None
      end
  | WordB =>
      if xorb (word_at prev) (word_at (head s)) then k prev s else None
  end.
End Matcher.

(** The text matched by [r] at the start of [s], after [prev]. *)
Definition match_at (icase : bool) (r : regex) (prev : option ascii)
    (s : list ascii) : option (list ascii) :=
  match go icase r prev s (λ _ rest, Some rest) with
  | Some rest => Some (take (length s - length rest) s)
  | None => None
  end.

(** [re.match(r, s).group()], [None] when there is no match. *)
Definition re_match (icase : bool) (r : regex) (s : string) : option string :=
  Py.of_chars <$> match_at icase r None (Py.chars s).

(** [re.findall(r, s)] for a pattern without more than one group: the
    matches from left to right, each search resuming where the previous
    match ended (one character further after an empty match). *)
Fixpoint findall_go (icase : bool) (r : regex) (prev : option ascii)
    (skip : nat) (s : list ascii) : list (list ascii) :=
  match s with
  | [] =>
      match match_at icase r prev [] with
      | Some m => [m]
      | None => []
      end
  | c :: s' =>
      match skip with
      | S n => findall_go icase r (Some c) n s'
      | O =>
          match match_at icase r prev s with
          | Some m => m :: findall_go icase r (Some c) (length m - 1) s'
          | None => findall_go icase r (Some c) 0 s'
          end
      end
  end.

(** [re.search(r, s).group()]: the match at the leftmost position that has
    one. *)
Fixpoint search_go (icase : bool) (r : regex) (prev : option ascii)
    (s : list ascii) : option (list ascii) :=
  match match_at icase r prev s with
  | Some m => Some m
  | None =>
      match s with
      | [] => None
      | c :: s' => search_go icase r (Some c) s'
      end
  end.

Definition search (icase : bool) (r : regex) (s : string) : option string :=
  Py.of_chars <$> search_go icase r None (Py.chars s).

Definition findall (icase : bool) (r : regex) (s : string) : list string :=
  Py.of_chars <$> findall_go icase r None 0 (Py.chars s).

End Re.

(** * External collaborators

    What the scripts obtain from third-party libraries and from the network
    is passed to the models as a parameter. *)

(** [dateparser.parse]: a date, or [None]. *)
Definition date_resolver : Type := string → option Py.datetime.

(** [spacy]: the texts of the tokens of a document. *)
Definition tokenizer : Type := string → list string.

(** [difflib.SequenceMatcher(None, a, b).ratio()]. *)
Definition similarity : Type := string → string → Q.

(** [dateutil.relativedelta(end, start)]: its fields [years] and [months]. *)
Definition month_counter : Type := Py.datetime → Py.datetime → Z * Z.

(** [requests.head(url)]: the status code, or the text of the exception. *)
Definition http_client : Type := string → Z + string.

(** * cv_vetter.py *)

Module CvVetter.

Definition month_names : list string :=
  ["Jan"; "Feb"; "Mar"; "Apr"; "May"; "Jun";
   "Jul"; "Aug"; "Sep"; "Oct"; "Nov"; "Dec"].

(** [\b(?:Jan|Feb|...|Dec|\d{4})\b] *)
Definition date_pattern : Re.regex :=
  Re.seqs [Re.WordB;
           Re.alts ((Re.Lit <$> month_names) ++ [Re.Rep 4 (Re.Cls Re.digit)]);
           Re.WordB].

Section Experience.
Context (parse : date_resolver) (current_date : Py.datetime).

(** The end of the loop body of [parse_experience], from the two resolved
    dates: the new value of [total_exp]. *)
Definition add_pair (total_exp : Q) (start_date end_date : option Py.datetime)
  : Q :=
  match start_date, end_date with
  | Some s, Some e =>
      let delta := (inject_Z (Py.sub_days e s) / (36525 # 100))%Q in
      (total_exp + Py.max0 delta)%Q
  | _, _ => total_exp
  end.

(** The resolution of the two tokens of a pair. *)
Definition resolve_pair (start_str end_str : string)
  : option Py.datetime * option Py.datetime :=
  (parse start_str,
   if negb (String.eqb (Py.lower end_str) "present") then parse end_str
   else Some current_date).

(** One turn of the loop of [parse_experience], at index [i]. *)
Definition experience_step (dates : list string) (total_exp : Q) (i : Z)
  : Q :=
  let start_str := Py.index "" dates i in
  let end_str :=
    if i + 1 <? Py.len dates then Py.index "" dates (i + 1) else "Present" in
  let '(start_date, end_date) := resolve_pair start_str end_str in
  add_pair total_exp start_date end_date.

(** The loop of [parse_experience] over the tokens [dates]. *)
Definition experience_loop (dates : list string) : Q :=
  foldl (experience_step dates) 0%Q (Py.range 0 (Py.len dates) 2).

Definition parse_experience (text : string) : Q :=
  let dates := Re.findall false date_pattern text in
  Py.round1 (experience_loop dates).
End Experience.

Definition skills : list (string * gset string) :=
  [("Languages", {["python"; "java"; "javascript"; "c++"; "sql"]});
   ("Frameworks", {["react"; "node.js"; "django"; "flask"; "spring"]});
   ("Tools", {["docker"; "git"; "aws"; "jenkins"; "kubernetes"]})].

(** The two nested loops of [extract_skills] over the tokens [doc]. *)
Definition found_skills (db : list (string * gset string))
    (doc : list string) : gmap string (gset string) :=
  foldl (λ found token,
           foldl (λ found '(category, keywords),
                    if decide (token ∈ keywords)
                    then alter (λ v, v ∪ {[Py.capitalize token]}) category found
                    else found)
                 found db)
        (list_to_map ((λ '(category, _), (category, ∅)) <$> db)) doc.

Definition extract_skills (nlp : tokenizer) (text : string)
  : gmap string (list string) :=
  let doc := nlp (Py.lower text) in
  elements <$> filter (λ '(_, v), v ≠ ∅) (found_skills skills doc).

End CvVetter.

(** * cv_vetter2.py *)

Module CvVetter2.

(** ** [extract_personal_details] *)

Record details : Type := mk_details {
  name : string; email : string; linkedin : string
}.

Definition alnum (c : ascii) : bool := Py.is_cased c || Py.is_digit c.
Definition any_of (s : string) (c : ascii) : bool :=
  existsb (Ascii.eqb c) (Py.chars s).

(** [\b[A-Za-z0-9._%+-]+@[A-Za-z0-9.-]+\.[A-Z|a-z]{2,}\b] *)
Definition email_pattern : Re.regex :=
  Re.seqs [Re.WordB;
           Re.Plus (Re.Cls (Re.union alnum (any_of "._%+-")));
           Re.Chr "@";
           Re.Plus (Re.Cls (Re.union alnum (any_of ".-")));
           Re.Chr ".";
           Re.RepMin 2 (Re.Cls (Re.union Py.is_cased (any_of "|")));
           Re.WordB].

(** [(https?://)?(www\.)?linkedin\.com/(in|company)/[a-zA-Z0-9-]+/?] *)
Definition linkedin_pattern : Re.regex :=
  Re.seqs [Re.Opt (Re.seqs [Re.Lit "http"; Re.Opt (Re.Chr "s"); Re.Lit "://"]);
           Re.Opt (Re.Lit "www.");
           Re.Lit "linkedin.com/";
           Re.Alt (Re.Lit "in") (Re.Lit "company");
           Re.Chr "/";
           Re.Plus (Re.Cls (Re.union alnum (any_of "-")));
           Re.Opt (Re.Chr "/")].

(** The list [name_patterns], each pattern with its flag [(?i)]:
    - title case names: between [^(] and [)$], a word [[A-Z][a-z]+] followed
      by any number of [(?:\s[A-Z][a-z]+)];
    - all caps names: [^[A-Z\s]{5,}$];
    - label-based names: [(?i)\b(name|about)\b[\s:]* (.+)$], without the
      blank. *)
Definition title_case_pattern : Re.regex :=
  Re.seqs [Re.Bol;
           Re.Cls Re.upper_az; Re.Plus (Re.Cls Re.lower_az);
           Re.Star (Re.seqs [Re.Cls Re.space; Re.Cls Re.upper_az;
                             Re.Plus (Re.Cls Re.lower_az)]);
           Re.Eol].

Definition all_caps_pattern : Re.regex :=
  Re.seqs [Re.Bol; Re.RepMin 5 (Re.Cls (Re.union Re.upper_az Re.space));
           Re.Eol].

Definition label_pattern : Re.regex :=
  Re.seqs [Re.WordB; Re.Alt (Re.Lit "name") (Re.Lit "about"); Re.WordB;
           Re.Star (Re.Cls (Re.union Re.space (any_of ":")));
           Re.Plus (Re.Cls Re.dot);
           Re.Eol].

Definition name_patterns : list (bool * Re.regex) :=
  [(false, title_case_pattern); (false, all_caps_pattern);
   (true, label_pattern)].

(** The inner loop of the name extraction: the first pattern of
    [patterns] that matches [line] with a match of at most four words
    gives the name. *)
Fixpoint name_of_line (patterns : list (bool * Re.regex)) (line : string)
  : option string :=
  match patterns with
  | [] => None
  | (icase, pattern) :: patterns' =>
      match Re.re_match icase pattern line with
      | Some group =>
          if Py.len (Py.split group) <=? 4 then Some (Py.title group)
          else name_of_line patterns' line
      | None => name_of_line patterns' line
      end
  end.

(** The outer loop, over the stripped lines; the first name found is
    returned. *)
Fixpoint name_of_lines (patterns : list (bool * Re.regex))
    (lines : list string) : option string :=
  match lines with
  | [] => None
  | line :: lines' =>
      match name_of_line patterns (Py.strip line) with
      | Some n => Some n
      | None => name_of_lines patterns lines'
      end
  end.

Definition extract_personal_details (text : string) : details :=
  let email :=
    match Re.search false email_pattern text with
    | Some m => m
    | None => "Not Found"
    end in
  let linkedin :=
    match Re.search false linkedin_pattern text with
    | Some m => m
    | None => "Not Found"
    end in
  let name :=
    match name_of_lines name_patterns (take 20 (Py.split_on Py.newline text)) with
    | Some n => n
    | None => "Not Found"
    end in
  mk_details name email linkedin.

(** ** [extract_text]

    What the libraries [PyPDF2] and [docx] give for the uploaded file is
    part of the input: the pages of a PDF, each with the outcome of
    [page.extract_text()], and the paragraphs of a DOCX; [None] when the
    library raises on the file. *)

Inductive page : Type :=
  | PageText (t : string)     (* extract_text() returns the text *)
  | PageNone                  (* extract_text() returns None *)
  | PageError.                (* extract_text() raises *)

Record upload : Type := mk_upload {
  upload_name : string;
  pdf_pages : option (list page);
  docx_paragraphs : option (list string)
}.

(** The loop over the pages; [None] when a page raises. *)
Fixpoint pages_text (text : string) (pages : list page) : option string :=
  match pages with
  | [] => Some text
  | PageText t :: pages' => pages_text (text +:+ t) pages'
  | PageNone :: pages' => pages_text (text +:+ "") pages'
  | PageError :: _ => None
  end.

(** The [try] block returns the stripped text, the [except] block the
    empty string. *)
Definition extract_text (file_path : upload) : string :=
  let attempt : option string :=
    if Py.endswith (upload_name file_path) ".pdf" then
      pages ← pdf_pages file_path; pages_text "" pages
    else if Py.endswith (upload_name file_path) ".docx" then
      paragraphs ← docx_paragraphs file_path;
      Some (Py.join (String (Py.newline) "") paragraphs)
    else Some "" in
  match attempt with
  | Some text => Py.strip text
  | None => ""
  end.

(** ** [analyze_linkedin_profile] *)

Record linkedin_report : Type := mk_linkedin_report {
  valid : bool; issues : list string; recommendations : list string
}.

Definition analyze_linkedin_profile (requests_head : http_client)
    (profile_url : string) : linkedin_report :=
  if String.eqb profile_url "Not Found" then
    mk_linkedin_report false ["No LinkedIn found"] []
  else
    let issues :=
      match requests_head profile_url with
      | inl status_code =>
          if negb (status_code =? 200)
          then ["Profile unavailable (HTTP " +:+ pretty status_code +:+ ")"]
          else []
      | inr e => ["Connection error: " +:+ e]
      end in
    mk_linkedin_report
      (Py.len issues =? 0) issues
      (if Py.len issues =? 0
       then ["Ensure profile is public"; "Add profile picture";
             "Include detailed experience"]
       else []).

(** ** [calculate_experience] *)

Section Experience.
Context (parse : date_resolver) (current_date : Py.datetime).

(** The end of the loop body of [calculate_experience], from the two
    resolved dates: the new value of [total_exp]. *)
Definition add_pair (total_exp : Q) (start_date end_date : option Py.datetime)
  : Q :=
  match start_date, end_date with
  | Some s, Some e =>
      if Py.dt_gt s current_date then total_exp   (* ignore future dates *)
      else
        let delta := (inject_Z (Py.sub_days e s) / (36525 # 100))%Q in
        (total_exp + Py.max0 delta)%Q
  | _, _ => total_exp
  end.

(** One turn of the loop of [calculate_experience], at index [i]; the
    lines that resolve the two tokens are those of cv_vetter.py. *)
Definition experience_step (dates : list string) (total_exp : Q) (i : Z)
  : Q :=
  let start_str := Py.index "" dates i in
  let end_str :=
    if i + 1 <? Py.len dates then Py.index "" dates (i + 1) else "Present" in
  let '(start_date, end_date) :=
    CvVetter.resolve_pair parse current_date start_str end_str in
  add_pair total_exp start_date end_date.

Definition experience_loop (dates : list string) : Q :=
  foldl (experience_step dates) 0%Q (Py.range 0 (Py.len dates - 1) 2).

Definition calculate_experience (dates : list string) : Q :=
  Py.round1 (experience_loop dates).
End Experience.

(** ** [extract_skills]

    The function of cv_vetter.py, with the table in a variable named
    [skills_db] and the tokenizer loaded once for the script. *)

Definition skills_db : list (string * gset string) :=
  [("Languages", {["python"; "java"; "javascript"; "c++"; "sql"]});
   ("Frameworks", {["react"; "node.js"; "django"; "flask"; "spring"]});
   ("Tools", {["docker"; "git"; "aws"; "jenkins"; "kubernetes"]})].

Definition extract_skills (nlp : tokenizer) (text : string)
  : gmap string (list string) :=
  let doc := nlp (Py.lower text) in
  elements <$> filter (λ '(_, v), v ≠ ∅) (CvVetter.found_skills skills_db doc).

(** ** [score_projects] *)

Definition keywords : list (string * Z) :=
  [("basic", 1); ("intermediate", 2); ("advanced", 3); ("scalable", 3);
   ("microservices", 3); ("ci/cd", 2); ("optimized", 2);
   ("containerized", 3)].

(** The built-in [sum]. *)
Definition sum (l : list Z) : Z := foldl Z.add 0 l.

Definition score_projects (text : string) : Z :=
  sum (snd <$> filter (λ '(word, _), Py.contains word (Py.lower text) = true)
                      keywords).

(** ** [determine_proficiency] *)

(** The chained comparison [1 < experience <= 3] is the conjunction of its
    two halves. *)
Definition determine_proficiency (experience : Q) (project_score : Z)
  : string * Z :=
  if Qle_bool experience 1 then
    if project_score <? 2 then ("Entry Level", 1) else ("Junior", 2)
  else if Py.Qltb 1 experience && Qle_bool experience 3 then
    if project_score <? 4 then ("Mid-Level", 3) else ("Professional", 4)
  else if Py.Qltb 3 experience && Qle_bool experience 5 then
    if project_score <? 6 then ("Senior", 5) else ("Expert", 6)
  else
    if project_score <? 8 then ("Principal", 7) else ("Architect", 8).

(** ** [full_analysis_pipeline] *)

Record readiness_verdict : Type := mk_readiness {
  ready : bool; score : Z; factors : list string
}.

(** [str(b)] for a Boolean. *)
Definition str_bool (b : bool) : string := if b then "True" else "False".

(** The entry [results['readiness']]. *)
Definition readiness_of (proficiency : string * Z) (project_score : Z)
    (linkedin_valid : bool) : readiness_verdict :=
  mk_readiness
    ((3 <=? proficiency.2) && (4 <=? project_score))
    (proficiency.2 + (if 4 <=? project_score then 1 else 0))
    ["Proficiency Level: " +:+ pretty proficiency.2;
     "Project Score: " +:+ pretty project_score;
     "LinkedIn Valid: " +:+ str_bool linkedin_valid].

Record results : Type := mk_results {
  res_personal : details;
  res_experience : Q;
  res_skills : gmap string (list string);
  res_project_score : Z;
  res_proficiency : string * Z;
  res_linkedin : linkedin_report;
  res_readiness : readiness_verdict
}.

(** The pipeline without the optional entry [ai_analysis], which is the
    verbatim answer of a remote service. *)
Definition full_analysis_pipeline (parse : date_resolver)
    (current_date : Py.datetime) (nlp : tokenizer)
    (requests_head : http_client) (resume_text : string) : results :=
  let personal := extract_personal_details resume_text in
  let dates := Re.findall false CvVetter.date_pattern resume_text in
  let experience := calculate_experience parse current_date dates in
  let skills := extract_skills nlp resume_text in
  let project_score := score_projects resume_text in
  let proficiency := determine_proficiency experience project_score in
  let linkedin := analyze_linkedin_profile requests_head (linkedin personal) in
  let readiness := readiness_of proficiency project_score (valid linkedin) in
  mk_results personal experience skills project_score proficiency linkedin
             readiness.

(** ** [main]: the analysis of an upload

    The interface is left out; what remains is the test of the extracted
    text, [None] standing for the message that no text could be
    extracted. *)
Definition main_analysis (parse : date_resolver) (current_date : Py.datetime)
    (nlp : tokenizer) (requests_head : http_client) (uploaded_file : upload)
  : option results :=
  let resume_text := extract_text uploaded_file in
  if String.eqb resume_text "" then None
  else Some (full_analysis_pipeline parse current_date nlp requests_head
               resume_text).

End CvVetter2.

(** * test.py *)

Module TestPy.

(** ** [extract_name] *)

Fixpoint first_upper_line (lines : list string) : option string :=
  match lines with
  | [] => None
  | line :: lines' =>
      if Py.isupper (Py.strip line) && (Py.len (Py.split line) <=? 3)
      then Some (Py.strip line)
      else first_upper_line lines'
  end.

Definition extract_name (text : string) : string :=
  let lines := Py.split_on Py.newline text in
  match first_upper_line (take 10 lines) with
  | Some n => n
  | None => "Name not found"
  end.

(** ** [parse_email] *)

Definition parse_email (text : string) : string :=
  match Re.search false CvVetter2.email_pattern text with
  | Some m => m
  | None => "N/A"
  end.

(** ** [parse_experience] *)

(** [(\b(?:Jan|...|Dec|\d{1,2}/\d{4}|\d{4})\b|Present)], used with
    [re.IGNORECASE]; its only group is the whole match. *)
Definition date_pattern : Re.regex :=
  Re.Alt
    (Re.seqs [Re.WordB;
              Re.alts ((Re.Lit <$> CvVetter.month_names) ++
                       [Re.seqs [Re.Cls Re.digit; Re.Opt (Re.Cls Re.digit);
                                 Re.Chr "/"; Re.Rep 4 (Re.Cls Re.digit)];
                        Re.Rep 4 (Re.Cls Re.digit)]);
              Re.WordB])
    (Re.Lit "Present").

Section Experience.
(** [parse] is [dateparser.parse] with the setting [RELATIVE_BASE] at the
    instant of the run. *)
Context (parse : date_resolver) (relativedelta : month_counter)
        (current_date : Py.datetime).

(** The end of the loop body of [parse_experience], from the two resolved
    dates: the new value of [total_experience]. *)
Definition add_pair (total_experience : Q)
    (start_date end_date : option Py.datetime) : Q :=
  match start_date, end_date with
  | Some s, Some e =>
      if Py.dt_le s e then
        let delta := relativedelta e s in
        (total_experience + (inject_Z delta.1 + inject_Z delta.2 / 12))%Q
      else total_experience
  | _, _ => total_experience
  end.

(** One turn of the loop of [parse_experience], at index [i]; the lines
    that resolve the two tokens are those of cv_vetter.py, with the
    setting of [parse]. *)
Definition experience_step (date_ranges : list string)
    (total_experience : Q) (i : Z) : Q :=
  let start_str := Py.index "" date_ranges i in
  let end_str :=
    if i + 1 <? Py.len date_ranges then Py.index "" date_ranges (i + 1)
    else "Present" in
  let '(start_date, end_date) :=
    CvVetter.resolve_pair parse current_date start_str end_str in
  add_pair total_experience start_date end_date.

Definition experience_loop (date_ranges : list string) : Q :=
  foldl (experience_step date_ranges) 0%Q
        (Py.range 0 (Py.len date_ranges) 2).

Definition parse_experience (text : string) : Q :=
  let date_ranges := Re.findall true date_pattern text in
  Py.round1 (experience_loop date_ranges).
End Experience.

(** ** [parse_skills] *)

Definition skills_db : list (string * list string) :=
  [("Languages",
    ["python"; "java"; "javascript"; "typescript"; "c++"; "sql"]);
   ("Frameworks",
    ["react"; "node.js"; "django"; "flask"; "next.js"; "graphql"]);
   ("Tools",
    ["docker"; "kubernetes"; "aws"; "jenkins"; "git"; "rabbitmq"])].

(** The two nested loops of [parse_skills] over the tokens [doc]. *)
Definition found_skills (db : list (string * list string))
    (doc : list string) : gmap string (gset string) :=
  foldl (λ skills token,
           let token_lower := Py.lower token in
           foldl (λ skills '(category, keywords),
                    if decide (token_lower ∈ keywords)
                    then alter (λ v, v ∪ {[token_lower]}) category skills
                    else skills)
                 skills db)
        (list_to_map ((λ '(category, _), (category, ∅)) <$> db)) doc.

Definition parse_skills (nlp : tokenizer) (text : string)
  : gmap string (list string) :=
  let doc := nlp text in
  elements <$> found_skills skills_db doc.

(** ** [score_projects] *)

Definition complexity_keywords : list string :=
  ["scalable"; "microservices"; "ci/cd"; "optimized"; "containerized";
   "authentication"; "api"; "cloud"; "database"; "latency"].

Definition score_projects (projects : list string) : Z :=
  foldl (λ score project,
           foldl (λ score keyword,
                    if Py.contains keyword (Py.lower project)
                    then score + 1 else score)
                 score complexity_keywords)
        0 projects.

(** ** [check_plagiarism] *)

Inductive exn : Type :=
  | ZeroDivisionError
  | ValueError
  | WebDriverException.       (* what the browser of [scrape_linkedin] raises *)

Inductive result (A : Type) : Type :=
  | Ok (a : A)
  | Raise (e : exn).
Arguments Ok {A} a.
Arguments Raise {A} e.

#[global] Instance result_ret : MRet result := λ A a, Ok a.
#[global] Instance result_bind : MBind result := λ A B f x,
  match x with Ok a => f a | Raise e => Raise e end.

(** [max(l)]: raises [ValueError] on the empty list. *)
Definition py_max (l : list Q) : result Q :=
  match l with
  | [] => Raise ValueError
  | x :: l' => Ok (foldl (λ m y, if Py.Qltb m y then y else m) x l')
  end.

(** [x / n]: raises [ZeroDivisionError] when [n] is zero. *)
Definition py_div (x : Q) (n : Z) : result Q :=
  if n =? 0 then Raise ZeroDivisionError else Ok (x / inject_Z n)%Q.

Definition known_projects : list string :=
  ["Built a REST API with Django";
   "Developed a chatbot using NLP";
   "Architected scalable microservices"].

Section Plagiarism.
Context (ratio : similarity).

(** The loop of [check_plagiarism]. *)
Fixpoint plagiarism_loop (plagiarism_score : Q) (projects : list string)
  : result Q :=
  match projects with
  | [] => Ok plagiarism_score
  | project :: projects' =>
      max_similarity ← py_max (ratio project <$> known_projects);
      plagiarism_loop (plagiarism_score + max_similarity)%Q projects'
  end.

Definition check_plagiarism (projects : list string) : result Q :=
  plagiarism_score ← plagiarism_loop 0%Q projects;
  match projects with
  | _ :: _ =>
      q ← py_div plagiarism_score (Py.len projects);
      Ok (q * 100)%Q
  | [] => Ok 0%Q
  end.
End Plagiarism.

(** ** [categorize_candidate] *)

Definition categorize_candidate (experience : Q) (project_score : Z)
  : Z * string :=
  if Qle_bool experience 1 && (project_score <=? 2) then
    (1, "Beginner")
  else if (Py.Qltb 1 experience && Qle_bool experience 3)
          && ((2 <? project_score) && (project_score <=? 4)) then
    (3, "Intermediate")
  else if (Py.Qltb 3 experience && Qle_bool experience 5)
          && (4 <? project_score) then
    (4, "Professional")
  else if Py.Qltb 5 experience && (5 <? project_score) then
    (6, "Expert")
  else
    (2, "Intermediate").

(** ** [main]: the interview readiness *)

Definition interview_ready (level : Z) (project_score : Z) : string :=
  if (3 <=? level) && (3 <=? project_score) then "Yes" else "No".


(** ** [main]: the project segments

    [re.findall(r'- (.*?)(?=\n- |$)', text, re.DOTALL)]: a match starts at
    a hyphen followed by a blank; its group is the shortest run of
    characters, newlines included, after which the text goes on with a
    newline, a hyphen and a blank, or ends, or ends with one newline. *)

(** The lookahead [(?=\n- |$)] at the remaining input [rest]. *)
Definition segment_ends (rest : list ascii) : bool :=
  Py.prefix_chars [Py.newline; "-"; " "]%char rest ||
  match rest with
  | [] => true
  | [c] => Ascii.eqb c Py.newline
  | _ => false
  end.

(** The group [(.*?)] before the lookahead: the shortest prefix of [s]
    after which [segment_ends] holds. *)
Fixpoint lazy_segment (s : list ascii) : list ascii :=
  if segment_ends s then []
  else match s with
       | [] => []
       | c :: s' => c :: lazy_segment s'
       end.

(** The scan of [findall]: a search starts where the previous match, the
    two characters of the bullet and the group, ended. *)
Fixpoint segments_go (skip : nat) (s : list ascii) : list (list ascii) :=
  match s with
  | [] => []
  | c :: s' =>
      match skip with
      | S n => segments_go n s'
      | O =>
          if Py.prefix_chars ["-"; " "]%char s then
            let group := lazy_segment (drop 2 s) in
            group :: segments_go (S (length group)) s'
          else segments_go 0 s'
      end
  end.

Definition project_segments (text : string) : list string :=
  Py.of_chars <$> segments_go 0 (Py.chars text).

(** ** [main]: the candidate summary *)

(** [linkedin\.com/in/[\w-]+] *)
Definition linkedin_url_pattern : Re.regex :=
  Re.seqs [Re.Lit "linkedin.com/in/";
           Re.Plus (Re.Cls (Re.union Py.is_word (CvVetter2.any_of "-")))].

Record summary : Type := mk_summary {
  sum_name : string;
  sum_email : string;
  sum_experience : Q;
  sum_skills : gmap string (list string);
  sum_project_score : Z;
  sum_plagiarism_score : Q;
  sum_level : Z;
  sum_tier : string;
  sum_interview_ready : string
}.

(** The values that [main] shows for the text of an upload, or the
    exception that stops it.  [scrape_linkedin] drives a browser: it gives
    the skills of a profile, the empty list when the page cannot be read,
    and it raises when the browser cannot be started or closed, which
    happens outside its [try]. *)
Definition candidate_summary (parse : date_resolver)
    (relativedelta : month_counter) (current_date : Py.datetime)
    (nlp : tokenizer) (ratio : similarity)
    (scrape_linkedin : string → result (list string)) (text : string)
  : result summary :=
  let name := extract_name text in
  let email := parse_email text in
  let experience := parse_experience parse relativedelta current_date text in
  let skills := parse_skills nlp text in
  let projects := project_segments text in
  let project_score := score_projects projects in
  plagiarism_score ← check_plagiarism ratio projects;
  let '(level, tier) := categorize_candidate experience project_score in
  skills ←
    match Re.search false linkedin_url_pattern text with
    | Some m =>
        let linkedin_url := "https://www." +:+ m in
        linkedin_skills ← scrape_linkedin linkedin_url;
        Ok (<["LinkedIn Skills" := linkedin_skills]> skills)
    | None => Ok skills
    end;
  Ok (mk_summary name email experience skills project_score plagiarism_score
                 level tier (interview_ready level project_score)).

(** ** [extract_text]

    The function of test.py, which is that of cv_vetter.py: no [try], no
    test of what a page gives, and no [strip].  [None] stands for an
    exception that leaves the function: that of the library, or the
    [TypeError] of adding [None] to the text. *)

Fixpoint pages_text (text : string) (pages : list CvVetter2.page)
  : option string :=
  match pages with
  | [] => Some text
  | CvVetter2.PageText t :: pages' => pages_text (text +:+ t) pages'
  | CvVetter2.PageNone :: _ => None
  | CvVetter2.PageError :: _ => None
  end.

Definition extract_text (file_path : CvVetter2.upload) : option string :=
  if Py.endswith (CvVetter2.upload_name file_path) ".pdf" then
    pages ← CvVetter2.pdf_pages file_path; pages_text "" pages
  else if Py.endswith (CvVetter2.upload_name file_path) ".docx" then
    paragraphs ← CvVetter2.docx_paragraphs file_path;
    Some (foldl (λ text para, text +:+ (para +:+ String Py.newline ""))
                "" paragraphs)
  else Some "".

End TestPy.

(** * A date resolver for the examples

    [dateparser.parse] completes a date that lacks a field from the
    reference instant: a month name gives that month of the current year, a
    bare year gives the current month and day of that year, both at
    midnight.  [Sample.resolver] does so for the month abbreviations and
    the four-digit years, and resolves nothing else. *)

Module Sample.

Definition days_in_month (y m : Z) : Z :=
  if m =? 2 then (if Py.is_leap y then 29 else 28)
  else if (m =? 4) || (m =? 6) || (m =? 9) || (m =? 11) then 30 else 31.

Definition midnight (y m d : Z) : Py.datetime :=
  Py.mk_datetime y m (Z.min d (days_in_month y m)) 0 0 0 0.

(** The position, from 1, of [x] in [l]. *)
Fixpoint position (x : string) (l : list string) (i : Z) : option Z :=
  match l with
  | [] => None
  | y :: l' => if String.eqb x y then Some i else position x l' (i + 1)
  end.

Definition digit_value (c : ascii) : Z := Z.of_N (Py.code c) - 48.

Definition year_of (s : string) : option Z :=
  let l := Py.chars s in
  if (length l =? 4)%nat && forallb Py.is_digit l
  then Some (foldl (λ n c, 10 * n + digit_value c) 0 l)
  else None.

Definition resolver (now : Py.datetime) : date_resolver := λ s,
  match position (Py.lower s) (Py.lower <$> CvVetter.month_names) 1 with
  | Some m => Some (midnight (Py.year now) m (Py.day now))
  | None =>
      match year_of s with
      | Some y => Some (midnight y (Py.month now) (Py.day now))
      | None => None
      end
  end.

(** The instant of the examples: 15 January 2024, 09:30. *)
Definition now : Py.datetime := Py.mk_datetime 2024 1 15 9 30 0 0.

(** [relativedelta] of two dates that are exactly one year apart. *)
Definition one_year : month_counter := λ _ _, (1, 0).

(** A tokenizer for the examples: the words between white space. *)
Definition words : tokenizer := Py.split.

(** A network that answers every request with status 200. *)
Definition online : http_client := λ _, inl 200.

(** A resume with four years of dated experience and the two keywords
    [advanced] and [ci/cd], for a project score of 5. *)
Definition senior_resume : string :=
  "Backend engineer 2019 - 2023, advanced ci/cd pipelines".

(** The head of a resume whose first line is a name in capitals, and a
    labelled name of five words. *)
Definition upper_header : string :=
  "JOHN DOE
Software Engineer".

Definition labelled_name : string := "Name: Anna Maria De Souza".

(** A text whose tokens are the three skill tokens of the example. *)
Definition skills_text : string := "python Python REACT".

(** Three project segments that mention microservices and no other
    complexity keyword, and a text with the three as bullet lines. *)
Definition three_projects : list string :=
  ["Built microservices in Go"; "Split a monolith into microservices";
   "Monitored the microservices"].

Definition three_projects_text : string :=
  "- Built microservices in Go
- Split a monolith into microservices
- Monitored the microservices".

(** A similarity that tells equal texts from different ones. *)
Definition same_text : similarity := λ a b,
  if String.eqb a b then 1%Q else 0%Q.

(** A browser that reports the address it was given. *)
Definition browser : string → TestPy.result (list string) :=
  λ url, TestPy.Ok [url].

(** A browser that cannot be started. *)
Definition no_browser : string → TestPy.result (list string) :=
  λ _, TestPy.Raise TestPy.WebDriverException.

End Sample.

(** * The decision tables, as data

    The two classifiers written as tables, to state which row an input
    reaches. *)

Module Tables.

(** A band of [determine_proficiency]: the experiences [e] with
    [above < e <= upto] (no bound when [None]), the project score that
    separates its two outcomes, and the outcomes. *)
Record band : Type := mk_band {
  above : option Q;
  upto : option Q;
  threshold : Z;
  below : string * Z;
  at_or_over : string * Z
}.

Definition decision_table : list band :=
  [mk_band None (Some 1%Q) 2 ("Entry Level", 1) ("Junior", 2);
   mk_band (Some 1%Q) (Some 3%Q) 4 ("Mid-Level", 3) ("Professional", 4);
   mk_band (Some 3%Q) (Some 5%Q) 6 ("Senior", 5) ("Expert", 6);
   mk_band (Some 5%Q) None 8 ("Principal", 7) ("Architect", 8)].

Definition in_band (b : band) (experience : Q) : bool :=
  match above b with Some lo => Py.Qltb lo experience | None => true end
  && match upto b with Some hi => Qle_bool experience hi | None => true end.

Definition band_outcome (b : band) (project_score : Z) : string * Z :=
  if project_score <? threshold b then below b else at_or_over b.

(** The project-score threshold of the band that [determine_proficiency]
    selects for [experience]. *)
Definition threshold_used (experience : Q) : Z :=
  if Qle_bool experience 1 then 2
  else if Py.Qltb 1 experience && Qle_bool experience 3 then 4
  else if Py.Qltb 3 experience && Qle_bool experience 5 then 6
  else 8.

(** The four rules of [categorize_candidate] that precede its [else]. *)
Definition categorize_rules : list ((Q → Z → bool) * (Z * string)) :=
  [(λ e p, Qle_bool e 1 && (p <=? 2), (1, "Beginner"));
   (λ e p, (Py.Qltb 1 e && Qle_bool e 3) && ((2 <? p) && (p <=? 4)),
    (3, "Intermediate"));
   (λ e p, (Py.Qltb 3 e && Qle_bool e 5) && (4 <? p), (4, "Professional"));
   (λ e p, Py.Qltb 5 e && (5 <? p), (6, "Expert"))].

Definition categorize_fallback : Z * string := (2, "Intermediate").

(** The number of complexity keywords of test.py that occur in a project
    segment. *)
Definition keyword_hits (project : string) : nat :=
  length (filter (λ keyword, Py.contains keyword (Py.lower project) = true)
                 TestPy.complexity_keywords).

(** [word] is the only keyword of [table] that occurs in [text]. *)
Definition only_keyword (word : string) (table : list string) (text : string)
  : bool :=
  forallb (λ keyword,
             Bool.eqb (Py.contains keyword (Py.lower text))
                      (String.eqb keyword word))
          table.

Definition Zsum (l : list Z) : Z := foldr Z.add 0 l.

(** A pattern whose last item is [$]. *)
Fixpoint ends_at_eol (r : Re.regex) : bool :=
  match r with
  | Re.Eol => true
  | Re.Seq _ r2 => ends_at_eol r2
  | _ => false
  end.

(** Some pattern of [patterns] matches at the start of [line]. *)
Definition matches_any (patterns : list (bool * Re.regex)) (line : string)
  : bool :=
  existsb (λ '(icase, pattern),
             bool_decide (is_Some (Re.re_match icase pattern line)))
          patterns.

(** The test that a stripped line passes to give the name in
    cv_vetter2.py: a pattern matches it and it has at most four words. *)
Definition name_candidate (patterns : list (bool * Re.regex))
    (line : string) : bool :=
  matches_any patterns line && (Py.len (Py.split line) <=? 4).

(** The test that a line passes to give the name in test.py. *)
Definition upper_candidate (line : string) : bool :=
  Py.isupper (Py.strip line) && (Py.len (Py.split line) <=? 3).

(** The shape that the skill loops of the scripts share: every token that
    hits the keywords of a category adds its name to the set of that
    category. *)
Definition collect_skills {K} (hit : string → K → Prop)
    `{∀ t k, Decision (hit t k)} (name : string → string)
    (db : list (string * K)) (found : gmap string (gset string))
    (doc : list string) : gmap string (gset string) :=
  foldl (λ found token,
           foldl (λ found '(category, keywords),
                    if decide (hit token keywords)
                    then alter (λ v, v ∪ {[name token]}) category found
                    else found)
                 found db)
        found doc.

(** The two hit tests: the token is a keyword (cv_vetter.py and
    cv_vetter2.py), the lower-cased token is a keyword (test.py). *)
Definition is_keyword (t : string) (kws : gset string) : Prop := t ∈ kws.
Definition lower_is_keyword (t : string) (kws : list string) : Prop :=
  Py.lower t ∈ kws.

#[global] Instance is_keyword_dec t kws : Decision (is_keyword t kws) :=
  decide (t ∈ kws).
#[global] Instance lower_is_keyword_dec t kws
  : Decision (lower_is_keyword t kws) := decide (Py.lower t ∈ kws).

(** The names that [doc] gives to a category with the keywords [kws]. *)
Definition names_of {K} (hit : string → K → Prop)
    `{∀ t k, Decision (hit t k)} (name : string → string) (kws : K)
    (doc : list string) : gset string :=
  list_to_set (name <$> filter (λ t, hit t kws) doc).

(** The pairs of tokens of an experience loop that visits every even
    index: the tokens two by two, a last single token with [Present]. *)
Fixpoint paired (dates : list string) : list (string * string) :=
  match dates with
  | [] => []
  | [a] => [(a, "Present")]
  | a :: b :: dates' => (a, b) :: paired dates'
  end.

(** The shape that the three experience loops share: at index [i] the
    tokens [dates[i]] and [dates[i+1]], or [Present] past the end, are
    given to [add] with the running total. *)
Definition loop_step (add : Q → string → string → Q) (dates : list string)
    (total : Q) (i : Z) : Q :=
  add total (Py.index "" dates i)
      (if i + 1 <? Py.len dates then Py.index "" dates (i + 1)
       else "Present").

Definition add_pairs (add : Q → string → string → Q) (total : Q)
    (pairs : list (string * string)) : Q :=
  foldl (λ total '(s, e), add total s e) total pairs.

(** What the three scripts do with a pair of tokens and the running
    total. *)
Definition cv_add (parse : date_resolver) (now : Py.datetime)
    (total : Q) (s e : string) : Q :=
  let '(start_date, end_date) := CvVetter.resolve_pair parse now s e in
  CvVetter.add_pair total start_date end_date.

Definition cv2_add (parse : date_resolver) (now : Py.datetime)
    (total : Q) (s e : string) : Q :=
  let '(start_date, end_date) := CvVetter.resolve_pair parse now s e in
  CvVetter2.add_pair now total start_date end_date.

Definition test_add (parse : date_resolver) (relativedelta : month_counter)
    (now : Py.datetime) (total : Q) (s e : string) : Q :=
  let '(start_date, end_date) := CvVetter.resolve_pair parse now s e in
  TestPy.add_pair relativedelta total start_date end_date.

(** The pairs of an experience loop that stops before the last index: the
    tokens two by two, a last single token left out. *)
Fixpoint paired_complete (dates : list string) : list (string * string) :=
  match dates with
  | [] => []
  | [a] => []
  | a :: b :: dates' => (a, b) :: paired_complete dates'
  end.

(** The texts that a pattern can match, whatever surrounds them: the
    language of the pattern, the anchors [^], [$] and [\b] standing for
    the empty text. *)
Inductive Lang (icase : bool) : Re.regex → list ascii → Prop :=
  | Lang_eps : Lang icase Re.Eps []
  | Lang_chr c x : Re.chr_ok icase c x = true → Lang icase (Re.Chr c) [x]
  | Lang_cls p x : Re.cls_ok icase p x = true → Lang icase (Re.Cls p) [x]
  | Lang_seq r1 r2 w1 w2 :
      Lang icase r1 w1 → Lang icase r2 w2 →
      Lang icase (Re.Seq r1 r2) (w1 ++ w2)
  | Lang_alt_l r1 r2 w : Lang icase r1 w → Lang icase (Re.Alt r1 r2) w
  | Lang_alt_r r1 r2 w : Lang icase r2 w → Lang icase (Re.Alt r1 r2) w
  | Lang_star_nil r : Lang icase (Re.Star r) []
  | Lang_star_cons r w1 w2 :
      Lang icase r w1 → Lang icase (Re.Star r) w2 →
      Lang icase (Re.Star r) (w1 ++ w2)
  | Lang_bol : Lang icase Re.Bol []
  | Lang_eol : Lang icase Re.Eol []
  | Lang_wordb : Lang icase Re.WordB [].

(** The shape of an address that the e-mail pattern matches. *)
Definition email_shape (e : string) : Prop :=
  ∃ local domain tld,
    Py.chars e = local ++ "@"%char :: domain ++ "."%char :: tld ∧
    local ≠ [] ∧ domain ≠ [] ∧ (2 <= length tld)%nat ∧
    Forall (λ c, CvVetter2.alnum c || CvVetter2.any_of "._%+-" c = true) local ∧
    Forall (λ c, CvVetter2.alnum c || CvVetter2.any_of ".-" c = true) domain ∧
    Forall (λ c, Py.is_cased c || CvVetter2.any_of "|" c = true) tld.

(** The shape of a profile address that the LinkedIn pattern matches. *)
Definition linkedin_shape (l : string) : Prop :=
  ∃ scheme www kind slug slash,
    l = scheme +:+ www +:+ "linkedin.com/" +:+ kind +:+ "/"
        +:+ Py.of_chars slug +:+ slash ∧
    scheme ∈ [""; "http://"; "https://"] ∧ www ∈ [""; "www."] ∧
    kind ∈ ["in"; "company"] ∧ slash ∈ [""; "/"] ∧ slug ≠ [] ∧
    Forall (λ c, CvVetter2.alnum c || CvVetter2.any_of "-" c = true) slug.

(** [sub] occurs in [l] as a contiguous piece. *)
Definition piece_of {A} (sub l : list A) : Prop :=
  ∃ before after, l = before ++ sub ++ after.

(** The text that separates two items of a bullet list: a newline, a
    hyphen and a blank. *)
Definition bullet_break : string := String Py.newline "- ".

(** A bullet list: every item after a hyphen and a blank, the items on
    lines of their own. *)
Definition bullet_list (items : list string) : string :=
  Py.join (String Py.newline "") ((λ item, "- " +:+ item) <$> items).

(** The characters of the handle of a profile address: [[\w-]]. *)
Definition handle_char (c : ascii) : bool :=
  Py.is_word c || CvVetter2.any_of "-" c.

(** A text that does not start with white space. *)
Definition no_leading_space (l : list ascii) : Prop :=
  match l with [] => True | c :: _ => Py.is_space c = false end.

(** The ways to match a pattern: [Matches icase r p s p' s'] says that [r]
    can consume the start of the input [s], whose previous character is
    [p], and leave [s'], whose previous character is [p'].  A repetition
    is a sequence of turns of its body, each of which consumes input. *)
Inductive star_of
    (R : option ascii → list ascii → option ascii → list ascii → Prop)
  : option ascii → list ascii → option ascii → list ascii → Prop :=
  | star_of_nil p s : star_of R p s p s
  | star_of_cons p s p1 s1 p2 s2 :
      R p s p1 s1 → (length s1 < length s)%nat → star_of R p1 s1 p2 s2 →
      star_of R p s p2 s2.

Fixpoint Matches (icase : bool) (r : Re.regex) (p : option ascii)
    (s : list ascii) (p' : option ascii) (s' : list ascii) : Prop :=
  match r with
  | Re.Eps => p' = p ∧ s' = s
  | Re.Chr c => ∃ x, s = x :: s' ∧ p' = Some x ∧ Re.chr_ok icase c x = true
  | Re.Cls q => ∃ x, s = x :: s' ∧ p' = Some x ∧ Re.cls_ok icase q x = true
  | Re.Seq r1 r2 =>
      ∃ p1 s1, Matches icase r1 p s p1 s1 ∧ Matches icase r2 p1 s1 p' s'
  | Re.Alt r1 r2 => Matches icase r1 p s p' s' ∨ Matches icase r2 p s p' s'
  | Re.Star r' => star_of (Matches icase r') p s p' s'
  | Re.Bol => p = None ∧ p' = p ∧ s' = s
  | Re.Eol => (s = [] ∨ s = [Py.newline]) ∧ p' = p ∧ s' = s
  | Re.WordB =>
      xorb (Re.word_at p) (Re.word_at (head s)) = true ∧ p' = p ∧ s' = s
  end.


(** The lines that the three name patterns of cv_vetter2.py match: a
    sequence of capitalized words, each after one white space character; at
    least five capitals or white space characters; the word [name] or
    [about], in any case, followed by text that does not go on the word. *)
Definition name_word (w : list ascii) : Prop :=
  ∃ c cs, w = c :: cs ∧ Py.is_upper c = true ∧ cs ≠ [] ∧
          Forall (λ x, Py.is_lower x = true) cs.
Definition spaced_word (w : list ascii) : Prop :=
  ∃ sp w', w = sp :: w' ∧ Py.is_space sp = true ∧ name_word w'.
Definition title_shape (line : string) : Prop :=
  ∃ first others, Py.chars line = first ++ concat others ∧
                  name_word first ∧ Forall spaced_word others.
Definition caps_shape (line : string) : Prop :=
  (5 <= length (Py.chars line))%nat ∧
  Forall (λ c, Py.is_upper c || Py.is_space c = true) (Py.chars line).
Definition label_shape (line : string) : Prop :=
  ∃ label tail, Py.chars line = label ++ tail ∧
                (Py.to_lower <$> label = Py.chars "name" ∨
                 Py.to_lower <$> label = Py.chars "about") ∧
                tail ≠ [] ∧ Re.word_at (head tail) = false.


(** A name that starts with the label of the line it was taken from. *)
Definition keeps_label (n : string) : Prop :=
  ∃ label tail, Py.chars n = label ++ tail ∧
                (Py.to_lower <$> label = Py.chars "name" ∨
                 Py.to_lower <$> label = Py.chars "about").

(** What [cv_vetter2.extract_text] adds to the text for a page. *)
Definition page_text (p : CvVetter2.page) : string :=
  match p with CvVetter2.PageText t => t | _ => "" end.

(** What [main] of test.py shows for a text without project segment. *)
Definition no_projects (s : TestPy.summary) : Prop :=
  TestPy.sum_project_score s = 0 ∧
  (TestPy.sum_plagiarism_score s == 0)%Q ∧
  1 <= TestPy.sum_level s <= 2 ∧
  TestPy.sum_interview_ready s = "No".

End Tables.

(** * Facts about the Python primitives *)

Lemma Qltb_lt (x y : Q) : Py.Qltb x y = true ↔ (x < y)%Q.
Proof.
  unfold Py.Qltb. rewrite negb_true_iff. split.
  - intros H. apply Qnot_le_lt. intros Hle.
    apply Qle_bool_iff in Hle. congruence.
  - intros H. destruct (Qle_bool y x) eqn:E; [|reflexivity].
    apply Qle_bool_iff in E. apply Qlt_not_le in H. contradiction.
Qed.

Lemma Qltb_ge (x y : Q) : Py.Qltb x y = false ↔ (y <= x)%Q.
Proof. unfold Py.Qltb. rewrite negb_false_iff. apply Qle_bool_iff. Qed.

Lemma Qle_bool_gt (x y : Q) : Qle_bool x y = false ↔ (y < x)%Q.
Proof.
  rewrite <- Qltb_lt. unfold Py.Qltb. by rewrite negb_true_iff.
Qed.

(** Case analysis on every comparison of rationals in the goal, each case
    with the order fact it stands for. *)
Ltac q_compare :=
  repeat match goal with
    | |- context [Qle_bool ?x ?y] =>
        let E := fresh "E" in
        destruct (Qle_bool x y) eqn:E;
        [apply Qle_bool_iff in E | apply Qle_bool_gt in E]; simpl
    | |- context [Py.Qltb ?x ?y] =>
        let E := fresh "E" in
        destruct (Py.Qltb x y) eqn:E;
        [apply Qltb_lt in E | apply Qltb_ge in E]; simpl
    end.

(** The same for the comparisons of integers. *)
Ltac z_compare :=
  repeat match goal with
    | |- context [?x <? ?y] => destruct (Z.ltb_spec x y); simpl
    | |- context [?x <=? ?y] => destruct (Z.leb_spec x y); simpl
    end.

(** Closes a goal after such a case analysis: by arithmetic on the
    integers, or by a contradiction among the facts on the rationals. *)
Ltac by_order := first [done | lia | exfalso; lra | lra].

(** * The proficiency classifier *)

Section Proficiency.
Import CvVetter2 Tables.

(** The members of the decision table, one case for each. *)
Ltac table_cases H :=
  unfold decision_table in H;
  repeat (apply elem_of_cons in H as [-> | H]);
  [.. | by apply elem_of_nil in H].

(** Closes a goal whose band hypothesis [H] contradicts the order facts at
    hand, or whose two bands are the same. *)
Ltac band_clash H :=
  try reflexivity;
  unfold in_band in H; simpl in H; revert H;
  q_compare; simpl; intros; try done; exfalso; lra.

Lemma determine_proficiency_band (experience : Q) (project_score : Z) :
  ∃ b, b ∈ decision_table ∧ in_band b experience = true ∧
       determine_proficiency experience project_score
       = band_outcome b project_score ∧
       ∀ b', b' ∈ decision_table → in_band b' experience = true → b' = b.
Proof.
  unfold determine_proficiency.
  destruct (Qle_bool experience 1) eqn:E1;
    [|destruct (Py.Qltb 1 experience && Qle_bool experience 3) eqn:E2;
      [|destruct (Py.Qltb 3 experience && Qle_bool experience 5) eqn:E3]].
  - exists (mk_band None (Some 1%Q) 2 ("Entry Level", 1) ("Junior", 2)).
    split; [set_solver|]. split; [by unfold in_band; simpl; rewrite E1|].
    split; [reflexivity|]. apply Qle_bool_iff in E1.
    intros b' Hb' Hin. table_cases Hb'; band_clash Hin.
  - exists (mk_band (Some 1%Q) (Some 3%Q) 4 ("Mid-Level", 3)
              ("Professional", 4)).
    split; [set_solver|]. split; [by unfold in_band; simpl|].
    split; [reflexivity|].
    apply andb_true_iff in E2 as [E2 E2']. apply Qle_bool_gt in E1.
    apply Qltb_lt in E2. apply Qle_bool_iff in E2'.
    intros b' Hb' Hin. table_cases Hb'; band_clash Hin.
  - exists (mk_band (Some 3%Q) (Some 5%Q) 6 ("Senior", 5) ("Expert", 6)).
    split; [set_solver|]. split; [by unfold in_band; simpl|].
    split; [reflexivity|].
    apply andb_true_iff in E3 as [E3 E3']. apply Qle_bool_gt in E1.
    apply Qltb_lt in E3. apply Qle_bool_iff in E3'.
    intros b' Hb' Hin. table_cases Hb'; band_clash Hin.
  - exists (mk_band (Some 5%Q) None 8 ("Principal", 7) ("Architect", 8)).
    apply Qle_bool_gt in E1.
    assert (5 < experience)%Q as E5.
    { revert E2 E3. q_compare; simpl; intros; try done; lra. }
    split; [set_solver|]. split.
    { unfold in_band; simpl. rewrite andb_true_r. by apply Qltb_lt. }
    split; [reflexivity|].
    intros b' Hb' Hin. table_cases Hb'; band_clash Hin.
Qed.

Lemma determine_proficiency_level (experience : Q) (project_score : Z) :
  (determine_proficiency experience project_score).2
  = threshold_used experience
    - (if project_score <? threshold_used experience then 1 else 0).
Proof.
  unfold determine_proficiency, threshold_used.
  q_compare; z_compare; by_order.
Qed.

Lemma threshold_used_four (experience : Q) :
  threshold_used experience = 4 ↔ (1 < experience)%Q ∧ (experience <= 3)%Q.
Proof.
  unfold threshold_used. q_compare; split; intros; try by_order;
    try (split; by_order); destruct_and?; by_order.
Qed.

(** The level of [categorize_candidate] is that of the first rule that
    applies, the fallback when none does. *)
Lemma categorize_candidate_rules (experience : Q) (project_score : Z) :
  TestPy.categorize_candidate experience project_score
  = match find (λ r, r.1 experience project_score) categorize_rules with
    | Some r => r.2
    | None => categorize_fallback
    end.
Proof.
  unfold TestPy.categorize_candidate, categorize_rules, categorize_fallback.
  simpl.
  repeat match goal with
    | |- context [if ?c then _ else _] => destruct c; simpl; try reflexivity
    end.
Qed.

(** C4, as amended: [determine_proficiency] is total on the non-negative
    inputs: it returns one (tier, level) with a level from 1 to 8, which is
    the outcome of the one band of its table that holds the experience, so
    that no input is left to a default.  [categorize_candidate] returns a
    level from 1 to 8 too, that of its first rule that applies, and its
    default (2, Intermediate) when none of its four rules does. *)
Theorem proficiency_classifiers_total (experience : Q) (project_score : Z) :
  (0 <= experience)%Q → 0 <= project_score →
  (∃ tier level,
      determine_proficiency experience project_score = (tier, level) ∧
      1 <= level <= 8 ∧
      ∃ b, b ∈ decision_table ∧ in_band b experience = true ∧
           band_outcome b project_score = (tier, level) ∧
           ∀ b', b' ∈ decision_table → in_band b' experience = true → b' = b)
  ∧
  (∃ level tier,
      TestPy.categorize_candidate experience project_score = (level, tier) ∧
      1 <= level <= 8 ∧
      (level, tier)
      = match find (λ r, r.1 experience project_score) categorize_rules with
        | Some r => r.2
        | None => categorize_fallback
        end).
Proof.
  intros _ _. split.
  - destruct (determine_proficiency experience project_score)
      as [tier level] eqn:E.
    exists tier, level. split; [reflexivity|]. split.
    + pose proof (determine_proficiency_level experience project_score) as H.
      rewrite E in H. simpl in H. rewrite H. unfold threshold_used.
      q_compare; z_compare; by_order.
    + destruct (determine_proficiency_band experience project_score)
        as (b & Hb & Hin & Hout & Huniq).
      exists b. rewrite <- Hout, E. auto.
  - destruct (TestPy.categorize_candidate experience project_score)
      as [level tier] eqn:E.
    exists level, tier. split; [reflexivity|]. split.
    + revert E. unfold TestPy.categorize_candidate.
      repeat match goal with
        | |- context [if ?c then _ else _] => destruct c; simpl
        end; intros [= <- <-]; lia.
    + rewrite <- E. apply categorize_candidate_rules.
Qed.

Lemma proficiency_classifiers_total_witness :
  (0 <= 4)%Q ∧ 0 <= 5 ∧
  (∃ tier level,
      determine_proficiency 4 5 = (tier, level) ∧ 1 <= level <= 8 ∧
      ∃ b, b ∈ decision_table ∧ in_band b 4 = true ∧
           band_outcome b 5 = (tier, level) ∧
           ∀ b', b' ∈ decision_table → in_band b' 4 = true → b' = b)
  ∧
  (∃ level tier,
      TestPy.categorize_candidate 4 5 = (level, tier) ∧ 1 <= level <= 8 ∧
      (level, tier)
      = match find (λ r, r.1 4%Q 5) categorize_rules with
        | Some r => r.2
        | None => categorize_fallback
        end).
Proof.
  split; [lra|]. split; [lia|].
  apply (proficiency_classifiers_total 4 5); [lra | lia].
Defined.

(** C4, as the specification states it, fails on [categorize_candidate]:
    half a year of experience with a project score of 3 satisfies none of
    its four rules and gets the default of its [else]. *)
Lemma categorize_candidate_reaches_fallback :
  forallb (λ r, negb (r.1 (1 # 2)%Q 3)) categorize_rules = true ∧
  TestPy.categorize_candidate (1 # 2) 3 = categorize_fallback.
Proof. split; reflexivity. Qed.

(** C10: the level of [determine_proficiency] does not decrease when the
    experience grows at a fixed project score, nor when the project score
    grows at a fixed experience. *)
Theorem determine_proficiency_monotone :
  (∀ (p : Z) (e1 e2 : Q),
      (e1 <= e2)%Q →
      (determine_proficiency e1 p).2 <= (determine_proficiency e2 p).2) ∧
  (∀ (e : Q) (p1 p2 : Z),
      p1 <= p2 →
      (determine_proficiency e p1).2 <= (determine_proficiency e p2).2).
Proof.
  split.
  - intros p e1 e2 He. rewrite !determine_proficiency_level.
    unfold threshold_used. q_compare; z_compare; by_order.
  - intros e p1 p2 Hp. rewrite !determine_proficiency_level.
    z_compare; by_order.
Qed.

Lemma determine_proficiency_monotone_witness :
  ((1 <= 4)%Q ∧
   (determine_proficiency 1 5).2 <= (determine_proficiency 4 5).2) ∧
  (2 <= 7 ∧ (determine_proficiency 4 2).2 <= (determine_proficiency 4 7).2).
Proof.
  split.
  - split; [lra|]. apply (proj1 determine_proficiency_monotone 5 1%Q 4%Q). lra.
  - split; [lia|]. apply (proj2 determine_proficiency_monotone 4%Q 2 7). lia.
Defined.

End Proficiency.

(** * The readiness verdict *)

Section Readiness.
Import CvVetter2 Tables.

(** C5, as the specification states it, fails: in the run on
    [Sample.senior_resume] the table compares the project score 5 with the
    threshold 6 of the band of four years and gives level 5, while the
    verdict compares it with 4: the candidate is ready with score 6, where
    the threshold of the table would give not ready and score 5. *)
Lemma readiness_threshold_differs :
  let r := full_analysis_pipeline (Sample.resolver Sample.now) Sample.now
             Sample.words Sample.online Sample.senior_resume in
  let level := (res_proficiency r).2 in
  let met := threshold_used (res_experience r) <=? res_project_score r in
  (res_experience r == 4)%Q ∧ res_project_score r = 5 ∧ level = 5 ∧
  threshold_used (res_experience r) = 6 ∧
  ready (res_readiness r) = true ∧ (3 <=? level) && met = false ∧
  score (res_readiness r) = 6 ∧ level + (if met then 1 else 0) = 5.
Proof. vm_compute. repeat split; congruence. Qed.

(** C5, as amended: in every run the candidate is ready exactly when the
    level is at least 3 and the project score at least 4, the readiness
    score is the level plus 1 when the project score is at least 4, and the
    factors are the level, the project score and the validity of the
    profile, in this order and all three always; 4 is the threshold of the
    proficiency table only for an experience over 1 and up to 3 years.  In
    test.py the candidate is ready exactly when the level and the project
    score are both at least 3. *)
Theorem readiness_fixed_threshold (parse : date_resolver)
    (current_date : Py.datetime) (nlp : tokenizer)
    (requests_head : http_client) (resume_text : string) :
  let r := full_analysis_pipeline parse current_date nlp requests_head
             resume_text in
  let level := (res_proficiency r).2 in
  let project_score := res_project_score r in
  res_proficiency r = determine_proficiency (res_experience r) project_score ∧
  (ready (res_readiness r) = true ↔ 3 <= level ∧ 4 <= project_score) ∧
  score (res_readiness r)
  = level + (if 4 <=? project_score then 1 else 0) ∧
  factors (res_readiness r)
  = ["Proficiency Level: " +:+ pretty level;
     "Project Score: " +:+ pretty project_score;
     "LinkedIn Valid: " +:+ str_bool (valid (res_linkedin r))] ∧
  (threshold_used (res_experience r) = 4 ↔
   (1 < res_experience r)%Q ∧ (res_experience r <= 3)%Q) ∧
  (∀ level' project_score',
      TestPy.interview_ready level' project_score' = "Yes" ↔
      3 <= level' ∧ 3 <= project_score').
Proof.
  cbv zeta. unfold full_analysis_pipeline. cbn [res_proficiency
    res_project_score res_readiness res_linkedin res_experience].
  split; [reflexivity|]. split.
  { unfold readiness_of. cbn [ready]. rewrite andb_true_iff.
    rewrite !Z.leb_le. reflexivity. }
  split; [reflexivity|]. split; [reflexivity|]. split.
  { apply threshold_used_four. }
  intros level' project_score'. unfold TestPy.interview_ready.
  z_compare; split; intros; try done; try lia; destruct_and?; lia.
Qed.

End Readiness.

(** * Project scores *)

Section Projects.
Import Tables.

Lemma foldl_add_Zsum (l : list Z) (acc : Z) :
  foldl Z.add acc l = acc + Zsum l.
Proof.
  revert acc. induction l as [|x l IH]; intros acc; simpl; [lia|].
  rewrite IH. lia.
Qed.

Lemma keyword_loop_count (text : string) (table : list string) (score : Z) :
  foldl (λ score keyword,
           if Py.contains keyword text then score + 1 else score) score table
  = score
    + Z.of_nat (length (filter (λ keyword, Py.contains keyword text = true)
                               table)).
Proof.
  revert score. induction table as [|k table IH]; intros score; simpl.
  - lia.
  - rewrite IH. rewrite filter_cons.
    destruct (Py.contains k text) eqn:E.
    + rewrite decide_True by reflexivity. simpl length. lia.
    + rewrite decide_False by discriminate. lia.
Qed.

Lemma score_projects_from (table : list string) (projects : list string)
    (score : Z) :
  foldl (λ score project,
           foldl (λ score keyword,
                    if Py.contains keyword (Py.lower project)
                    then score + 1 else score)
                 score table)
        score projects
  = score
    + Zsum ((λ p, Z.of_nat
                    (length (filter (λ keyword,
                                       Py.contains keyword (Py.lower p) = true)
                                    table)))
              <$> projects).
Proof.
  revert score. induction projects as [|p projects IH]; intros score; simpl.
  - lia.
  - rewrite IH, keyword_loop_count. symmetry. apply Z.add_assoc.
Qed.

Lemma score_projects_hits (projects : list string) :
  TestPy.score_projects projects
  = Zsum ((λ p, Z.of_nat (keyword_hits p)) <$> projects).
Proof. unfold TestPy.score_projects. by rewrite score_projects_from. Qed.

Lemma keyword_hits_le (project : string) : (keyword_hits project <= 10)%nat.
Proof.
  unfold keyword_hits.
  etrans; [apply length_filter|]. reflexivity.
Qed.

Lemma only_keyword_filter (word : string) (table : list string)
    (text : string) :
  only_keyword word table text = true →
  filter (λ keyword, Py.contains keyword (Py.lower text) = true) table
  = filter (λ keyword, String.eqb keyword word = true) table.
Proof.
  unfold only_keyword. induction table as [|k table IH]; simpl; [done|].
  rewrite andb_true_iff. intros [Hk Htable].
  rewrite !filter_cons, IH by done.
  apply Bool.eqb_prop in Hk. rewrite Hk.
  destruct (String.eqb k word); reflexivity.
Qed.

Lemma only_microservices_hits (project : string) :
  only_keyword "microservices" TestPy.complexity_keywords project = true →
  keyword_hits project = 1%nat.
Proof.
  intros H. unfold keyword_hits. by rewrite (only_keyword_filter _ _ _ H).
Qed.

Lemma Zsum_ones (l : list string) (f : string → Z) :
  (∀ x, x ∈ l → f x = 1) → Zsum (f <$> l) = Py.len l.
Proof.
  unfold Py.len. induction l as [|x l IH]; intros H; [reflexivity|].
  rewrite fmap_cons. cbn [Zsum foldr length].
  fold (Zsum (f <$> l)). rewrite IH, H by set_solver. lia.
Qed.

Lemma Zsum_bounds (l : list string) (f : string → Z) (n : Z) :
  (∀ x, 0 <= f x <= n) → 0 <= Zsum (f <$> l) <= n * Py.len l.
Proof.
  intros H. unfold Py.len. induction l as [|x l IH]; [simpl; lia|].
  rewrite fmap_cons. cbn [Zsum foldr length].
  fold (Zsum (f <$> l)). specialize (H x). lia.
Qed.

Lemma only_keyword_weights (word : string) (table : list (string * Z))
    (text : string) :
  only_keyword word table.*1 text = true →
  filter (λ '(keyword, _), Py.contains keyword (Py.lower text) = true) table
  = filter (λ '(keyword, _), String.eqb keyword word = true) table.
Proof.
  unfold only_keyword. induction table as [|[k w] table IH]; simpl; [done|].
  rewrite andb_true_iff. intros [Hk Htable].
  rewrite !filter_cons, IH by done.
  apply Bool.eqb_prop in Hk.
  repeat case_decide; simpl in *; try reflexivity; congruence.
Qed.

(** C3, as amended: the scorer of test.py adds 1 for every keyword of its
    list that occurs in the lower-cased text of a segment, once for the
    segment however often the keyword occurs in it, and sums over the
    segments, so that a segment adds at most 10; segments that contain
    [microservices] and no other keyword score their number.  The scorer of
    cv_vetter2.py adds the weight of every keyword of its table that occurs
    in the lower-cased text as a whole, once for the text; a text that
    contains [microservices] and no other keyword scores 3. *)
Theorem score_projects_counts (projects : list string) (text : string) :
  TestPy.score_projects projects
  = Zsum ((λ p, Z.of_nat (keyword_hits p)) <$> projects) ∧
  0 <= TestPy.score_projects projects <= 10 * Py.len projects ∧
  (forallb (only_keyword "microservices" TestPy.complexity_keywords) projects
   = true →
   TestPy.score_projects projects = Py.len projects) ∧
  CvVetter2.score_projects text
  = Zsum (snd <$> filter (λ '(word, _),
                            Py.contains word (Py.lower text) = true)
                         CvVetter2.keywords) ∧
  (only_keyword "microservices" CvVetter2.keywords.*1 text = true →
   CvVetter2.score_projects text = 3).
Proof.
  rewrite score_projects_hits. split; [reflexivity|]. split.
  { apply Zsum_bounds. intros p. pose proof (keyword_hits_le p). lia. }
  split.
  { intros H. apply Zsum_ones. intros p Hp.
    rewrite forallb_forall in H.
    rewrite only_microservices_hits; [reflexivity|].
    apply H, list_elem_of_In, Hp. }
  unfold CvVetter2.score_projects, CvVetter2.sum.
  split; [by rewrite foldl_add_Zsum|].
  intros H. by rewrite (only_keyword_weights _ _ _ H).
Qed.

Lemma score_projects_counts_witness :
  forallb (only_keyword "microservices" TestPy.complexity_keywords)
          Sample.three_projects = true ∧
  only_keyword "microservices" CvVetter2.keywords.*1
               Sample.three_projects_text = true ∧
  TestPy.score_projects Sample.three_projects
  = Py.len Sample.three_projects ∧
  CvVetter2.score_projects Sample.three_projects_text = 3.
Proof.
  assert (H1 : forallb (only_keyword "microservices"
                          TestPy.complexity_keywords)
                       Sample.three_projects = true) by reflexivity.
  assert (H2 : only_keyword "microservices" CvVetter2.keywords.*1
                            Sample.three_projects_text = true)
    by reflexivity.
  split; [exact H1|]. split; [exact H2|].
  pose proof (score_projects_counts Sample.three_projects
                Sample.three_projects_text) as (_ & _ & Ht & _ & Hv).
  split; [exact (Ht H1) | exact (Hv H2)].
Defined.

(** C3, as the specification states it, fails: three segments that each
    contain [microservices] and no other complexity keyword score 3, not 9,
    in test.py, where every keyword weighs 1, and in cv_vetter2.py, where
    the keyword weighs 3 and is counted once for the whole text. *)
Lemma three_microservices_projects_score :
  length Sample.three_projects = 3%nat ∧
  forallb (only_keyword "microservices" TestPy.complexity_keywords)
          Sample.three_projects = true ∧
  only_keyword "microservices" CvVetter2.keywords.*1
               Sample.three_projects_text = true ∧
  TestPy.score_projects Sample.three_projects = 3 ∧
  CvVetter2.score_projects Sample.three_projects_text = 3 ∧
  TestPy.score_projects Sample.three_projects ≠ 9 ∧
  CvVetter2.score_projects Sample.three_projects_text ≠ 9.
Proof. repeat split; try reflexivity; vm_compute; discriminate. Qed.

(** C8: on the empty list of segments the complexity score is 0 and the
    similarity score is 0; the division by the number of segments is
    reached only for a list that is not empty, where it cannot raise, so
    that [check_plagiarism] raises on no input, although the division
    itself would raise on the length of the empty list.  The scorer of
    cv_vetter2.py, which takes the text, gives 0 on the empty text. *)
Theorem empty_projects_score_zero (ratio : similarity) :
  TestPy.score_projects [] = 0 ∧
  CvVetter2.score_projects "" = 0 ∧
  TestPy.check_plagiarism ratio [] = TestPy.Ok 0%Q ∧
  (∀ projects, ∃ q, TestPy.check_plagiarism ratio projects = TestPy.Ok q) ∧
  (∀ q, TestPy.py_div q (Py.len (@nil string))
        = TestPy.Raise TestPy.ZeroDivisionError).
Proof.
  split; [reflexivity|]. split; [reflexivity|]. split; [reflexivity|].
  split; [|reflexivity].
  assert (Hloop : ∀ projects acc,
             ∃ q, TestPy.plagiarism_loop ratio acc projects = TestPy.Ok q).
  { induction projects as [|p projects IH]; intros acc; simpl; [eauto|].
    apply IH. }
  intros projects. unfold TestPy.check_plagiarism.
  destruct (Hloop projects 0%Q) as [q ->]. cbn [mbind TestPy.result_bind].
  destruct projects as [|p projects]; [eauto|].
  unfold TestPy.py_div.
  replace (Py.len (p :: projects) =? 0) with false; [cbn; eauto|].
  symmetry. apply Z.eqb_neq. unfold Py.len. simpl length. lia.
Qed.

End Projects.

(** * Experience *)

Section Ranges.

Lemma range_nil (start stop step : Z) :
  0 < step → stop <= start → Py.range start stop step = [].
Proof.
  intros Hstep Hle. unfold Py.range.
  assert (Hq : (stop - start + step - 1) / step < 1)
    by (apply Z.div_lt_upper_bound; lia).
  set (q := (stop - start + step - 1) / step) in *.
  replace (Z.to_nat q) with 0%nat by lia. reflexivity.
Qed.

Lemma range_cons (start stop step : Z) :
  0 < step → start < stop →
  Py.range start stop step = start :: Py.range (start + step) stop step.
Proof.
  intros Hstep Hlt. unfold Py.range.
  replace (stop - start + step - 1) with (stop - start - 1 + 1 * step) by lia.
  rewrite Z.div_add by lia.
  replace (stop - (start + step) + step - 1) with (stop - start - 1) by lia.
  assert (Hq : 0 <= (stop - start - 1) / step) by (apply Z.div_pos; lia).
  set (q := (stop - start - 1) / step) in *.
  replace (Z.to_nat (q + 1)) with (S (Z.to_nat q)) by lia.
  cbn [seq]. rewrite fmap_cons. f_equal; [lia|].
  rewrite <- fmap_S_seq, <- list_fmap_compose.
  apply list_fmap_ext. intros _ k _. simpl. lia.
Qed.

Lemma index_app_length {A} (d : A) (pre l : list A) (x : A) :
  Py.index d (pre ++ x :: l) (Py.len pre) = x.
Proof.
  unfold Py.index, Py.len.
  destruct (Z.ltb_spec (Z.of_nat (length pre)) 0); [lia|].
  rewrite Nat2Z.id. rewrite app_nth2 by lia.
  by rewrite Nat.sub_diag.
Qed.

Lemma list_pair_ind {A} (P : list A → Prop) :
  P [] → (∀ a, P [a]) → (∀ a b l, P l → P (a :: b :: l)) → ∀ l, P l.
Proof.
  intros H0 H1 H2 l.
  assert (H : P l ∧ ∀ a, P (a :: l)); [|by destruct H].
  induction l as [|x l [IH1 IH2]]; [by split|].
  split; [apply IH2|]. intros a. by apply H2.
Qed.

End Ranges.

Section Pairing.
Import Tables.
Context (add : Q → string → string → Q).

Lemma len_app {A} (l1 l2 : list A) :
  Py.len (l1 ++ l2) = Py.len l1 + Py.len l2.
Proof. unfold Py.len. rewrite length_app. lia. Qed.

Lemma len_cons {A} (x : A) (l : list A) : Py.len (x :: l) = 1 + Py.len l.
Proof. unfold Py.len. simpl length. lia. Qed.

Lemma len_nil {A} : Py.len (@nil A) = 0.
Proof. reflexivity. Qed.

Lemma len_nonneg {A} (l : list A) : 0 <= Py.len l.
Proof. unfold Py.len. lia. Qed.

(** Arithmetic on the lengths of lists built with [++] and [::]. *)
Ltac len_lia :=
  unfold Py.len in *; rewrite ?length_app in *; cbn [length] in *; lia.

(** The step at the index [len(pre)] of [pre ++ a :: b :: l] takes [a] and
    [b]. *)
Lemma loop_step_two (pre l : list string) (a b : string) (total : Q) :
  loop_step add (pre ++ a :: b :: l) total (Py.len pre) = add total a b.
Proof.
  unfold loop_step. rewrite index_app_length.
  replace (Py.len pre + 1) with (Py.len (pre ++ [a])) by len_lia.
  replace (pre ++ a :: b :: l) with ((pre ++ [a]) ++ b :: l)
    by (by rewrite <- app_assoc).
  rewrite index_app_length.
  destruct (Z.ltb_spec (Py.len (pre ++ [a]))
                       (Py.len ((pre ++ [a]) ++ b :: l)));
    [reflexivity | len_lia].
Qed.

(** The step at the last index takes the last token and [Present]. *)
Lemma loop_step_last (pre : list string) (a : string) (total : Q) :
  loop_step add (pre ++ [a]) total (Py.len pre) = add total a "Present".
Proof.
  unfold loop_step. rewrite index_app_length.
  destruct (Z.ltb_spec (Py.len pre + 1) (Py.len (pre ++ [a])));
    [len_lia | reflexivity].
Qed.

(** A loop over [range(i, len(dates), 2)] visits the pairs of [paired]. *)
Lemma loop_paired (l pre : list string) (total : Q) :
  foldl (loop_step add (pre ++ l)) total
        (Py.range (Py.len pre) (Py.len (pre ++ l)) 2)
  = add_pairs add total (paired l).
Proof.
  revert pre total. induction l as [|a|a b l IH] using list_pair_ind;
    intros pre total.
  - rewrite range_nil; [reflexivity | lia | len_lia].
  - rewrite range_cons by len_lia. rewrite range_nil by len_lia.
    cbn [foldl paired add_pairs]. apply loop_step_last.
  - rewrite range_cons by len_lia.
    cbn [foldl paired add_pairs]. rewrite loop_step_two.
    replace (pre ++ a :: b :: l) with ((pre ++ [a; b]) ++ l)
      by (by rewrite <- app_assoc).
    replace (Py.len pre + 2) with (Py.len (pre ++ [a; b])) by len_lia.
    apply IH.
Qed.

(** A loop over [range(i, len(dates) - 1, 2)] visits those of
    [paired_complete]. *)
Lemma loop_paired_complete (l pre : list string) (total : Q) :
  foldl (loop_step add (pre ++ l)) total
        (Py.range (Py.len pre) (Py.len (pre ++ l) - 1) 2)
  = add_pairs add total (paired_complete l).
Proof.
  revert pre total. induction l as [|a|a b l IH] using list_pair_ind;
    intros pre total.
  - rewrite range_nil; [reflexivity | lia | len_lia].
  - rewrite range_nil; [reflexivity | lia | len_lia].
  - rewrite range_cons by len_lia.
    cbn [foldl paired_complete add_pairs]. rewrite loop_step_two.
    replace (pre ++ a :: b :: l) with ((pre ++ [a; b]) ++ l)
      by (by rewrite <- app_assoc).
    replace (Py.len pre + 2) with (Py.len (pre ++ [a; b])) by len_lia.
    apply IH.
Qed.

Lemma paired_app (ds l : list string) :
  Nat.Even (length ds) → paired (ds ++ l) = paired ds ++ paired l.
Proof.
  induction ds as [|a|a b ds IH] using list_pair_ind; intros Heven.
  - reflexivity.
  - destruct Heven as [k Hk]. simpl in Hk. lia.
  - cbn [app paired]. rewrite IH; [reflexivity|].
    destruct Heven as [k Hk]. exists (k - 1)%nat. simpl in Hk. lia.
Qed.

Lemma paired_complete_app (ds l : list string) :
  Nat.Even (length ds) →
  paired_complete (ds ++ l) = paired_complete ds ++ paired_complete l.
Proof.
  induction ds as [|a|a b ds IH] using list_pair_ind; intros Heven.
  - reflexivity.
  - destruct Heven as [k Hk]. simpl in Hk. lia.
  - cbn [app paired_complete]. rewrite IH; [reflexivity|].
    destruct Heven as [k Hk]. exists (k - 1)%nat. simpl in Hk. lia.
Qed.

Lemma paired_even (ds : list string) :
  Nat.Even (length ds) → paired ds = paired_complete ds.
Proof.
  induction ds as [|a|a b ds IH] using list_pair_ind; intros Heven.
  - reflexivity.
  - destruct Heven as [k Hk]. simpl in Hk. lia.
  - cbn [paired paired_complete]. rewrite IH; [reflexivity|].
    destruct Heven as [k Hk]. exists (k - 1)%nat. simpl in Hk. lia.
Qed.

Lemma add_pairs_app (total : Q) (l1 l2 : list (string * string)) :
  add_pairs add total (l1 ++ l2) = add_pairs add (add_pairs add total l1) l2.
Proof. unfold add_pairs. apply foldl_app. Qed.

End Pairing.

Section ExperienceLoops.
Import Tables.
Context (parse : date_resolver) (relativedelta : month_counter)
        (now : Py.datetime).

Lemma cv_loop_paired (dates : list string) :
  CvVetter.experience_loop parse now dates
  = add_pairs (cv_add parse now) 0%Q (paired dates).
Proof. apply (loop_paired (cv_add parse now) dates [] 0%Q). Qed.

Lemma test_loop_paired (dates : list string) :
  TestPy.experience_loop parse relativedelta now dates
  = add_pairs (test_add parse relativedelta now) 0%Q (paired dates).
Proof.
  apply (loop_paired (test_add parse relativedelta now) dates [] 0%Q).
Qed.

Lemma cv2_loop_paired (dates : list string) :
  CvVetter2.experience_loop parse now dates
  = add_pairs (cv2_add parse now) 0%Q (paired_complete dates).
Proof. apply (loop_paired_complete (cv2_add parse now) dates [] 0%Q). Qed.

(** The end of a pair whose second token is [Present] is the current
    date. *)
Lemma resolve_present (t : string) :
  CvVetter.resolve_pair parse now t "Present" = (parse t, Some now).
Proof. reflexivity. Qed.

(** In cv_vetter.py a last token without partner counts from its date to
    the current date, as it does when [Present] follows it. *)
Lemma cv_loop_unpaired (ds : list string) (t : string) :
  Nat.Even (length ds) →
  CvVetter.experience_loop parse now (ds ++ [t])
  = CvVetter.add_pair (CvVetter.experience_loop parse now ds)
      (parse t) (Some now) ∧
  CvVetter.experience_loop parse now (ds ++ [t])
  = CvVetter.experience_loop parse now (ds ++ [t; "Present"]).
Proof.
  intros Heven. rewrite !cv_loop_paired, !paired_app by done.
  rewrite !add_pairs_app. split; reflexivity.
Qed.

(** And so it does in test.py. *)
Lemma test_loop_unpaired (ds : list string) (t : string) :
  Nat.Even (length ds) →
  TestPy.experience_loop parse relativedelta now (ds ++ [t])
  = TestPy.add_pair relativedelta
      (TestPy.experience_loop parse relativedelta now ds)
      (parse t) (Some now) ∧
  TestPy.experience_loop parse relativedelta now (ds ++ [t])
  = TestPy.experience_loop parse relativedelta now (ds ++ [t; "Present"]).
Proof.
  intros Heven. rewrite !test_loop_paired, !paired_app by done.
  rewrite !add_pairs_app. split; reflexivity.
Qed.

(** In cv_vetter2.py the loop stops before a last token without partner. *)
Lemma cv2_loop_unpaired (ds : list string) (t : string) :
  Nat.Even (length ds) →
  CvVetter2.experience_loop parse now (ds ++ [t])
  = CvVetter2.experience_loop parse now ds.
Proof.
  intros Heven. rewrite !cv2_loop_paired, paired_complete_app by done.
  by rewrite app_nil_r.
Qed.

(** With [Present] written out, cv_vetter2.py counts the last token as the
    other two scripts do. *)
Lemma cv2_loop_present (ds : list string) (t : string) :
  Nat.Even (length ds) →
  CvVetter2.experience_loop parse now (ds ++ [t; "Present"])
  = CvVetter2.add_pair now (CvVetter2.experience_loop parse now ds)
      (parse t) (Some now).
Proof.
  intros Heven. rewrite !cv2_loop_paired, paired_complete_app by done.
  by rewrite add_pairs_app.
Qed.

End ExperienceLoops.

(** C1: in cv_vetter.py and in test.py a token sequence of odd length is
    paired position by position and its last token counts from its date to
    the current date, exactly as when [Present] follows it.  In
    cv_vetter2.py the loop runs over [range(0, len(dates) - 1, 2)]: the
    last token of an odd sequence is never read, the experience is that of
    the sequence without it, and the branch that would supply [Present] is
    never taken. *)
Theorem calculate_experience_drops_unpaired_token (parse : date_resolver)
    (relativedelta : month_counter) (now : Py.datetime)
    (ds : list string) (t : string) :
  Nat.Even (length ds) →
  CvVetter2.calculate_experience parse now (ds ++ [t])
  = CvVetter2.calculate_experience parse now ds ∧
  CvVetter2.experience_loop parse now (ds ++ [t; "Present"])
  = CvVetter2.add_pair now (CvVetter2.experience_loop parse now ds)
      (parse t) (Some now) ∧
  CvVetter.experience_loop parse now (ds ++ [t])
  = CvVetter.experience_loop parse now (ds ++ [t; "Present"]) ∧
  CvVetter.experience_loop parse now (ds ++ [t])
  = CvVetter.add_pair (CvVetter.experience_loop parse now ds)
      (parse t) (Some now) ∧
  TestPy.experience_loop parse relativedelta now (ds ++ [t])
  = TestPy.experience_loop parse relativedelta now (ds ++ [t; "Present"]) ∧
  TestPy.experience_loop parse relativedelta now (ds ++ [t])
  = TestPy.add_pair relativedelta
      (TestPy.experience_loop parse relativedelta now ds)
      (parse t) (Some now).
Proof.
  intros Heven.
  destruct (cv_loop_unpaired parse now ds t Heven) as [Hc1 Hc2].
  destruct (test_loop_unpaired parse relativedelta now ds t Heven)
    as [Ht1 Ht2].
  split.
  { unfold CvVetter2.calculate_experience.
    by rewrite cv2_loop_unpaired. }
  split; [by apply cv2_loop_present|]. auto.
Qed.

Lemma calculate_experience_drops_unpaired_token_witness :
  Nat.Even (length ["2015"; "2018"]) ∧
  CvVetter2.calculate_experience (Sample.resolver Sample.now) Sample.now
    (["2015"; "2018"] ++ ["2019"])
  = CvVetter2.calculate_experience (Sample.resolver Sample.now) Sample.now
      ["2015"; "2018"].
Proof.
  assert (H : Nat.Even (length ["2015"; "2018"])) by (exists 1%nat; reflexivity).
  split; [exact H|].
  exact (proj1 (calculate_experience_drops_unpaired_token
                  (Sample.resolver Sample.now) (λ _ _, (0, 0)) Sample.now
                  ["2015"; "2018"] "2019" H)).
Defined.

(** On 15 January 2024 the single token [2019] gives no experience in
    cv_vetter2.py and five years in cv_vetter.py, which is also what
    cv_vetter2.py gives once [Present] is written after the token. *)
Lemma unpaired_token_2019 :
  let parse := Sample.resolver Sample.now in
  (CvVetter2.calculate_experience parse Sample.now ["2019"] == 0)%Q ∧
  (CvVetter2.calculate_experience parse Sample.now ["2019"; "Present"] == 5)%Q ∧
  Re.findall false CvVetter.date_pattern "Since 2019" = ["2019"] ∧
  (CvVetter.parse_experience parse Sample.now "Since 2019" == 5)%Q.
Proof. vm_compute. repeat split; congruence. Qed.

Section PairPolicy.

Lemma max0_zero (x : Q) : (x <= 0)%Q → (Py.max0 x == 0)%Q.
Proof.
  intros H. unfold Py.max0.
  destruct (Py.Qltb x 0) eqn:E; [reflexivity|].
  apply Qltb_ge in E. lra.
Qed.

Lemma max0_pos (x : Q) : (0 < Py.max0 x)%Q → (0 < x)%Q.
Proof.
  unfold Py.max0. destruct (Py.Qltb x 0) eqn:E; [lra | done].
Qed.

Lemma year_fraction_sign (d : Z) :
  ((0 < inject_Z d / (36525 # 100))%Q ↔ 0 < d) ∧
  (d <= 0 → (inject_Z d / (36525 # 100) <= 0)%Q).
Proof.
  rewrite (Zlt_Qlt 0 d), (Zle_Qle d 0). change (inject_Z 0) with 0%Q.
  assert (Hd : (inject_Z d / (36525 # 100) == inject_Z d * (100 # 36525))%Q)
    by (by field).
  rewrite Hd. split; [split|]; intros; lra.
Qed.

Lemma sub_days_sign (e s : Py.datetime) :
  (Py.dt_gt s e = true → Py.sub_days e s < 0) ∧
  (0 < Py.sub_days e s → Py.dt_le s e = true).
Proof.
  unfold Py.dt_gt, Py.dt_le, Py.sub_days. split.
  - intros H%Z.ltb_lt. apply Z.div_lt_upper_bound; lia.
  - intros H. apply Z.leb_le.
    destruct (Z.le_gt_cases (Py.timestamp s) (Py.timestamp e)) as [|Hgt];
      [done|].
    assert ((Py.timestamp e - Py.timestamp s) / 86400000000 < 0)
      by (apply Z.div_lt_upper_bound; lia).
    lia.
Qed.

(** The policy of cv_vetter2.py for a pair: the total is unchanged when a
    side did not resolve, when the start is after the current date, and
    when the start is after the end; it grows only when both sides
    resolved, the start is not after the current date and not after the
    end. *)
Lemma cv2_add_pair_policy (now : Py.datetime) (total : Q)
    (start_date end_date : option Py.datetime) :
  (start_date = None ∨ end_date = None →
   CvVetter2.add_pair now total start_date end_date = total) ∧
  (∀ s e, start_date = Some s → end_date = Some e →
          Py.dt_gt s now = true →
          CvVetter2.add_pair now total start_date end_date = total) ∧
  (∀ s e, start_date = Some s → end_date = Some e →
          Py.dt_gt s e = true →
          (CvVetter2.add_pair now total start_date end_date == total)%Q) ∧
  ((total < CvVetter2.add_pair now total start_date end_date)%Q →
   ∃ s e, start_date = Some s ∧ end_date = Some e ∧
          Py.dt_gt s now = false ∧ Py.dt_le s e = true).
Proof.
  unfold CvVetter2.add_pair. repeat split.
  - intros [-> | ->]; [reflexivity | by destruct start_date].
  - intros s e -> -> Hfuture. by rewrite Hfuture.
  - intros s e -> -> Hafter. destruct (Py.dt_gt s now); [reflexivity|].
    cbv zeta. rewrite max0_zero; [lra|].
    apply year_fraction_sign.
    pose proof (proj1 (sub_days_sign e s) Hafter). lia.
  - destruct start_date as [s|]; [|intros H; lra].
    destruct end_date as [e|]; [|intros H; lra].
    destruct (Py.dt_gt s now) eqn:Hfuture; [intros H; lra|].
    cbv zeta. intros H. exists s, e. repeat split; try done.
    apply sub_days_sign, year_fraction_sign, max0_pos. lra.
Qed.

End PairPolicy.

(** C2: the claim holds of [calculate_experience] in cv_vetter2.py, but
    [parse_experience] in cv_vetter.py and in test.py have no test of the
    start against the current date.  On 15 January 2024 the pair of tokens
    [2030], [2031] resolves to a start in the future and an end one year
    later: cv_vetter2.py leaves the total unchanged, cv_vetter.py adds
    365 / 365.25 of a year and test.py adds what [relativedelta] gives,
    one year. *)
Theorem parse_experience_counts_future_pair :
  let parse := Sample.resolver Sample.now in
  let s := Sample.midnight 2030 1 15 in
  let e := Sample.midnight 2031 1 15 in
  CvVetter.resolve_pair parse Sample.now "2030" "2031" = (Some s, Some e) ∧
  Py.dt_gt s Sample.now = true ∧ Py.dt_le s e = true ∧
  CvVetter2.add_pair Sample.now 0 (Some s) (Some e) = 0%Q ∧
  (0 < CvVetter.add_pair 0 (Some s) (Some e))%Q ∧
  (∀ relativedelta total,
      TestPy.add_pair relativedelta total (Some s) (Some e)
      = (total + (inject_Z (relativedelta e s).1
                  + inject_Z (relativedelta e s).2 / 12))%Q) ∧
  (CvVetter2.calculate_experience parse Sample.now ["2030"; "2031"] == 0)%Q ∧
  (CvVetter.parse_experience parse Sample.now "2030 - 2031" == 1)%Q ∧
  (TestPy.parse_experience parse Sample.one_year Sample.now "2030 - 2031"
   == 1)%Q.
Proof.
  cbv zeta. split; [reflexivity|]. split; [reflexivity|].
  split; [reflexivity|]. split; [reflexivity|]. split; [reflexivity|].
  split; [intros; reflexivity|].
  vm_compute. repeat split; congruence.
Qed.

(** The two older scripts do discard a pair with an unresolved side or
    with a start after its end. *)
Lemma older_add_pair_guards (relativedelta : month_counter) (total : Q)
    (start_date end_date : option Py.datetime) :
  (start_date = None ∨ end_date = None →
   CvVetter.add_pair total start_date end_date = total ∧
   TestPy.add_pair relativedelta total start_date end_date = total) ∧
  (∀ s e, start_date = Some s → end_date = Some e → Py.dt_gt s e = true →
          (CvVetter.add_pair total start_date end_date == total)%Q ∧
          TestPy.add_pair relativedelta total start_date end_date = total).
Proof.
  unfold CvVetter.add_pair, TestPy.add_pair. split.
  - intros [-> | ->]; [done | by destruct start_date].
  - intros s e -> -> Hafter. split.
    + cbv zeta. rewrite max0_zero; [lra|].
      apply year_fraction_sign.
      pose proof (proj1 (sub_days_sign e s) Hafter). lia.
    + unfold Py.dt_gt, Py.dt_le in *. apply Z.ltb_lt in Hafter.
      destruct (Z.leb_spec (Py.timestamp s) (Py.timestamp e)); [lia|done].
Qed.

(** C9: the tokenizers split [Jan 2019] into the two tokens [Jan] and
    [2019], which the loops take as the start and the end of one pair; the
    range from January 2019 to the present is never formed.  Whatever the
    resolver, the experience is what the pair ([Jan], [2019]) adds, plus in
    test.py what the pair ([Present], current date) adds.  With a resolver
    that completes a month name with the current year, on 15 January 2024,
    the first pair starts in 2024 and ends in 2019 and the experience is
    0.0 in the three scripts, not 5.0. *)
Theorem parse_experience_jan_2019_present :
  let text := "Jan 2019 - Present" in
  Re.findall true TestPy.date_pattern text = ["Jan"; "2019"; "Present"] ∧
  Re.findall false CvVetter.date_pattern text = ["Jan"; "2019"] ∧
  (∀ parse relativedelta now,
      TestPy.parse_experience parse relativedelta now text
      = Py.round1
          (TestPy.add_pair relativedelta
             (TestPy.add_pair relativedelta 0 (parse "Jan") (parse "2019"))
             (parse "Present") (Some now))) ∧
  (∀ parse now,
      CvVetter.parse_experience parse now text
      = Py.round1 (CvVetter.add_pair 0 (parse "Jan") (parse "2019"))) ∧
  (∀ parse now,
      CvVetter2.calculate_experience parse now
        (Re.findall false CvVetter.date_pattern text)
      = Py.round1 (CvVetter2.add_pair now 0 (parse "Jan") (parse "2019"))) ∧
  (∀ relativedelta,
      (TestPy.parse_experience (Sample.resolver Sample.now) relativedelta
         Sample.now text == 0)%Q) ∧
  (CvVetter.parse_experience (Sample.resolver Sample.now) Sample.now text
   == 0)%Q ∧
  (CvVetter2.calculate_experience (Sample.resolver Sample.now) Sample.now
     (Re.findall false CvVetter.date_pattern text) == 0)%Q.
Proof.
  cbv zeta.
  assert (Ht : Re.findall true TestPy.date_pattern "Jan 2019 - Present"
               = ["Jan"; "2019"; "Present"]) by (vm_compute; reflexivity).
  assert (Hc : Re.findall false CvVetter.date_pattern "Jan 2019 - Present"
               = ["Jan"; "2019"]) by (vm_compute; reflexivity).
  split; [exact Ht|]. split; [exact Hc|].
  split.
  { intros parse relativedelta now. unfold TestPy.parse_experience.
    rewrite Ht. reflexivity. }
  split.
  { intros parse now. unfold CvVetter.parse_experience.
    rewrite Hc. reflexivity. }
  split.
  { intros parse now. rewrite Hc. reflexivity. }
  split.
  { intros relativedelta. unfold TestPy.parse_experience.
    rewrite Ht. reflexivity. }
  split.
  { unfold CvVetter.parse_experience. rewrite Hc. reflexivity. }
  rewrite Hc. reflexivity.
Qed.

(** * Skills *)

Section SkillLoops.
Import Tables.
Context {K : Type} (hit : string → K → Prop)
        `{Hdec : ∀ t k, Decision (hit t k)} (name : string → string).

Lemma empty_sets_lookup (db : list (string * K)) (c : string) :
  (list_to_map ((λ '(category, _), (category, ∅)) <$> db)
     : gmap string (gset string)) !! c
  = (λ _, ∅) <$> (list_to_map db : gmap string K) !! c.
Proof.
  induction db as [|[c' kws] db IH]; [reflexivity|].
  rewrite fmap_cons. cbn [list_to_map foldr].
  destruct (decide (c' = c)) as [->|Hne].
  - by rewrite !lookup_insert_eq.
  - rewrite !lookup_insert_ne by done. apply IH.
Qed.

(** One token: the sets of the categories that it hits grow by its name. *)
Lemma collect_token_lookup (token : string) (db : list (string * K))
    (found : gmap string (gset string)) (c : string) :
  NoDup db.*1 →
  foldl (λ found '(category, keywords),
           if decide (hit token keywords)
           then alter (λ v, v ∪ {[name token]}) category found
           else found)
        found db !! c
  = match (list_to_map db : gmap string K) !! c with
    | Some kws =>
        if decide (hit token kws)
        then (λ v, v ∪ {[name token]}) <$> found !! c
        else found !! c
    | None => found !! c
    end.
Proof.
  revert found. induction db as [|[c' kws] db IH]; intros found Hnodup.
  - reflexivity.
  - rewrite fmap_cons in Hnodup. apply NoDup_cons in Hnodup as [Hc' Hnodup].
    cbn [foldl list_to_map foldr]. rewrite IH by done.
    cbn [fst snd] in *.
    destruct (decide (c' = c)) as [->|Hne].
    + rewrite lookup_insert_eq.
      rewrite (not_elem_of_list_to_map_1 db c) by done.
      destruct (decide (hit token kws)); [|done].
      by rewrite lookup_alter_eq.
    + rewrite lookup_insert_ne by done.
      destruct (decide (hit token kws)); [|done].
      by rewrite lookup_alter_ne.
Qed.

(** All the tokens: the set of a category grows by the names of the
    tokens that hit its keywords. *)
Lemma collect_skills_lookup (db : list (string * K)) (doc : list string)
    (found : gmap string (gset string)) (c : string) :
  NoDup db.*1 →
  collect_skills hit name db found doc !! c
  = match (list_to_map db : gmap string K) !! c with
    | Some kws => (λ v, v ∪ names_of hit name kws doc) <$> found !! c
    | None => found !! c
    end.
Proof.
  intros Hnodup. unfold collect_skills, names_of.
  revert found. induction doc as [|token doc IH]; intros found.
  - cbn [foldl]. destruct (list_to_map db !! c); [|done].
    destruct (found !! c) as [v|]; [|done]. simpl. f_equal.
    by rewrite (right_id_L ∅ (∪)).
  - cbn [foldl]. rewrite IH, collect_token_lookup by done.
    destruct (list_to_map db !! c) as [kws|]; [|done].
    rewrite filter_cons.
    destruct (decide (hit token kws)); [|done].
    destruct (found !! c) as [v|]; [|done]. simpl. f_equal.
    by rewrite (assoc_L (∪)).
Qed.

(** From empty sets: a category of the table gets the names of its
    tokens, and there is no other category. *)
Lemma collect_from_empty (db : list (string * K)) (doc : list string)
    (c : string) :
  NoDup db.*1 →
  collect_skills hit name db
    (list_to_map ((λ '(category, _), (category, ∅)) <$> db)) doc !! c
  = (λ kws, names_of hit name kws doc) <$> (list_to_map db : gmap string K) !! c.
Proof.
  intros Hnodup. rewrite collect_skills_lookup, empty_sets_lookup by done.
  destruct (list_to_map db !! c); [|done]. simpl. f_equal.
  by rewrite (left_id_L ∅ (∪)).
Qed.

Lemma elem_of_names_of (kws : K) (doc : list string) (n : string) :
  n ∈ names_of hit name kws doc ↔
  ∃ t, t ∈ doc ∧ hit t kws ∧ n = name t.
Proof.
  unfold names_of. rewrite elem_of_list_to_set, list_elem_of_fmap. split.
  - intros (t & -> & [Hhit Hin]%list_elem_of_filter). eauto.
  - intros (t & Hin & Hhit & ->). exists t. split; [done|].
    by apply list_elem_of_filter.
Qed.

End SkillLoops.

Section Skills.
Import Tables.

Lemma cv_found_skills (db : list (string * gset string)) (doc : list string) :
  CvVetter.found_skills db doc
  = collect_skills is_keyword Py.capitalize db
      (list_to_map ((λ '(category, _), (category, ∅)) <$> db)) doc.
Proof. reflexivity. Qed.

Lemma test_found_skills (db : list (string * list string))
    (doc : list string) :
  TestPy.found_skills db doc
  = collect_skills lower_is_keyword Py.lower db
      (list_to_map ((λ '(category, _), (category, ∅)) <$> db)) doc.
Proof. reflexivity. Qed.

Lemma skills_db_categories :
  NoDup CvVetter2.skills_db.*1 ∧ NoDup TestPy.skills_db.*1.
Proof. split; apply (bool_decide_unpack _); vm_compute; exact I. Qed.

(** The entry of a category in the result of [extract_skills]. *)
Lemma extract_skills_lookup (nlp : tokenizer) (text c : string)
    (names : list string) :
  CvVetter2.extract_skills nlp text !! c = Some names ↔
  ∃ kws, (c, kws) ∈ CvVetter2.skills_db ∧
         names_of is_keyword Py.capitalize kws (nlp (Py.lower text)) ≠ ∅ ∧
         names = elements
                   (names_of is_keyword Py.capitalize kws
                             (nlp (Py.lower text))).
Proof.
  pose proof (proj1 skills_db_categories) as Hnodup.
  unfold CvVetter2.extract_skills. rewrite lookup_fmap_Some. split.
  - intros (v & <- & [Hfound Hne]%map_lookup_filter_Some).
    rewrite cv_found_skills, collect_from_empty in Hfound by done.
    apply fmap_Some in Hfound as (kws & Hkws & ->).
    exists kws. split; [by apply elem_of_list_to_map_2|]. done.
  - intros (kws & Hin & Hne & ->). eexists. split; [reflexivity|].
    apply map_lookup_filter_Some. split; [|done].
    rewrite cv_found_skills, collect_from_empty by done.
    apply fmap_Some. exists kws. split; [|done].
    by apply elem_of_list_to_map_1.
Qed.

(** The entry of a category in the result of [parse_skills]. *)
Lemma parse_skills_lookup (nlp : tokenizer) (text c : string)
    (names : list string) :
  TestPy.parse_skills nlp text !! c = Some names ↔
  ∃ kws, (c, kws) ∈ TestPy.skills_db ∧
         names = elements
                   (names_of lower_is_keyword Py.lower kws (nlp text)).
Proof.
  pose proof (proj2 skills_db_categories) as Hnodup.
  unfold TestPy.parse_skills. rewrite lookup_fmap_Some.
  rewrite test_found_skills. split.
  - intros (v & <- & Hfound).
    rewrite collect_from_empty in Hfound by done.
    apply fmap_Some in Hfound as (kws & Hkws & ->).
    exists kws. split; [by apply elem_of_list_to_map_2|]. done.
  - intros (kws & Hin & ->). eexists. split; [reflexivity|].
    rewrite collect_from_empty by done.
    apply fmap_Some. exists kws. split; [|done].
    by apply elem_of_list_to_map_1.
Qed.

(** C6, as amended: [extract_skills], the same in cv_vetter.py and in
    cv_vetter2.py, maps a category to the names of the skills matched in
    the lower-cased text: a list without duplicates that holds exactly the
    capitalized tokens that are keywords of the category, and is present
    only if it is not empty; tokens [python], [python], [react] give
    Languages: [Python] and Frameworks: [React].  [parse_skills] of test.py
    matches the lower-cased tokens and removes duplicates too, but keeps
    the names in lower case and returns each of its three categories, with
    an empty list when nothing matched. *)
Theorem skills_by_category (nlp : tokenizer) (text : string) :
  CvVetter.extract_skills nlp text = CvVetter2.extract_skills nlp text ∧
  (∀ c names,
      CvVetter2.extract_skills nlp text !! c = Some names →
      names ≠ [] ∧ NoDup names ∧
      ∃ kws, (c, kws) ∈ CvVetter2.skills_db ∧
             ∀ n, n ∈ names ↔
                  ∃ t, t ∈ nlp (Py.lower text) ∧ t ∈ kws ∧
                       n = Py.capitalize t) ∧
  (∀ c kws t,
      (c, kws) ∈ CvVetter2.skills_db → t ∈ nlp (Py.lower text) → t ∈ kws →
      ∃ names, CvVetter2.extract_skills nlp text !! c = Some names ∧
               Py.capitalize t ∈ names) ∧
  (nlp (Py.lower text) = ["python"; "python"; "react"] →
   CvVetter2.extract_skills nlp text
   = {[ "Languages" := ["Python"]; "Frameworks" := ["React"] ]}) ∧
  (∀ c kws,
      (c, kws) ∈ TestPy.skills_db →
      ∃ names, TestPy.parse_skills nlp text !! c = Some names ∧
               NoDup names ∧
               ∀ n, n ∈ names ↔
                    ∃ t, t ∈ nlp text ∧ Py.lower t ∈ kws ∧ n = Py.lower t) ∧
  (∀ c, is_Some (TestPy.parse_skills nlp text !! c) →
        c ∈ TestPy.skills_db.*1).
Proof.
  split; [reflexivity|]. split.
  { intros c names (kws & Hin & Hne & ->)%extract_skills_lookup.
    split.
    { intros Hnil. apply elements_empty_inv in Hnil.
      by apply leibniz_equiv in Hnil. }
    split; [apply NoDup_elements|].
    exists kws. split; [done|]. intros n.
    rewrite elem_of_elements. apply elem_of_names_of. }
  split.
  { intros c kws t Hin Ht Hkw.
    assert (Helem : Py.capitalize t
                    ∈ names_of is_keyword Py.capitalize kws
                               (nlp (Py.lower text)))
      by (apply elem_of_names_of; eauto).
    eexists. split.
    - apply extract_skills_lookup. exists kws. split; [done|].
      split; [|reflexivity]. intros Hempty. rewrite Hempty in Helem.
      by apply not_elem_of_empty in Helem.
    - by apply elem_of_elements. }
  split.
  { intros Hdoc. unfold CvVetter2.extract_skills. rewrite Hdoc.
    vm_compute. reflexivity. }
  split.
  { intros c kws Hin. eexists. split.
    - apply parse_skills_lookup. exists kws. split; [done | reflexivity].
    - split; [apply NoDup_elements|]. intros n.
      rewrite elem_of_elements. apply elem_of_names_of. }
  intros c [names (kws & Hin & _)%parse_skills_lookup].
  apply list_elem_of_fmap. by exists (c, kws).
Qed.

Lemma skills_by_category_witness :
  Sample.words (Py.lower Sample.skills_text) = ["python"; "python"; "react"] ∧
  CvVetter2.extract_skills Sample.words Sample.skills_text
  = {[ "Languages" := ["Python"]; "Frameworks" := ["React"] ]}.
Proof.
  assert (H : Sample.words (Py.lower Sample.skills_text)
              = ["python"; "python"; "react"]) by reflexivity.
  split; [exact H|].
  exact (proj1 (proj2 (proj2 (proj2
           (skills_by_category Sample.words Sample.skills_text)))) H).
Defined.

(** C6, as the specification states it, fails on [parse_skills] of
    test.py: for the tokens [python], [Python], [REACT] it returns the
    names in lower case and the category Tools with an empty list. *)
Lemma parse_skills_lower_case_and_empty :
  Sample.words Sample.skills_text = ["python"; "Python"; "REACT"] ∧
  TestPy.parse_skills Sample.words Sample.skills_text
  = {[ "Languages" := ["python"]; "Frameworks" := ["react"];
       "Tools" := [] ]} ∧
  TestPy.parse_skills Sample.words Sample.skills_text
  ≠ {[ "Languages" := ["Python"]; "Frameworks" := ["React"] ]}.
Proof.
  split; [reflexivity|]. split; [vm_compute; reflexivity|].
  intros H. apply (f_equal (λ m, m !! "Tools")) in H.
  vm_compute in H. discriminate.
Qed.

End Skills.

(** * Regular expressions: where a match ends *)

Section Engine.
Import Tables.
Context (icase : bool) {A : Type}.

(** A successful match has called its continuation on a suffix of the
    input. *)
Lemma go_continues (r : Re.regex) (prev : option ascii) (s : list ascii)
    (k : option ascii → list ascii → option A) (a : A) :
  Re.go icase r prev s k = Some a →
  ∃ prev' s', s' `suffix_of` s ∧ k prev' s' = Some a.
Proof.
  revert prev s k. induction r as [|c|p|r1 IH1 r2 IH2|r1 IH1 r2 IH2|r IH| | |];
    intros prev s k H; cbn [Re.go] in H.
  - eauto.
  - destruct s as [|x s]; [done|]. destruct (Re.chr_ok icase c x); [|done].
    exists (Some x), s. split; [by apply suffix_cons_r|done].
  - destruct s as [|x s]; [done|]. destruct (Re.cls_ok icase p x); [|done].
    exists (Some x), s. split; [by apply suffix_cons_r|done].
  - apply IH1 in H as (p1 & s1 & Hs1 & H).
    apply IH2 in H as (p2 & s2 & Hs2 & H).
    exists p2, s2. split; [by etrans|done].
  - destruct (Re.go icase r1 prev s k) eqn:E.
    + injection H as ->. by apply IH1 in E.
    + by apply IH2 in H.
  - revert H. generalize (length s) at 1. intros fuel.
    revert prev s. induction fuel as [|fuel IHfuel]; intros prev s H.
    + eauto.
    + match type of H with
      | match ?m with _ => _ end = _ => destruct m eqn:E
      end.
      * injection H as ->. apply IH in E as (p1 & s1 & Hs1 & E).
        destruct (length s1 <? length s)%nat; [|done].
        apply IHfuel in E as (p2 & s2 & Hs2 & E).
        exists p2, s2. split; [by etrans|done].
      * eauto.
  - destruct prev; [done|]. eauto.
  - destruct s as [|c [|c' s]]; [eauto| |done].
    destruct (Ascii.eqb c Py.newline); [eauto|done].
  - destruct (xorb _ _); [eauto|done].
Qed.

(** After a pattern that ends with [$] the continuation is called at the
    end of the input, or before its last character if this is a newline. *)
Lemma go_ends_at_eol (r : Re.regex) (prev : option ascii) (s : list ascii)
    (k : option ascii → list ascii → option A) (a : A) :
  ends_at_eol r = true →
  Re.go icase r prev s k = Some a →
  ∃ prev' s', s' `suffix_of` s ∧ (s' = [] ∨ s' = [Py.newline]) ∧
              k prev' s' = Some a.
Proof.
  revert prev s k. induction r as [| | |r1 _ r2 IH2| | | | |];
    intros prev s k Hend H; try discriminate.
  - cbn [Re.go] in H. cbn [ends_at_eol] in Hend.
    apply go_continues in H as (p1 & s1 & Hs1 & H).
    apply IH2 in H as (p2 & s2 & Hs2 & Hs2' & H); [|done].
    exists p2, s2. split; [by etrans|done].
  - cbn [Re.go] in H. destruct s as [|c [|c' s]]; [| |done].
    + exists prev, []. auto.
    + destruct (Ascii.eqb c Py.newline) eqn:E; [|done].
      apply Ascii.eqb_eq in E as ->. exists prev, [Py.newline]. auto.
Qed.

End Engine.

(** A pattern that ends with [$] matches a text without newline as a
    whole, if it matches it. *)
Lemma match_at_whole (icase : bool) (r : Re.regex) (s m : list ascii) :
  Tables.ends_at_eol r = true → Py.newline ∉ s →
  Re.match_at icase r None s = Some m → m = s.
Proof.
  intros Hend Hnl. unfold Re.match_at.
  destruct (Re.go icase r None s (λ _ rest, Some rest)) as [rest|] eqn:E;
    [|done].
  intros [= <-].
  apply go_ends_at_eol in E as (p' & s' & Hsuffix & Hs' & [= <-]); [|done].
  destruct Hs' as [-> | ->].
  - rewrite Nat.sub_0_r. apply firstn_all.
  - exfalso. apply Hnl. destruct Hsuffix as [l ->]. set_solver.
Qed.

(** * Regular expressions: the ways to match *)

Section EngineExact.
Import Tables.
Context (icase : bool).

Lemma go_complete {A} (r : Re.regex) (p : option ascii) (s : list ascii)
    (p' : option ascii) (s' : list ascii)
    (k : option ascii → list ascii → option A) :
  Matches icase r p s p' s' → is_Some (k p' s') →
  is_Some (Re.go icase r p s k).
Proof.
  revert p s p' s' k.
  induction r as [|c|q|r1 IH1 r2 IH2|r1 IH1 r2 IH2|r IH| | |];
    intros p s p' s' k HM Hk; cbn [Matches] in HM; cbn [Re.go].
  - by destruct HM as [-> ->].
  - destruct HM as (x & -> & -> & ->). done.
  - destruct HM as (x & -> & -> & ->). done.
  - destruct HM as (p1 & s1 & H1 & H2). eapply IH1; [exact H1|].
    by eapply IH2.
  - destruct HM as [H1 | H2].
    + destruct (IH1 _ _ _ _ k H1 Hk) as [a ->]. eauto.
    + destruct (Re.go icase r1 p s k); [eauto|]. by eapply IH2.
  - assert (Hfuel : (length s <= length s)%nat) by lia.
    revert Hfuel. generalize (length s) at 2 3. intros fuel Hfuel.
    revert fuel Hfuel.
    induction HM as [p s|p s p1 s1 p2 s2 H1 Hlt HM IHM]; intros fuel Hfuel.
    + destruct fuel; [exact Hk|].
      match goal with
      | |- is_Some (match ?m with _ => _ end) => destruct m
      end; [eauto | exact Hk].
    + destruct fuel as [|fuel]; [lia|].
      match goal with
      | |- is_Some (match ?m with _ => _ end) =>
          assert (Hm : is_Some m); [|destruct Hm as [a ->]; eauto]
      end.
      eapply IH; [exact H1|].
      apply Nat.ltb_lt in Hlt as Hlt'. rewrite Hlt'.
      apply IHM; [exact Hk | lia].
  - destruct HM as (-> & -> & ->). done.
  - destruct HM as ([-> | ->] & -> & ->); [done|].
    by rewrite Ascii.eqb_refl.
  - destruct HM as (-> & -> & ->). done.
Qed.

Lemma go_exact {A} (r : Re.regex) (p : option ascii) (s : list ascii)
    (k : option ascii → list ascii → option A) (a : A) :
  Re.go icase r p s k = Some a →
  ∃ p' s', Matches icase r p s p' s' ∧ k p' s' = Some a.
Proof.
  revert p s k. induction r as [|c|q|r1 IH1 r2 IH2|r1 IH1 r2 IH2|r IH| | |];
    intros p s k H; cbn [Re.go] in H; cbn [Matches].
  - eauto.
  - destruct s as [|x s]; [done|].
    destruct (Re.chr_ok icase c x) eqn:E; [|done]. eauto 10.
  - destruct s as [|x s]; [done|].
    destruct (Re.cls_ok icase q x) eqn:E; [|done]. eauto 10.
  - apply IH1 in H as (p1 & s1 & H1 & H).
    apply IH2 in H as (p2 & s2 & H2 & H). eauto 10.
  - destruct (Re.go icase r1 p s k) eqn:E.
    + injection H as ->. apply IH1 in E as (p' & s' & ? & ?). eauto.
    + apply IH2 in H as (p' & s' & ? & ?). eauto.
  - revert H. generalize (length s) at 1. intros fuel.
    revert p s. induction fuel as [|fuel IHfuel]; intros p s H.
    + exists p, s. split; [constructor | done].
    + match type of H with
      | match ?m with _ => _ end = _ => destruct m eqn:E
      end.
      * injection H as ->. apply IH in E as (p1 & s1 & H1 & E).
        destruct (length s1 <? length s)%nat eqn:Hlt; [|done].
        apply Nat.ltb_lt in Hlt.
        apply IHfuel in E as (p2 & s2 & H2 & E).
        exists p2, s2. split; [|done]. by econstructor.
      * exists p, s. split; [constructor | done].
  - destruct p; [done|]. eauto 10.
  - destruct s as [|c [|c' s]]; [eauto 10| |done].
    destruct (Ascii.eqb c Py.newline) eqn:E; [|done].
    apply Ascii.eqb_eq in E as ->. eauto 10.
  - destruct (xorb _ _) eqn:E; [|done]. eauto 10.
Qed.

(** A pattern has a match at the start of a text exactly when there is a
    way to match it. *)
Lemma match_at_exists (r : Re.regex) (s : list ascii) :
  is_Some (Re.match_at icase r None s) ↔
  ∃ p' s', Matches icase r None s p' s'.
Proof.
  unfold Re.match_at. split.
  - destruct (Re.go icase r None s (λ _ rest, Some rest)) as [rest|] eqn:E;
      [|by intros [? ?]].
    intros _. apply go_exact in E as (p' & s' & H & _). eauto.
  - intros (p' & s' & H).
    destruct (go_complete r None s p' s' (λ _ rest, Some rest) H) as [a ->];
      eauto.
Qed.

End EngineExact.

Section Runs.
Import Tables.
Context (icase : bool).

Lemma Matches_suffix (r : Re.regex) (p : option ascii) (s : list ascii)
    (p' : option ascii) (s' : list ascii) :
  Matches icase r p s p' s' → ∃ w, s = w ++ s'.
Proof.
  revert p s p' s'.
  induction r as [|c|q|r1 IH1 r2 IH2|r1 IH1 r2 IH2|r IH| | |];
    intros p s p' s' HM; cbn [Matches] in HM.
  - destruct HM as [_ ->]. by exists [].
  - destruct HM as (x & -> & _). by exists [x].
  - destruct HM as (x & -> & _). by exists [x].
  - destruct HM as (p1 & s1 & [w1 ->]%IH1 & [w2 ->]%IH2).
    exists (w1 ++ w2). by rewrite <- app_assoc.
  - destruct HM as [H | H]; eauto.
  - induction HM as [p s|p s p1 s1 p2 s2 [w1 ->]%IH _ _ [w2 ->]].
    + by exists [].
    + exists (w1 ++ w2). by rewrite <- app_assoc.
  - destruct HM as (_ & _ & ->). by exists [].
  - destruct HM as (_ & _ & ->). by exists [].
  - destruct HM as (_ & _ & ->). by exists [].
Qed.

(** A repetition consumes pieces that its body can consume. *)
Lemma star_of_inv (R : option ascii → list ascii → option ascii →
                       list ascii → Prop)
    (Q : list ascii → Prop) (p : option ascii) (s : list ascii)
    (p' : option ascii) (s' : list ascii) :
  (∀ p s p' s', R p s p' s' → ∃ w, s = w ++ s' ∧ Q w) →
  star_of R p s p' s' → ∃ ws, s = concat ws ++ s' ∧ Forall Q ws.
Proof.
  intros HR. induction 1 as [p s|p s p1 s1 p2 s2 H1 _ _ (ws & -> & Hws)].
  - by exists [].
  - apply HR in H1 as (w & -> & Hw). exists (w :: ws).
    split; [by rewrite concat_cons, <- app_assoc | by constructor].
Qed.

Lemma star_of_intro (R : option ascii → list ascii → option ascii →
                         list ascii → Prop)
    (Q : list ascii → Prop) (ws : list (list ascii)) (p : option ascii)
    (s' : list ascii) :
  (∀ w p s', Q w → w ≠ [] ∧ ∃ p', R p (w ++ s') p' s') →
  Forall Q ws → ∃ p', star_of R p (concat ws ++ s') p' s'.
Proof.
  intros HR Hws. revert p. induction Hws as [|w ws Hw _ IH]; intros p.
  - exists p. constructor.
  - destruct (HR w p (concat ws ++ s') Hw) as (Hne & p1 & H1).
    destruct (IH p1) as [p' H']. exists p'.
    rewrite concat_cons, <- app_assoc. econstructor; [exact H1| |exact H'].
    rewrite (length_app w). destruct w; [done|]. simpl. lia.
Qed.

Lemma star_cls_inv (q : ascii → bool) (p : option ascii) (s : list ascii)
    (p' : option ascii) (s' : list ascii) :
  star_of (Matches icase (Re.Cls q)) p s p' s' →
  ∃ w, s = w ++ s' ∧ Forall (λ x, Re.cls_ok icase q x = true) w.
Proof.
  intros H.
  apply (star_of_inv _ (λ w, ∃ x, w = [x] ∧ Re.cls_ok icase q x = true))
    in H as (ws & -> & Hws).
  - exists (concat ws). split; [done|].
    induction Hws as [|w ws (x & -> & Hx) _ IH]; [done|].
    rewrite concat_cons. by constructor.
  - intros p0 s0 p0' s0' (x & -> & _ & Hx). exists [x]. eauto.
Qed.

Lemma star_cls_intro (q : ascii → bool) (w : list ascii) (p : option ascii)
    (s' : list ascii) :
  Forall (λ x, Re.cls_ok icase q x = true) w →
  ∃ p', star_of (Matches icase (Re.Cls q)) p (w ++ s') p' s'.
Proof.
  intros Hw. revert p. induction Hw as [|x w Hx _ IH]; intros p.
  - exists p. constructor.
  - destruct (IH (Some x)) as [p' H']. exists p'.
    econstructor; [|  |exact H'].
    + cbn [Matches]. exists x. eauto.
    + simpl. lia.
Qed.

Lemma plus_cls_inv (q : ascii → bool) (p : option ascii) (s : list ascii)
    (p' : option ascii) (s' : list ascii) :
  Matches icase (Re.Plus (Re.Cls q)) p s p' s' →
  ∃ w, s = w ++ s' ∧ w ≠ [] ∧
       Forall (λ x, Re.cls_ok icase q x = true) w.
Proof.
  unfold Re.Plus. cbn [Matches].
  intros (p1 & s1 & (x & -> & _ & Hx) & (w & -> & Hw)%star_cls_inv).
  exists (x :: w). split; [done|]. split; [done|]. by constructor.
Qed.

Lemma plus_cls_intro (q : ascii → bool) (w : list ascii) (p : option ascii)
    (s' : list ascii) :
  w ≠ [] → Forall (λ x, Re.cls_ok icase q x = true) w →
  ∃ p', Matches icase (Re.Plus (Re.Cls q)) p (w ++ s') p' s'.
Proof.
  intros Hne Hw. destruct Hw as [|x w Hx Hw]; [done|].
  destruct (star_cls_intro q w (Some x) s' Hw) as [p' H'].
  exists p'. unfold Re.Plus. cbn [Matches].
  exists (Some x), (w ++ s'). split; [|exact H']. exists x. eauto.
Qed.

Lemma rep_cls_inv (n : nat) (q : ascii → bool) (p : option ascii)
    (s : list ascii) (p' : option ascii) (s' : list ascii) :
  Matches icase (Re.Rep n (Re.Cls q)) p s p' s' →
  ∃ w, s = w ++ s' ∧ length w = n ∧
       Forall (λ x, Re.cls_ok icase q x = true) w.
Proof.
  revert p s. induction n as [|n IH]; intros p s; cbn [Re.Rep Matches].
  - intros [_ ->]. by exists [].
  - intros (p1 & s1 & (x & -> & _ & Hx) & (w & -> & <- & Hw)%IH).
    exists (x :: w). split; [done|]. split; [done|]. by constructor.
Qed.

Lemma rep_cls_intro (q : ascii → bool) (w : list ascii) (p : option ascii)
    (s' : list ascii) :
  Forall (λ x, Re.cls_ok icase q x = true) w →
  ∃ p', Matches icase (Re.Rep (length w) (Re.Cls q)) p (w ++ s') p' s'.
Proof.
  intros Hw. revert p. induction Hw as [|x w Hx _ IH]; intros p.
  - exists p. by cbn.
  - destruct (IH (Some x)) as [p' H']. exists p'.
    cbn [length Re.Rep Matches]. exists (Some x), (w ++ s').
    split; [|exact H']. exists x. eauto.
Qed.

End Runs.

Lemma last_after {A} (p q : option A) (y : A) (w : list A) :
  from_option Some p (last (y :: w)) = from_option Some q (last (y :: w)).
Proof.
  destruct (last (y :: w)) as [z|] eqn:E; [done|].
  by apply last_None in E.
Qed.

Section Literals.
Import Tables.
Context (icase : bool).

Lemma chrs_matches (cs : list ascii) (p : option ascii) (s : list ascii)
    (p' : option ascii) (s' : list ascii) :
  Matches icase (Re.seqs (Re.Chr <$> cs)) p s p' s' ↔
  ∃ w, s = w ++ s' ∧ Forall2 (λ c x, Re.chr_ok icase c x = true) cs w ∧
       p' = from_option Some p (last w).
Proof.
  revert p s. induction cs as [|c cs IH]; intros p s.
  - cbn. split.
    + intros [-> ->]. exists []. by repeat split.
    + intros (w & -> & ->%Forall2_nil_inv_l & ->). done.
  - destruct cs as [|c' cs].
    + cbn [fmap list_fmap Re.seqs Matches]. split.
      * intros (x & -> & -> & Hx). exists [x]. repeat split. by repeat constructor.
      * intros (w & -> & (x & w' & Hx & ->%Forall2_nil_inv_l & ->)%Forall2_cons_inv_l & ->).
        exists x. by cbn.
    + change (Re.seqs (Re.Chr <$> c :: c' :: cs))
        with (Re.Seq (Re.Chr c) (Re.seqs (Re.Chr <$> c' :: cs))).
      cbn [Matches]. split.
      * intros (p1 & s1 & (x & -> & -> & Hx) & (w & -> & Hw & ->)%IH).
        exists (x :: w). split; [done|]. split; [by constructor|].
        apply Forall2_cons_inv_l in Hw as (y & w' & _ & _ & ->).
        rewrite last_cons_cons. by apply last_after.
      * intros (w & -> & (x & w' & Hx & Hw & ->)%Forall2_cons_inv_l & ->).
        exists (Some x), (w' ++ s'). split; [exists x; done|].
        apply IH. exists w'. split; [done|]. split; [done|].
        apply Forall2_cons_inv_l in Hw as (y & w'' & _ & _ & ->).
        rewrite last_cons_cons. symmetry. by apply last_after.
Qed.

End Literals.

Lemma lit_matches_icase (lit : string) (p : option ascii) (s : list ascii)
    (p' : option ascii) (s' : list ascii) :
  Tables.Matches true (Re.Lit lit) p s p' s' ↔
  ∃ w, s = w ++ s' ∧
       Py.to_lower <$> w = Py.to_lower <$> Py.chars lit ∧
       p' = from_option Some p (last w).
Proof.
  unfold Re.Lit. rewrite chrs_matches.
  assert (H : ∀ cs w,
             Forall2 (λ c x, Re.chr_ok true c x = true) cs w ↔
             Py.to_lower <$> w = Py.to_lower <$> cs).
  { induction cs as [|c cs IH]; intros w.
    - split; [by intros ->%Forall2_nil_inv_l|].
      destruct w; [constructor | done].
    - split.
      + intros (x & w' & Hx & Hw & ->)%Forall2_cons_inv_l.
        apply Ascii.eqb_eq in Hx. rewrite !fmap_cons, Hx. f_equal.
        by apply IH.
      + destruct w as [|x w]; [done|]. rewrite !fmap_cons.
        intros [= Hx Hw]. constructor; [|by apply IH].
        unfold Re.chr_ok. rewrite Hx. apply Ascii.eqb_refl. }
  by setoid_rewrite H.
Qed.

Lemma lower_letter_is_word (x : ascii) :
  Py.is_lower (Py.to_lower x) = true → Py.is_word x = true.
Proof. by destruct x as [[] [] [] [] [] [] [] []]. Qed.

Lemma dot_any_case (x : ascii) :
  x ≠ Py.newline → Re.cls_ok true Re.dot x = true.
Proof.
  intros Hx. unfold Re.cls_ok, Re.dot.
  by rewrite (proj2 (Ascii.eqb_neq _ _) Hx).
Qed.

Section Patterns.
Import Tables.

Lemma eol_inside (s s' : list ascii) (w : list ascii) :
  Py.newline ∉ w ++ s' → s' = [] ∨ s' = [Py.newline] → s' = [].
Proof.
  intros Hnl [-> | ->]; [done|]. exfalso. apply Hnl.
  apply elem_of_app. right. left.
Qed.

Lemma all_caps_pattern_matches (line : string) :
  Py.newline ∉ Py.chars line →
  (∃ p' s', Matches false CvVetter2.all_caps_pattern None (Py.chars line)
              p' s') ↔
  caps_shape line.
Proof.
  intros Hnl. unfold caps_shape, CvVetter2.all_caps_pattern, Re.RepMin.
  cbn [Re.seqs Matches]. split.
  - intros (p' & s' & p1 & s1 & (_ & _ & ->) & p2 & s2
            & (p3 & s3 & (w1 & E & Hlen & Hw1)%rep_cls_inv
               & (w2 & E2 & Hw2)%star_cls_inv)
            & Hend & _ & _).
    subst s3. rewrite E in Hnl |- *.
    apply (eol_inside s2 s2 (w1 ++ w2)) in Hend;
      [|by rewrite <- app_assoc].
    subst s2. rewrite !app_nil_r, length_app. split; [lia|].
    by apply Forall_app.
  - intros [Hlen Hall].
    rewrite <- (take_drop 5 (Py.chars line)) in Hall |- *.
    apply Forall_app in Hall as [H1 H2].
    destruct (rep_cls_intro false _ _ None (drop 5 (Py.chars line) ++ []) H1)
      as [p1 HM1].
    rewrite length_take, Nat.min_l in HM1 by lia.
    destruct (star_cls_intro false _ _ p1 [] H2) as [p2 HM2].
    exists p2, []. exists None, (take 5 (Py.chars line) ++ drop 5 (Py.chars line)).
    split; [done|]. exists p2, []. split; [|by auto].
    exists p1, (drop 5 (Py.chars line) ++ []).
    rewrite app_nil_r in *. done.
Qed.

End Patterns.

Section NamePatterns.
Import Tables.

(** What [[A-Z][a-z]+] consumes is a capitalized word. *)
Lemma name_word_matches (p : option ascii) (s : list ascii)
    (p' : option ascii) (s' : list ascii) :
  Matches false (Re.Seq (Re.Cls Re.upper_az) (Re.Plus (Re.Cls Re.lower_az)))
          p s p' s' →
  ∃ w, s = w ++ s' ∧ name_word w.
Proof.
  cbn [Matches].
  intros (p1 & s1 & (c & -> & _ & Hc) & (cs & -> & Hne & Hcs)%plus_cls_inv).
  exists (c :: cs). split; [done|]. by exists c, cs.
Qed.

Lemma name_word_intro (w : list ascii) (p : option ascii) (s' : list ascii) :
  name_word w →
  ∃ p', Matches false
          (Re.Seq (Re.Cls Re.upper_az) (Re.Plus (Re.Cls Re.lower_az)))
          p (w ++ s') p' s'.
Proof.
  intros (c & cs & -> & Hc & Hne & Hcs).
  destruct (plus_cls_intro false Re.lower_az cs (Some c) s' Hne Hcs)
    as [p' H'].
  exists p'. cbn [Matches]. exists (Some c), (cs ++ s').
  split; [|exact H']. exists c. done.
Qed.

Lemma spaced_word_matches (p : option ascii) (s : list ascii)
    (p' : option ascii) (s' : list ascii) :
  Matches false
    (Re.Seq (Re.Cls Re.space)
       (Re.Seq (Re.Cls Re.upper_az) (Re.Plus (Re.Cls Re.lower_az))))
    p s p' s' →
  ∃ w, s = w ++ s' ∧ spaced_word w.
Proof.
  intros (p1 & s1 & (sp & -> & _ & Hsp) & HM).
  apply name_word_matches in HM as (w & -> & Hw).
  exists (sp :: w). split; [done|]. by exists sp, w.
Qed.

Lemma title_case_pattern_matches (line : string) :
  Py.newline ∉ Py.chars line →
  (∃ p' s', Matches false CvVetter2.title_case_pattern None (Py.chars line)
              p' s') ↔
  title_shape line.
Proof.
  intros Hnl. unfold title_shape, CvVetter2.title_case_pattern.
  change (Re.seqs [Re.Bol; Re.Cls Re.upper_az; Re.Plus (Re.Cls Re.lower_az);
                   Re.Star (Re.seqs [Re.Cls Re.space; Re.Cls Re.upper_az;
                                     Re.Plus (Re.Cls Re.lower_az)]);
                   Re.Eol])
    with (Re.Seq Re.Bol
            (Re.Seq (Re.Cls Re.upper_az)
               (Re.Seq (Re.Plus (Re.Cls Re.lower_az))
                  (Re.Seq
                     (Re.Star
                        (Re.Seq (Re.Cls Re.space)
                           (Re.Seq (Re.Cls Re.upper_az)
                              (Re.Plus (Re.Cls Re.lower_az)))))
                     Re.Eol)))).
  split.
  - intros (p' & s' & HM). cbn [Matches] in HM.
    destruct HM as (p1 & s1 & (_ & _ & ->) & p2 & s2 & (c & E & _ & Hc)
                    & p3 & s3 & (cs & -> & Hne & Hcs)%plus_cls_inv
                    & p4 & s4 & Hstar & Hend & _ & _).
    apply (star_of_inv _ spaced_word _ _ _ _ spaced_word_matches) in Hstar
      as (ws & -> & Hws).
    rewrite E in Hnl |- *.
    apply (eol_inside s4 s4 (c :: cs ++ concat ws)) in Hend.
    + subst s4. exists (c :: cs), ws. rewrite app_nil_r.
      split; [done|]. split; [by exists c, cs | done].
    + by rewrite <- app_comm_cons, <- app_assoc.
  - intros (first & others & E & Hfirst & Hothers). rewrite E.
    destruct Hfirst as (c & cs & -> & Hc & Hne & Hcs).
    destruct (plus_cls_intro false Re.lower_az cs (Some c)
                (concat others) Hne Hcs) as [p3 Hplus].
    destruct (star_of_intro
                (Matches false
                   (Re.Seq (Re.Cls Re.space)
                      (Re.Seq (Re.Cls Re.upper_az)
                         (Re.Plus (Re.Cls Re.lower_az)))))
                spaced_word others p3 []) as [p4 Hstar].
    { intros w p s' (sp & w' & -> & Hsp & Hw'). split; [done|].
      destruct (name_word_intro w' (Some sp) s' Hw') as [p' H'].
      exists p'. cbn [Matches]. exists (Some sp), (w' ++ s').
      split; [exists sp; done | exact H']. }
    { exact Hothers. }
    rewrite app_nil_r in Hstar.
    exists p4, []. cbn [Matches].
    exists None, ((c :: cs) ++ concat others). split; [done|].
    exists (Some c), (cs ++ concat others). split; [exists c; done|].
    exists p3, (concat others). split; [exact Hplus|].
    exists p4, []. split; [exact Hstar | by auto].
Qed.

Lemma label_pattern_matches (line : string) :
  Py.newline ∉ Py.chars line →
  (∃ p' s', Matches true CvVetter2.label_pattern None (Py.chars line)
              p' s') ↔
  label_shape line.
Proof.
  intros Hnl. unfold label_shape, CvVetter2.label_pattern.
  change (Re.seqs [Re.WordB; Re.Alt (Re.Lit "name") (Re.Lit "about");
                   Re.WordB;
                   Re.Star (Re.Cls (Re.union Re.space
                                      (CvVetter2.any_of ":")));
                   Re.Plus (Re.Cls Re.dot); Re.Eol])
    with (Re.Seq Re.WordB
            (Re.Seq (Re.Alt (Re.Lit "name") (Re.Lit "about"))
               (Re.Seq Re.WordB
                  (Re.Seq
                     (Re.Star (Re.Cls (Re.union Re.space
                                         (CvVetter2.any_of ":"))))
                     (Re.Seq (Re.Plus (Re.Cls Re.dot)) Re.Eol))))).
  split.
  - intros (p' & s' & HM). cbn [Matches] in HM.
    destruct HM as (p1 & s1 & (_ & _ & ->) & p2 & s2 & Hlit
                    & p3 & s3 & (Hb & -> & ->)
                    & p4 & s4 & (seps & E1 & _)%star_cls_inv
                    & p5 & s5 & (rest & E2 & Hne & _)%plus_cls_inv
                    & Hend & _ & _).
    assert (Hlabel : ∃ label,
               Py.chars line = label ++ s2 ∧
               (Py.to_lower <$> label = Py.chars "name" ∨
                Py.to_lower <$> label = Py.chars "about") ∧
               Re.word_at p2 = true).
    { destruct Hlit as [(w & E & Hw & ->)%lit_matches_icase
                       | (w & E & Hw & ->)%lit_matches_icase];
        exists w; (split; [exact E|]); (split; [auto|]).
      - destruct w as [|x1 [|x2 [|x3 [|x4 [|x5 w]]]]]; try done.
        injection Hw as _ _ _ H4. cbn.
        apply lower_letter_is_word. by rewrite H4.
      - destruct w as [|x1 [|x2 [|x3 [|x4 [|x5 [|x6 w]]]]]]; try done.
        injection Hw as _ _ _ _ H5. cbn.
        apply lower_letter_is_word. by rewrite H5. }
    destruct Hlabel as (label & E & Hlabel & Hword).
    exists label, s2. split; [exact E|]. split; [exact Hlabel|].
    rewrite Hword in Hb. cbn [xorb] in Hb.
    split; [|by apply negb_true_iff in Hb].
    subst s2 s4. destruct seps, rest; done.
  - intros (label & tail & E & Hlabel & Hne & Htail).
    assert (Hall : Forall (λ x, Re.cls_ok true Re.dot x = true) tail).
    { apply Forall_forall. intros x Hx. apply dot_any_case.
      intros ->. apply Hnl. rewrite E. apply elem_of_app. by right. }
    destruct (plus_cls_intro true Re.dot tail
                (from_option Some None (last label)) [] Hne Hall)
      as [p5 Hplus].
    rewrite app_nil_r in Hplus.
    assert (Hfirst : Re.word_at (head (label ++ tail)) = true
                     ∧ Re.word_at (from_option Some None (last label))
                       = true).
    { destruct Hlabel as [Hl | Hl].
      - destruct label as [|x1 [|x2 [|x3 [|x4 [|x5 w]]]]]; try done.
        injection Hl as H1 _ _ H4. cbn.
        split; apply lower_letter_is_word; [by rewrite H1 | by rewrite H4].
      - destruct label as [|x1 [|x2 [|x3 [|x4 [|x5 [|x6 w]]]]]]; try done.
        injection Hl as H1 _ _ _ H5. cbn.
        split; apply lower_letter_is_word; [by rewrite H1 | by rewrite H5]. }
    destruct Hfirst as [Hfirst Hlast].
    exists p5, []. rewrite E. cbn [Matches].
    exists None, (label ++ tail). split; [by rewrite Hfirst|].
    exists (from_option Some None (last label)), tail. split.
    { destruct Hlabel as [Hl | Hl]; [left | right];
        apply lit_matches_icase; exists label; done. }
    exists (from_option Some None (last label)), tail.
    split; [by rewrite Hlast, Htail|].
    exists (from_option Some None (last label)), tail.
    split; [constructor|].
    exists p5, []. split; [exact Hplus | by auto].
Qed.


End NamePatterns.

(** * Names *)

Section Names.
Import Tables.

Lemma chars_of_chars (l : list ascii) : Py.chars (Py.of_chars l) = l.
Proof. apply String.list_ascii_of_string_of_list_ascii. Qed.

Lemma split_chars_no_sep (sep : ascii) (l cur piece : list ascii) :
  sep ∉ cur → piece ∈ Py.split_chars sep cur l → sep ∉ piece.
Proof.
  revert cur. induction l as [|c l IH]; intros cur Hcur; cbn [Py.split_chars].
  - intros ->%list_elem_of_singleton. by rewrite elem_of_reverse.
  - destruct (Ascii.eqb c sep) eqn:E.
    + intros [-> | Hin]%elem_of_cons.
      * by rewrite elem_of_reverse.
      * apply (IH []); [apply not_elem_of_nil | done].
    + apply IH. apply Ascii.eqb_neq in E.
      intros [-> | Hin]%elem_of_cons; [done | by apply Hcur].
Qed.

Lemma lstrip_chars_elem (l : list ascii) (x : ascii) :
  x ∈ Py.lstrip_chars l → x ∈ l.
Proof.
  induction l as [|c l IH]; cbn [Py.lstrip_chars]; [done|].
  destruct (Py.is_space c); [|done].
  intros H. right. by apply IH.
Qed.

Lemma strip_chars_elem (l : list ascii) (x : ascii) :
  x ∈ Py.strip_chars l → x ∈ l.
Proof.
  unfold Py.strip_chars. rewrite elem_of_reverse.
  intros H%lstrip_chars_elem. rewrite elem_of_reverse in H.
  by apply lstrip_chars_elem.
Qed.

(** The lines of a text, and the lines once stripped, hold no newline. *)
Lemma split_lines_no_newline (text line : string) :
  line ∈ Py.split_on Py.newline text →
  (Py.newline ∉ Py.chars line) ∧ (Py.newline ∉ Py.chars (Py.strip line)).
Proof.
  unfold Py.split_on. intros (piece & -> & Hpiece)%list_elem_of_fmap.
  apply split_chars_no_sep in Hpiece; [|apply not_elem_of_nil].
  unfold Py.strip. rewrite !chars_of_chars. split; [done|].
  intros H%strip_chars_elem. by apply Hpiece.
Qed.

(** What a pattern that ends with [$] matches in a line is the line. *)
Lemma re_match_whole (icase : bool) (r : Re.regex) (line group : string) :
  ends_at_eol r = true → Py.newline ∉ Py.chars line →
  Re.re_match icase r line = Some group → group = line.
Proof.
  intros Hend Hnl. unfold Re.re_match.
  intros (m & Hm & ->)%fmap_Some.
  apply match_at_whole in Hm as ->; [|done..].
  apply String.string_of_list_ascii_of_string.
Qed.

Lemma name_of_line_candidate (patterns : list (bool * Re.regex))
    (line : string) :
  Forall (λ p, ends_at_eol p.2 = true) patterns →
  Py.newline ∉ Py.chars line →
  CvVetter2.name_of_line patterns line
  = if name_candidate patterns line then Some (Py.title line) else None.
Proof.
  intros Hends Hnl. unfold name_candidate.
  induction Hends as [|[icase r] patterns Hend _ IH];
    cbn [CvVetter2.name_of_line matches_any existsb]; [done|].
  fold (matches_any patterns line).
  destruct (Re.re_match icase r line) as [group|] eqn:E.
  - apply re_match_whole in E as ->; [|done..].
    rewrite bool_decide_eq_true_2 by eauto. cbn [orb].
    destruct (Py.len (Py.split line) <=? 4); [done|].
    rewrite IH. by rewrite andb_false_r.
  - rewrite bool_decide_eq_false_2 by (by intros [? ?]). cbn [orb].
    apply IH.
Qed.

Lemma name_of_lines_find (patterns : list (bool * Re.regex))
    (lines : list string) :
  Forall (λ p, ends_at_eol p.2 = true) patterns →
  Forall (λ line, Py.newline ∉ Py.chars (Py.strip line)) lines →
  CvVetter2.name_of_lines patterns lines
  = Py.title <$> find (name_candidate patterns) (Py.strip <$> lines).
Proof.
  intros Hends Hlines.
  induction Hlines as [|line lines Hnl _ IH];
    cbn [CvVetter2.name_of_lines]; [done|].
  rewrite fmap_cons. cbn [find].
  rewrite name_of_line_candidate by done.
  destruct (name_candidate patterns (Py.strip line)); [done | apply IH].
Qed.

Lemma matches_any_perm (ps ps' : list (bool * Re.regex)) (line : string) :
  ps ≡ₚ ps' → matches_any ps line = matches_any ps' line.
Proof.
  intros Hperm. unfold matches_any.
  apply eq_true_iff_eq. rewrite !existsb_exists.
  split; intros (x & Hin & Hx); exists x; split; try done.
  - by apply (Permutation_in _ Hperm).
  - by apply (Permutation_in _ (Permutation_sym Hperm)).
Qed.

Lemma find_ext {A} (f g : A → bool) (l : list A) :
  (∀ x, f x = g x) → find f l = find g l.
Proof.
  intros Hfg. induction l as [|x l IH]; [done|].
  cbn [find]. rewrite Hfg, IH. done.
Qed.

Lemma name_patterns_end_at_eol :
  Forall (λ p, ends_at_eol p.2 = true) CvVetter2.name_patterns.
Proof. repeat constructor. Qed.

Lemma first_upper_line_find (lines : list string) :
  TestPy.first_upper_line lines = Py.strip <$> find upper_candidate lines.
Proof.
  induction lines as [|line lines IH]; [done|].
  cbn [TestPy.first_upper_line find]. fold (upper_candidate line).
  destruct (upper_candidate line); [done | apply IH].
Qed.

Lemma re_match_exists (icase : bool) (r : Re.regex) (line : string) :
  is_Some (Re.re_match icase r line) ↔
  ∃ p' s', Matches icase r None (Py.chars line) p' s'.
Proof.
  unfold Re.re_match. rewrite fmap_is_Some. apply match_at_exists.
Qed.

Lemma matches_any_shapes (line : string) :
  Py.newline ∉ Py.chars line →
  matches_any CvVetter2.name_patterns line = true ↔
  title_shape line ∨ caps_shape line ∨ label_shape line.
Proof.
  intros Hnl. unfold matches_any, CvVetter2.name_patterns.
  cbn [existsb]. rewrite !orb_true_iff, !bool_decide_eq_true.
  rewrite !re_match_exists.
  rewrite (title_case_pattern_matches line Hnl),
          (all_caps_pattern_matches line Hnl),
          (label_pattern_matches line Hnl).
  split; [intros [?|[?|[?|?]]] | intros [?|[?|?]]]; auto; done.
Qed.

Lemma to_lower_idemp (c : ascii) : Py.to_lower (Py.to_lower c) = Py.to_lower c.
Proof.
  destruct c as [[] [] [] [] [] [] [] []]; reflexivity.
Qed.

Lemma to_lower_upper (c : ascii) : Py.to_lower (Py.to_upper c) = Py.to_lower c.
Proof. by destruct c as [[] [] [] [] [] [] [] []]. Qed.

Lemma title_chars_lower (b : bool) (l : list ascii) :
  Py.to_lower <$> Py.title_chars b l = Py.to_lower <$> l.
Proof.
  revert b. induction l as [|c l IH]; intros b; [done|].
  cbn [Py.title_chars]. rewrite !fmap_cons, IH. f_equal.
  destruct b; [apply to_lower_idemp | apply to_lower_upper].
Qed.

Lemma label_kept (line : string) :
  label_shape line → keeps_label (Py.title line).
Proof.
  intros (label & tail & E & Hlabel & _).
  unfold keeps_label, Py.title. rewrite chars_of_chars.
  exists (take (length label) (Py.title_chars false (Py.chars line))),
         (drop (length label) (Py.title_chars false (Py.chars line))).
  split; [by rewrite take_drop|].
  assert (H : Py.to_lower
                <$> take (length label) (Py.title_chars false (Py.chars line))
              = Py.to_lower <$> label).
  { rewrite fmap_take, title_chars_lower, E, fmap_app.
    rewrite <- (length_fmap Py.to_lower label). by rewrite take_app_length. }
  by rewrite H.
Qed.

(** C7: for an ASCII text, cv_vetter2.py looks at the first 20 lines,
    stripped, and returns, title-cased, the first of them that has at most
    four words and one of three shapes: capitalized words after single
    white space characters, five or more capitals and white space
    characters, or the label [name] or [about] followed by text, in
    whatever order the patterns are tried; [Not Found] when there is none.
    The name taken from a labelled line is the whole line: it starts with
    the label, and the label counts among the four words.  test.py looks at
    the first 10 lines and returns, stripped and as it is written, the first
    one that is upper-case and has at most three words, and [Name not
    found] when there is none. *)
Theorem name_extraction_keeps_label (text : string) :
  Py.isascii text = true →
  let lines := Py.split_on Py.newline text in
  CvVetter2.name (CvVetter2.extract_personal_details text)
  = from_option Py.title "Not Found"
      (find (name_candidate CvVetter2.name_patterns)
            (Py.strip <$> take 20 lines)) ∧
  (∀ line,
      line ∈ Py.strip <$> take 20 lines →
      (name_candidate CvVetter2.name_patterns line = true ↔
       (title_shape line ∨ caps_shape line ∨ label_shape line) ∧
       Py.len (Py.split line) <= 4)) ∧
  (∀ line, label_shape line → keeps_label (Py.title line)) ∧
  (∀ patterns,
      patterns ≡ₚ CvVetter2.name_patterns →
      CvVetter2.name_of_lines patterns (take 20 lines)
      = CvVetter2.name_of_lines CvVetter2.name_patterns (take 20 lines)) ∧
  TestPy.extract_name text
  = from_option Py.strip "Name not found"
      (find upper_candidate (take 10 lines)) ∧
  (TestPy.extract_name text = "Name not found" ∨
   Py.isupper (TestPy.extract_name text) = true).
Proof.
  intros _. cbv zeta.
  assert (Hlines : Forall (λ line, Py.newline ∉ Py.chars (Py.strip line))
                     (take 20 (Py.split_on Py.newline text))).
  { apply Forall_forall. intros line Hin.
    apply split_lines_no_newline with (text := text).
    by apply (subseteq_take 20). }
  split.
  { unfold CvVetter2.extract_personal_details. cbn [CvVetter2.name].
    rewrite name_of_lines_find by (done || apply name_patterns_end_at_eol).
    by destruct (find _ _). }
  split.
  { intros line (raw & -> & Hraw)%list_elem_of_fmap.
    rewrite Forall_forall in Hlines. specialize (Hlines raw Hraw).
    unfold name_candidate.
    rewrite andb_true_iff, (matches_any_shapes _ Hlines), Z.leb_le.
    reflexivity. }
  split; [exact label_kept|].
  split.
  { intros patterns Hperm.
    rewrite !name_of_lines_find; try done;
      [|apply name_patterns_end_at_eol
       |by rewrite Hperm; apply name_patterns_end_at_eol].
    f_equal. apply find_ext. intros line. unfold name_candidate.
    by rewrite (matches_any_perm _ _ _ Hperm). }
  unfold TestPy.extract_name. rewrite first_upper_line_find.
  split; [by destruct (find _ _)|].
  destruct (find upper_candidate _) as [line|] eqn:E; [right|by left].
  apply find_some in E as [_ E]. unfold upper_candidate in E.
  by apply andb_true_iff in E as [E _].
Qed.

Lemma name_extraction_keeps_label_witness :
  Py.isascii "Name: John Doe" = true ∧
  label_shape "Name: John Doe" ∧
  keeps_label (Py.title "Name: John Doe").
Proof.
  assert (Hascii : Py.isascii "Name: John Doe" = true) by reflexivity.
  assert (Hshape : label_shape "Name: John Doe").
  { exists (Py.chars "Name"), (Py.chars ": John Doe").
    split; [reflexivity|]. split; [by left|]. split; [done | reflexivity]. }
  split; [exact Hascii|]. split; [exact Hshape|].
  exact (proj1 (proj2 (proj2
           (name_extraction_keeps_label "Name: John Doe" Hascii)))
           "Name: John Doe" Hshape).
Defined.

(** On the line [Name: John Doe] cv_vetter2.py reports the name [Name:
    John Doe], not [John Doe], and it reports no name for
    [Sample.labelled_name], whose name has four words and whose line has
    five; the label [about] is kept as well, and a line that goes on the
    word of the label, as [named john], is no labelled line.  The two other
    patterns give [John Doe] for [JOHN DOE] and for [John Doe], and nothing
    for four capitals or for a line in lower case.  In test.py the header
    [JOHN DOE] is returned in capitals, and a line in title case is no
    match. *)
Lemma labelled_name_examples :
  CvVetter2.name (CvVetter2.extract_personal_details "Name: John Doe")
  = "Name: John Doe" ∧
  CvVetter2.name (CvVetter2.extract_personal_details Sample.labelled_name)
  = "Not Found" ∧
  CvVetter2.name (CvVetter2.extract_personal_details "about: jane")
  = "About: Jane" ∧
  CvVetter2.name (CvVetter2.extract_personal_details "named john")
  = "Not Found" ∧
  CvVetter2.name (CvVetter2.extract_personal_details Sample.upper_header)
  = "John Doe" ∧
  CvVetter2.name (CvVetter2.extract_personal_details "John Doe")
  = "John Doe" ∧
  CvVetter2.name (CvVetter2.extract_personal_details "ABCD") = "Not Found" ∧
  CvVetter2.name (CvVetter2.extract_personal_details "john doe")
  = "Not Found" ∧
  TestPy.extract_name Sample.upper_header = "JOHN DOE" ∧
  TestPy.extract_name "John Doe" = "Name not found".
Proof. repeat split; vm_compute; reflexivity. Qed.

End Names.

(** * Regular expressions: what a match is *)

Section EngineSound.
Import Tables.
Context (icase : bool).

(** A successful match has consumed a text of the language of the pattern
    and called its continuation on what follows it. *)
Lemma go_sound {A} (r : Re.regex) (prev : option ascii) (s : list ascii)
    (k : option ascii → list ascii → option A) (a : A) :
  Re.go icase r prev s k = Some a →
  ∃ w prev' s', s = w ++ s' ∧ Lang icase r w ∧ k prev' s' = Some a.
Proof.
  revert prev s k. induction r as [|c|p|r1 IH1 r2 IH2|r1 IH1 r2 IH2|r IH| | |];
    intros prev s k H; cbn [Re.go] in H.
  - exists [], prev, s. eauto using Lang.
  - destruct s as [|x s]; [done|].
    destruct (Re.chr_ok icase c x) eqn:E; [|done].
    exists [x], (Some x), s. eauto using Lang.
  - destruct s as [|x s]; [done|].
    destruct (Re.cls_ok icase p x) eqn:E; [|done].
    exists [x], (Some x), s. eauto using Lang.
  - apply IH1 in H as (w1 & p1 & s1 & -> & Hw1 & H).
    apply IH2 in H as (w2 & p2 & s2 & -> & Hw2 & H).
    exists (w1 ++ w2), p2, s2. rewrite <- app_assoc. eauto using Lang.
  - destruct (Re.go icase r1 prev s k) eqn:E.
    + injection H as ->. apply IH1 in E as (w & p' & s' & ? & ? & ?).
      exists w, p', s'. eauto using Lang.
    + apply IH2 in H as (w & p' & s' & ? & ? & ?).
      exists w, p', s'. eauto using Lang.
  - revert H. generalize (length s) at 1. intros fuel.
    revert prev s. induction fuel as [|fuel IHfuel]; intros prev s H.
    + exists [], prev, s. eauto using Lang.
    + match type of H with
      | match ?m with _ => _ end = _ => destruct m eqn:E
      end.
      * injection H as ->. apply IH in E as (w1 & p1 & s1 & -> & Hw1 & E).
        destruct (length s1 <? length (w1 ++ s1))%nat; [|done].
        apply IHfuel in E as (w2 & p2 & s2 & -> & Hw2 & E).
        exists (w1 ++ w2), p2, s2. rewrite <- app_assoc. eauto using Lang.
      * exists [], prev, s. eauto using Lang.
  - destruct prev; [done|]. exists [], None, s. eauto using Lang.
  - destruct s as [|c [|c' s]]; [| |done].
    + exists [], prev, []. eauto using Lang.
    + destruct (Ascii.eqb c Py.newline); [|done].
      exists [], prev, [c]. eauto using Lang.
  - destruct (xorb _ _); [|done]. exists [], prev, s. eauto using Lang.
Qed.

(** The match at a position is in the language and starts the input. *)
Lemma match_at_sound (r : Re.regex) (prev : option ascii)
    (s m : list ascii) :
  Re.match_at icase r prev s = Some m →
  Lang icase r m ∧ ∃ rest, s = m ++ rest.
Proof.
  unfold Re.match_at.
  destruct (Re.go icase r prev s (λ _ rest, Some rest)) as [rest|] eqn:E;
    [|done].
  intros [= <-].
  apply go_sound in E as (w & p' & s' & -> & Hw & [= <-]).
  rewrite length_app, Nat.add_sub, take_app_length. eauto.
Qed.

(** What [re.search] returns is in the language and a piece of the text. *)
Lemma search_go_sound (r : Re.regex) (prev : option ascii)
    (s m : list ascii) :
  Re.search_go icase r prev s = Some m → Lang icase r m ∧ piece_of m s.
Proof.
  revert prev. induction s as [|c s IH]; intros prev; cbn [Re.search_go].
  - destruct (Re.match_at icase r prev []) as [m'|] eqn:E; [|done].
    intros [= ->]. apply match_at_sound in E as [Hm [rest Hs]].
    split; [done|]. by exists [], rest.
  - destruct (Re.match_at icase r prev (c :: s)) as [m'|] eqn:E.
    + intros [= ->]. apply match_at_sound in E as [Hm [rest Hs]].
      split; [done|]. by exists [], rest.
    + intros (Hm & before & after & ->)%IH.
      split; [done|]. by exists (c :: before), after.
Qed.

(** So is every item of what [re.findall] returns. *)
Lemma findall_go_sound (r : Re.regex) (prev : option ascii) (skip : nat)
    (s m : list ascii) :
  m ∈ Re.findall_go icase r prev skip s → Lang icase r m ∧ piece_of m s.
Proof.
  revert prev skip. induction s as [|c s IH]; intros prev skip;
    cbn [Re.findall_go].
  - destruct (Re.match_at icase r prev []) as [m'|] eqn:E;
      [|by intros ?%elem_of_nil].
    intros ->%list_elem_of_singleton.
    apply match_at_sound in E as [Hm [rest Hs]].
    split; [done|]. by exists [], rest.
  - assert (Htail : ∀ prev' skip',
               m ∈ Re.findall_go icase r prev' skip' s →
               Lang icase r m ∧ piece_of m (c :: s)).
    { intros prev' skip' (Hm & before & after & ->)%IH.
      split; [done|]. by exists (c :: before), after. }
    destruct skip as [|n]; [|apply Htail].
    destruct (Re.match_at icase r prev (c :: s)) as [m'|] eqn:E;
      [|apply Htail].
    intros [-> | Hin]%elem_of_cons; [|by eapply Htail].
    apply match_at_sound in E as [Hm [rest Hs]].
    split; [done|]. by exists [], rest.
Qed.

End EngineSound.

Section Languages.
Import Tables.
Context (icase : bool).

Lemma Lang_empty_inv (r : Re.regex) (w : list ascii) :
  Lang icase r w →
  r = Re.Eps ∨ r = Re.Bol ∨ r = Re.Eol ∨ r = Re.WordB → w = [].
Proof.
  intros H Hr. destruct H; try done; exfalso;
    destruct Hr as [? | [? | [? | ?]]]; discriminate.
Qed.

Lemma Lang_chr_inv (c : ascii) (w : list ascii) :
  Lang icase (Re.Chr c) w → ∃ x, w = [x] ∧ Re.chr_ok icase c x = true.
Proof. inversion 1; eauto. Qed.

Lemma Lang_cls_inv (p : ascii → bool) (w : list ascii) :
  Lang icase (Re.Cls p) w → ∃ x, w = [x] ∧ Re.cls_ok icase p x = true.
Proof. inversion 1; eauto. Qed.

Lemma Lang_seq_inv (r1 r2 : Re.regex) (w : list ascii) :
  Lang icase (Re.Seq r1 r2) w →
  ∃ w1 w2, w = w1 ++ w2 ∧ Lang icase r1 w1 ∧ Lang icase r2 w2.
Proof. inversion 1; eauto. Qed.

Lemma Lang_alt_inv (r1 r2 : Re.regex) (w : list ascii) :
  Lang icase (Re.Alt r1 r2) w → Lang icase r1 w ∨ Lang icase r2 w.
Proof. inversion 1; eauto. Qed.

Lemma Lang_opt_inv (r : Re.regex) (w : list ascii) :
  Lang icase (Re.Opt r) w → w = [] ∨ Lang icase r w.
Proof.
  intros [H | H]%Lang_alt_inv; [by right|]. left.
  eapply Lang_empty_inv; eauto.
Qed.

(** A sequence matches the concatenation of what its items match. *)
Lemma Lang_seqs_inv (rs : list Re.regex) (w : list ascii) :
  Lang icase (Re.seqs rs) w →
  ∃ ws, w = concat ws ∧ Forall2 (Lang icase) rs ws.
Proof.
  revert w. induction rs as [|r rs IH]; intros w H.
  - exists []. split; [|constructor]. eapply Lang_empty_inv; eauto.
  - destruct rs as [|r' rs].
    + exists [w]. split; [simpl; by rewrite app_nil_r|]. by repeat constructor.
    + change (Re.seqs (r :: r' :: rs)) with (Re.Seq r (Re.seqs (r' :: rs)))
        in H.
      apply Lang_seq_inv in H as (w1 & w2 & -> & H1 & H2).
      apply IH in H2 as (ws & -> & Hws).
      exists (w1 :: ws). split; [done|]. by constructor.
Qed.

(** An alternation matches what one of its items matches. *)
Lemma Lang_alts_inv (rs : list Re.regex) (w : list ascii) :
  rs ≠ [] → Lang icase (Re.alts rs) w → ∃ r, r ∈ rs ∧ Lang icase r w.
Proof.
  induction rs as [|r rs IH]; [done|]. intros _ H.
  destruct rs as [|r' rs].
  - exists r. split; [left | done].
  - change (Re.alts (r :: r' :: rs)) with (Re.Alt r (Re.alts (r' :: rs)))
      in H.
    apply Lang_alt_inv in H as [H | H].
    + exists r. split; [left | done].
    + apply IH in H as (r0 & Hin & H0); [|done].
      exists r0. split; [by right | done].
Qed.

(** A literal matches its characters, up to case under [icase]. *)
Lemma Lang_lit_inv (lit : string) (w : list ascii) :
  Lang icase (Re.Lit lit) w →
  Forall2 (λ c x, Re.chr_ok icase c x = true) (Py.chars lit) w.
Proof.
  unfold Re.Lit. intros (ws & -> & Hws)%Lang_seqs_inv.
  revert ws Hws. induction (Py.chars lit) as [|c l IH]; intros ws Hws.
  - rewrite fmap_nil in Hws. apply Forall2_nil_inv_l in Hws as ->.
    constructor.
  - rewrite fmap_cons in Hws.
    apply Forall2_cons_inv_l in Hws as (w1 & ws' & H1 & Hws & ->).
    apply Lang_chr_inv in H1 as (x & -> & Hx).
    cbn [concat app]. constructor; [done | by apply IH].
Qed.

(** A repetition of a class matches characters of the class. *)
Lemma Lang_star_cls_inv (p : ascii → bool) (w : list ascii) :
  Lang icase (Re.Star (Re.Cls p)) w →
  Forall (λ x, Re.cls_ok icase p x = true) w.
Proof.
  intros H. remember (Re.Star (Re.Cls p)) as r eqn:Hr.
  induction H; try discriminate.
  - constructor.
  - injection Hr as ->. apply Forall_app. split; [|by apply IHLang2].
    apply Lang_cls_inv in H as (x & -> & Hx). by repeat constructor.
Qed.

Lemma Lang_plus_cls_inv (p : ascii → bool) (w : list ascii) :
  Lang icase (Re.Plus (Re.Cls p)) w →
  w ≠ [] ∧ Forall (λ x, Re.cls_ok icase p x = true) w.
Proof.
  unfold Re.Plus. intros (w1 & w2 & -> & H1 & H2)%Lang_seq_inv.
  apply Lang_cls_inv in H1 as (x & -> & Hx).
  apply Lang_star_cls_inv in H2. split; [done|]. by constructor.
Qed.

Lemma Lang_rep_cls_inv (n : nat) (p : ascii → bool) (w : list ascii) :
  Lang icase (Re.Rep n (Re.Cls p)) w →
  length w = n ∧ Forall (λ x, Re.cls_ok icase p x = true) w.
Proof.
  revert w. induction n as [|n IH]; intros w H; cbn [Re.Rep] in H.
  - apply Lang_empty_inv in H as ->; [|by left]. by split.
  - apply Lang_seq_inv in H as (w1 & w2 & -> & H1 & H2).
    apply Lang_cls_inv in H1 as (x & -> & Hx).
    apply IH in H2 as [<- H2]. split; [done|]. by constructor.
Qed.

Lemma Lang_repmin_cls_inv (n : nat) (p : ascii → bool) (w : list ascii) :
  Lang icase (Re.RepMin n (Re.Cls p)) w →
  (n <= length w)%nat ∧ Forall (λ x, Re.cls_ok icase p x = true) w.
Proof.
  unfold Re.RepMin. intros (w1 & w2 & -> & H1 & H2)%Lang_seq_inv.
  apply Lang_rep_cls_inv in H1 as [<- H1].
  apply Lang_star_cls_inv in H2.
  rewrite length_app. split; [lia|]. by apply Forall_app.
Qed.

End Languages.

(** Without [re.IGNORECASE] a literal matches itself only. *)
Lemma Lang_lit_exact (lit : string) (w : list ascii) :
  Tables.Lang false (Re.Lit lit) w → w = Py.chars lit.
Proof.
  intros H%Lang_lit_inv. symmetry.
  induction H as [|c x l w Hcx _ IH]; [done|].
  apply Ascii.eqb_eq in Hcx as ->. by rewrite IH.
Qed.

(** With it, it matches the texts that are equal to it in lower case. *)
Lemma Lang_lit_lower (lit : string) (w : list ascii) :
  Tables.Lang true (Re.Lit lit) w →
  Py.to_lower <$> w = Py.to_lower <$> Py.chars lit.
Proof.
  intros H%Lang_lit_inv. symmetry.
  induction H as [|c x l w Hcx _ IH]; [done|].
  apply Ascii.eqb_eq in Hcx. rewrite !fmap_cons. by rewrite Hcx, IH.
Qed.

(** * Characters and pieces of texts *)

Section Pieces.
Import Tables.

Lemma of_chars_chars (t : string) : Py.of_chars (Py.chars t) = t.
Proof. apply String.string_of_list_ascii_of_string. Qed.

Lemma chars_inj (t1 t2 : string) : Py.chars t1 = Py.chars t2 → t1 = t2.
Proof.
  intros H. rewrite <- (of_chars_chars t1), <- (of_chars_chars t2).
  by rewrite H.
Qed.

Lemma prefix_chars_spec (p l : list ascii) :
  Py.prefix_chars p l = true ↔ ∃ rest, l = p ++ rest.
Proof.
  revert l. induction p as [|a p IH]; intros l; cbn [Py.prefix_chars].
  - split; [eauto | done].
  - destruct l as [|b l]; [split; [done | by intros [? ?]]|].
    rewrite andb_true_iff, IH. split.
    + intros [->%Ascii.eqb_eq [rest ->]]. eauto.
    + intros [rest [= -> ->]]. split; [apply Ascii.eqb_refl | eauto].
Qed.

(** [sub in s] holds exactly when [sub] is a piece of [s]. *)
Lemma contains_chars_spec (sub l : list ascii) :
  Py.contains_chars sub l = true ↔ piece_of sub l.
Proof.
  unfold piece_of. induction l as [|c l IH]; cbn [Py.contains_chars].
  - rewrite orb_false_r, prefix_chars_spec. split.
    + intros [rest H]. by exists [], rest.
    + intros (before & after & H). symmetry in H.
      apply app_eq_nil in H as [-> H]. eauto.
  - rewrite orb_true_iff, prefix_chars_spec, IH. split.
    + intros [[rest ->] | (before & after & ->)].
      * by exists [], rest.
      * by exists (c :: before), after.
    + intros (before & after & H). destruct before as [|b before].
      * left. eauto.
      * injection H as -> ->. right. eauto.
Qed.

Lemma contains_spec (sub t : string) :
  Py.contains sub t = true ↔ piece_of (Py.chars sub) (Py.chars t).
Proof. apply contains_chars_spec. Qed.

Lemma piece_of_trans {A} (l1 l2 l3 : list A) :
  piece_of l1 l2 → piece_of l2 l3 → piece_of l1 l3.
Proof.
  intros (b1 & a1 & ->) (b2 & a2 & ->).
  exists (b2 ++ b1), (a1 ++ a2). by rewrite <- !app_assoc.
Qed.

Lemma piece_of_elem {A} (x : A) (l1 l2 : list A) :
  piece_of l1 l2 → x ∈ l1 → x ∈ l2.
Proof. intros (b & a & ->) Hx. set_solver. Qed.

(** What [re.search] and [re.findall] return is in the language of the
    pattern and a piece of the text. *)
Lemma search_sound (icase : bool) (r : Re.regex) (text m : string) :
  Re.search icase r text = Some m →
  Lang icase r (Py.chars m) ∧ piece_of (Py.chars m) (Py.chars text).
Proof.
  unfold Re.search. intros (w & Hw & ->)%fmap_Some.
  rewrite chars_of_chars. by apply search_go_sound in Hw.
Qed.

Lemma findall_sound (icase : bool) (r : Re.regex) (text m : string) :
  m ∈ Re.findall icase r text →
  Lang icase r (Py.chars m) ∧ piece_of (Py.chars m) (Py.chars text).
Proof.
  unfold Re.findall. intros (w & -> & Hw)%list_elem_of_fmap.
  rewrite chars_of_chars. by apply findall_go_sound in Hw.
Qed.

End Pieces.

(** * More on the date tokens *)

Section DateTokens.
Import Tables.

Lemma cls_digit_any_case (x : ascii) :
  Re.cls_ok true Re.digit x = true → Py.is_digit x = true.
Proof. by destruct x as [[] [] [] [] [] [] [] []]. Qed.

(** X1: every date token that cv_vetter.py and the pipeline of
    cv_vetter2.py find in an ASCII text is a piece of the text and is one
    of the twelve month abbreviations, capitalized, or a run of four
    digits; so the word [Present], however it is written in the text, is
    never a token. *)
Theorem date_tokens_shape (text t : string) :
  Py.isascii text = true →
  t ∈ Re.findall false CvVetter.date_pattern text →
  piece_of (Py.chars t) (Py.chars text) ∧
  (t ∈ CvVetter.month_names ∨
   (length (Py.chars t) = 4%nat ∧
    Forall (λ c, Py.is_digit c = true) (Py.chars t))) ∧
  Py.lower t ≠ "present".
Proof.
  intros _ [Hlang Hpiece]%findall_sound.
  assert (Hshape : t ∈ CvVetter.month_names ∨
                   (length (Py.chars t) = 4%nat ∧
                    Forall (λ c, Py.is_digit c = true) (Py.chars t))).
  { unfold CvVetter.date_pattern in Hlang.
    apply Lang_seqs_inv in Hlang as (ws & Hw & Hws).
    apply Forall2_cons_inv_l in Hws as (w1 & ws1 & H1 & Hws & ->).
    apply Forall2_cons_inv_l in Hws as (w2 & ws2 & H2 & Hws & ->).
    apply Forall2_cons_inv_l in Hws as (w3 & ws3 & H3 & Hws & ->).
    apply Forall2_nil_inv_l in Hws as ->.
    apply Lang_empty_inv in H1 as ->; [|auto].
    apply Lang_empty_inv in H3 as ->; [|auto].
    cbn [concat app] in Hw. rewrite app_nil_r in Hw.
    apply Lang_alts_inv in H2 as (r & Hr & H2); [|done].
    apply elem_of_app in Hr as [Hr | Hr].
    - left. apply list_elem_of_fmap in Hr as (name & -> & Hname).
      apply Lang_lit_exact in H2. rewrite <- Hw in H2.
      by apply chars_inj in H2 as ->.
    - right. apply list_elem_of_singleton in Hr as ->.
      apply Lang_rep_cls_inv in H2. by rewrite Hw. }
  split; [done|]. split; [done|].
  destruct Hshape as [Hmonth | [Hlen _]].
  - unfold CvVetter.month_names in Hmonth.
    repeat (apply elem_of_cons in Hmonth as [-> | Hmonth]; [done|]).
    by apply elem_of_nil in Hmonth.
  - intros Hlower. apply (f_equal (λ x, length (Py.chars x))) in Hlower.
    unfold Py.lower in Hlower.
    rewrite chars_of_chars, length_fmap, Hlen in Hlower. done.
Qed.

Lemma date_tokens_shape_witness :
  Py.isascii "Jan 2019 - Present" = true ∧
  "2019" ∈ Re.findall false CvVetter.date_pattern "Jan 2019 - Present" ∧
  Py.lower "2019" ≠ "present".
Proof.
  assert (Hascii : Py.isascii "Jan 2019 - Present" = true) by reflexivity.
  assert (H : "2019" ∈ Re.findall false CvVetter.date_pattern
                         "Jan 2019 - Present")
    by (vm_compute; apply list_elem_of_lookup; by exists 1%nat).
  split; [exact Hascii|]. split; [exact H|].
  exact (proj2 (proj2 (date_tokens_shape "Jan 2019 - Present" "2019"
                         Hascii H))).
Defined.

(** X2: every date token that test.py finds in an ASCII text is a piece
    of the text and is, in any mix of upper and lower case, a month
    abbreviation or the word [present], or is a run of four digits, or one
    or two digits, a slash and four digits. *)
Theorem date_ranges_shape (text t : string) :
  Py.isascii text = true →
  t ∈ Re.findall true TestPy.date_pattern text →
  piece_of (Py.chars t) (Py.chars text) ∧
  (Py.lower t ∈ (Py.lower <$> CvVetter.month_names) ∨
   Py.lower t = "present" ∨
   (length (Py.chars t) = 4%nat ∧
    Forall (λ c, Py.is_digit c = true) (Py.chars t)) ∨
   (∃ mm yyyy, Py.chars t = mm ++ "/"%char :: yyyy ∧
               (1 <= length mm <= 2)%nat ∧ length yyyy = 4%nat ∧
               Forall (λ c, Py.is_digit c = true) (mm ++ yyyy))).
Proof.
  intros _ [Hlang Hpiece]%findall_sound. split; [done|].
  assert (Hlower : ∀ lit, Lang true (Re.Lit lit) (Py.chars t) →
                          Py.lower t = Py.lower lit).
  { intros lit H%Lang_lit_lower. unfold Py.lower. by rewrite H. }
  assert (Hdigits : ∀ w, Forall (λ x, Re.cls_ok true Re.digit x = true) w →
                         Forall (λ c, Py.is_digit c = true) w).
  { intros w H. eapply Forall_impl; [exact H|]. apply cls_digit_any_case. }
  unfold TestPy.date_pattern in Hlang.
  apply Lang_alt_inv in Hlang as [Hlang | Hlang];
    [|right; left; by apply (Hlower "Present")].
  apply Lang_seqs_inv in Hlang as (ws & Hw & Hws).
  apply Forall2_cons_inv_l in Hws as (w1 & ws1 & H1 & Hws & ->).
  apply Forall2_cons_inv_l in Hws as (w2 & ws2 & H2 & Hws & ->).
  apply Forall2_cons_inv_l in Hws as (w3 & ws3 & H3 & Hws & ->).
  apply Forall2_nil_inv_l in Hws as ->.
  apply Lang_empty_inv in H1 as ->; [|auto].
  apply Lang_empty_inv in H3 as ->; [|auto].
  cbn [concat app] in Hw. rewrite app_nil_r in Hw. subst w2.
  apply Lang_alts_inv in H2 as (r & Hr & H2); [|done].
  apply elem_of_app in Hr as [Hr | Hr].
  - left. apply list_elem_of_fmap in Hr as (name & -> & Hname).
    apply list_elem_of_fmap. exists name. split; [by apply Hlower | done].
  - right; right. apply elem_of_cons in Hr as [-> | Hr].
    + right. apply Lang_seqs_inv in H2 as (ws & Hw & Hws).
      apply Forall2_cons_inv_l in Hws as (d1 & ws1 & Hd1 & Hws & ->).
      apply Forall2_cons_inv_l in Hws as (d2 & ws2 & Hd2 & Hws & ->).
      apply Forall2_cons_inv_l in Hws as (sl & ws3 & Hsl & Hws & ->).
      apply Forall2_cons_inv_l in Hws as (yyyy & ws4 & Hy & Hws & ->).
      apply Forall2_nil_inv_l in Hws as ->.
      apply Lang_cls_inv in Hd1 as (x1 & -> & Hx1%cls_digit_any_case).
      apply Lang_chr_inv in Hsl as (x & -> & Hx).
      assert (x = "/"%char) as ->
        by (by destruct x as [[] [] [] [] [] [] [] []]).
      apply Lang_rep_cls_inv in Hy as [Hlen Hy%Hdigits].
      cbn [concat] in Hw. rewrite app_nil_r in Hw.
      apply Lang_opt_inv in Hd2 as [-> | Hd2].
      * exists [x1], yyyy. rewrite Hw. split; [done|]. split; [simpl; lia|].
        split; [done|]. by constructor.
      * apply Lang_cls_inv in Hd2 as (x2 & -> & Hx2%cls_digit_any_case).
        exists [x1; x2], yyyy. rewrite Hw. split; [done|].
        split; [simpl; lia|]. split; [done|]. by repeat constructor.
    + left. apply list_elem_of_singleton in Hr as ->.
      apply Lang_rep_cls_inv in H2 as [Hlen H2%Hdigits]. done.
Qed.

Lemma date_ranges_shape_witness :
  Py.isascii "represented" = true ∧
  "present" ∈ Re.findall true TestPy.date_pattern "represented" ∧
  piece_of (Py.chars "present") (Py.chars "represented").
Proof.
  assert (Hascii : Py.isascii "represented" = true) by reflexivity.
  assert (H : "present" ∈ Re.findall true TestPy.date_pattern "represented")
    by (vm_compute; apply list_elem_of_lookup; by exists 0%nat).
  split; [exact Hascii|]. split; [exact H|].
  exact (proj1 (date_ranges_shape "represented" "present" Hascii H)).
Defined.

End DateTokens.

(** * Contact details *)

Section Contact.
Import Tables.

Lemma email_pattern_shape (e : string) :
  Lang false CvVetter2.email_pattern (Py.chars e) → email_shape e.
Proof.
  unfold CvVetter2.email_pattern.
  intros (ws & Hw & Hws)%Lang_seqs_inv.
  apply Forall2_cons_inv_l in Hws as (w1 & ws1 & H1 & Hws & ->).
  apply Forall2_cons_inv_l in Hws as (local & ws2 & H2 & Hws & ->).
  apply Forall2_cons_inv_l in Hws as (w3 & ws3 & H3 & Hws & ->).
  apply Forall2_cons_inv_l in Hws as (domain & ws4 & H4 & Hws & ->).
  apply Forall2_cons_inv_l in Hws as (w5 & ws5 & H5 & Hws & ->).
  apply Forall2_cons_inv_l in Hws as (tld & ws6 & H6 & Hws & ->).
  apply Forall2_cons_inv_l in Hws as (w7 & ws7 & H7 & Hws & ->).
  apply Forall2_nil_inv_l in Hws as ->.
  apply Lang_empty_inv in H1 as ->; [|auto].
  apply Lang_empty_inv in H7 as ->; [|auto].
  apply Lang_chr_inv in H3 as (x3 & -> & Hx3).
  apply Ascii.eqb_eq in Hx3 as <-.
  apply Lang_chr_inv in H5 as (x5 & -> & Hx5).
  apply Ascii.eqb_eq in Hx5 as <-.
  apply Lang_plus_cls_inv in H2 as [Hl1 Hl2].
  apply Lang_plus_cls_inv in H4 as [Hd1 Hd2].
  apply Lang_repmin_cls_inv in H6 as [Ht1 Ht2].
  exists local, domain, tld. cbn [concat app] in Hw.
  rewrite !app_nil_r in Hw. done.
Qed.

(** X3: the e-mail address of [extract_personal_details] and of
    [parse_email] is the same match, with the sentinel [Not Found] in
    cv_vetter2.py and [N/A] in test.py when there is none.  A match is a
    piece of the text of the form local@domain.tld, where the three parts
    are not empty, the last has at least two characters, and these are
    letters or vertical bars; a text without [@] has no match. *)
Theorem email_found (text : string) :
  (Re.search false CvVetter2.email_pattern text = None ∧
   CvVetter2.email (CvVetter2.extract_personal_details text) = "Not Found" ∧
   TestPy.parse_email text = "N/A")
  ∨
  (∃ e, Re.search false CvVetter2.email_pattern text = Some e ∧
        CvVetter2.email (CvVetter2.extract_personal_details text) = e ∧
        TestPy.parse_email text = e ∧
        piece_of (Py.chars e) (Py.chars text) ∧ email_shape e ∧
        "@"%char ∈ Py.chars text).
Proof.
  unfold CvVetter2.extract_personal_details, TestPy.parse_email.
  cbn [CvVetter2.email].
  destruct (Re.search false CvVetter2.email_pattern text) as [e|] eqn:E;
    [right | by left].
  exists e. apply search_sound in E as [Hlang Hpiece].
  pose proof (email_pattern_shape e Hlang) as Hshape.
  repeat split; try done.
  apply (piece_of_elem _ _ _ Hpiece).
  destruct Hshape as (local & domain & tld & -> & _).
  apply elem_of_app. right. left.
Qed.

Lemma chars_app (t1 t2 : string) :
  Py.chars (t1 +:+ t2) = Py.chars t1 ++ Py.chars t2.
Proof. induction t1 as [|c t1 IH]; [done|]. simpl. by rewrite IH. Qed.

(** Membership in a list that is written out. *)
Ltac in_list :=
  cbn [Py.of_chars String.string_of_list_ascii Py.chars
       String.list_ascii_of_string app];
  repeat first [apply list_elem_of_here | apply list_elem_of_further].

Lemma linkedin_pattern_shape (l : string) :
  Lang false CvVetter2.linkedin_pattern (Py.chars l) → linkedin_shape l.
Proof.
  unfold CvVetter2.linkedin_pattern.
  intros (ws & Hw & Hws)%Lang_seqs_inv.
  apply Forall2_cons_inv_l in Hws as (a & ws1 & Ha & Hws & ->).
  apply Forall2_cons_inv_l in Hws as (b & ws2 & Hb & Hws & ->).
  apply Forall2_cons_inv_l in Hws as (c & ws3 & Hc & Hws & ->).
  apply Forall2_cons_inv_l in Hws as (d & ws4 & Hd & Hws & ->).
  apply Forall2_cons_inv_l in Hws as (e & ws5 & He & Hws & ->).
  apply Forall2_cons_inv_l in Hws as (slug & ws6 & Hslug & Hws & ->).
  apply Forall2_cons_inv_l in Hws as (g & ws7 & Hg & Hws & ->).
  apply Forall2_nil_inv_l in Hws as ->.
  cbn [concat] in Hw. rewrite app_nil_r in Hw.
  assert (Hscheme : Py.of_chars a ∈ [""; "http://"; "https://"]).
  { apply Lang_opt_inv in Ha as [-> | Ha]; [in_list|].
    apply Lang_seqs_inv in Ha as (ws & -> & Hws).
    apply Forall2_cons_inv_l in Hws as (a1 & ws1 & Ha1 & Hws & ->).
    apply Forall2_cons_inv_l in Hws as (a2 & ws2 & Ha2 & Hws & ->).
    apply Forall2_cons_inv_l in Hws as (a3 & ws3 & Ha3 & Hws & ->).
    apply Forall2_nil_inv_l in Hws as ->.
    apply Lang_lit_exact in Ha1 as ->. apply Lang_lit_exact in Ha3 as ->.
    apply Lang_opt_inv in Ha2 as [-> | Ha2]; [in_list|].
    apply Lang_chr_inv in Ha2 as (x & -> & Hx).
    apply Ascii.eqb_eq in Hx as <-. in_list. }
  assert (Hwww : Py.of_chars b ∈ [""; "www."]).
  { apply Lang_opt_inv in Hb as [-> | Hb]; [in_list|].
    apply Lang_lit_exact in Hb as ->. in_list. }
  apply Lang_lit_exact in Hc as ->.
  assert (Hkind : Py.of_chars d ∈ ["in"; "company"]).
  { apply Lang_alt_inv in Hd as [Hd | Hd];
      apply Lang_lit_exact in Hd as ->; in_list. }
  apply Lang_chr_inv in He as (x & -> & Hx).
  apply Ascii.eqb_eq in Hx as <-.
  apply Lang_plus_cls_inv in Hslug as [Hslug1 Hslug2].
  assert (Hslash : Py.of_chars g ∈ [""; "/"]).
  { apply Lang_opt_inv in Hg as [-> | Hg]; [in_list|].
    apply Lang_chr_inv in Hg as (x & -> & Hx).
    apply Ascii.eqb_eq in Hx as <-. in_list. }
  exists (Py.of_chars a), (Py.of_chars b), (Py.of_chars d), slug,
         (Py.of_chars g).
  split; [|done]. apply chars_inj.
  rewrite !chars_app, !chars_of_chars, Hw. done.
Qed.

(** A text in which the LinkedIn pattern has a match contains the host. *)
Lemma linkedin_match_host (text l : string) :
  Re.search false CvVetter2.linkedin_pattern text = Some l →
  Py.contains "linkedin.com/" text = true.
Proof.
  intros [Hlang Hpiece]%search_sound.
  pose proof (linkedin_pattern_shape l Hlang) as Hshape.
  apply contains_spec. eapply piece_of_trans; [|exact Hpiece].
  destruct Hshape as (scheme & www & kind & slug & slash & -> & _).
  exists (Py.chars scheme ++ Py.chars www),
         (Py.chars (kind +:+ "/" +:+ Py.of_chars slug +:+ slash)).
  rewrite !chars_app, <- !app_assoc. done.
Qed.

(** X4: the profile address of [extract_personal_details] is the
    sentinel [Not Found] or a piece of the text made of an optional
    scheme [http://] or [https://], an optional [www.], the host
    [linkedin.com/], the kind [in] or [company], a slash, a slug of
    letters, digits and hyphens that is not empty, and an optional slash;
    so a text that does not contain [linkedin.com/] has no profile. *)
Theorem linkedin_found (text : string) :
  (Re.search false CvVetter2.linkedin_pattern text = None ∧
   CvVetter2.linkedin (CvVetter2.extract_personal_details text)
   = "Not Found")
  ∨
  (∃ l, Re.search false CvVetter2.linkedin_pattern text = Some l ∧
        CvVetter2.linkedin (CvVetter2.extract_personal_details text) = l ∧
        piece_of (Py.chars l) (Py.chars text) ∧ linkedin_shape l ∧
        Py.contains "linkedin.com/" text = true).
Proof.
  unfold CvVetter2.extract_personal_details. cbn [CvVetter2.linkedin].
  destruct (Re.search false CvVetter2.linkedin_pattern text) as [l|] eqn:E;
    [right | by left].
  exists l. pose proof (linkedin_match_host text l E) as Hhost.
  apply search_sound in E as [Hlang Hpiece].
  pose proof (linkedin_pattern_shape l Hlang) as Hshape.
  repeat split; done.
Qed.

(** X5: [analyze_linkedin_profile] declares a profile valid exactly when
    an address was found and [requests.head] answers it with status 200;
    a valid profile has no issue and three recommendations, an invalid
    one has exactly one issue and no recommendation, and for the sentinel
    [Not Found] no request is made. *)
Theorem analyze_linkedin_profile_valid (requests_head : http_client)
    (profile_url : string) :
  let r := CvVetter2.analyze_linkedin_profile requests_head profile_url in
  (CvVetter2.valid r = true ↔
   profile_url ≠ "Not Found" ∧ requests_head profile_url = inl 200) ∧
  (CvVetter2.valid r = true →
   CvVetter2.issues r = [] ∧ length (CvVetter2.recommendations r) = 3%nat) ∧
  (CvVetter2.valid r = false →
   length (CvVetter2.issues r) = 1%nat ∧ CvVetter2.recommendations r = []) ∧
  (profile_url = "Not Found" →
   ∀ other, CvVetter2.analyze_linkedin_profile other profile_url = r).
Proof.
  cbv zeta. unfold CvVetter2.analyze_linkedin_profile.
  destruct (String.eqb_spec profile_url "Not Found") as [-> | Hne].
  - cbn. repeat split; try done. by intros [? _].
  - destruct (requests_head profile_url) as [status | e] eqn:E.
    + destruct (Z.eqb_spec status 200) as [-> | Hstatus]; cbn.
      * repeat split; done.
      * repeat split; try done. intros [_ [= ?]]. done.
    + cbn. repeat split; try done. by intros [_ ?].
Qed.

Lemma analyze_linkedin_profile_valid_witness :
  CvVetter2.valid
    (CvVetter2.analyze_linkedin_profile Sample.online
       "https://www.linkedin.com/in/john-doe") = true ∧
  length (CvVetter2.recommendations
            (CvVetter2.analyze_linkedin_profile Sample.online
               "https://www.linkedin.com/in/john-doe")) = 3%nat.
Proof.
  assert (H : CvVetter2.valid
                (CvVetter2.analyze_linkedin_profile Sample.online
                   "https://www.linkedin.com/in/john-doe") = true)
    by reflexivity.
  split; [exact H|].
  exact (proj2 (proj1 (proj2 (analyze_linkedin_profile_valid Sample.online
                                "https://www.linkedin.com/in/john-doe")) H)).
Defined.

(** X6: for a resume that does not contain [linkedin.com/] the pipeline
    reports the profile as invalid with the one issue [No LinkedIn found]
    and no recommendation, the third readiness factor says so, and the
    network is not asked: the report is the same for every behaviour of
    [requests.head]. *)
Theorem pipeline_without_profile (parse : date_resolver)
    (current_date : Py.datetime) (nlp : tokenizer)
    (requests_head : http_client) (resume_text : string) :
  Py.contains "linkedin.com/" resume_text = false →
  let r := CvVetter2.full_analysis_pipeline parse current_date nlp
             requests_head resume_text in
  CvVetter2.res_linkedin r
  = CvVetter2.mk_linkedin_report false ["No LinkedIn found"] [] ∧
  CvVetter2.factors (CvVetter2.res_readiness r) !! 2%nat
  = Some "LinkedIn Valid: False" ∧
  ∀ other,
    CvVetter2.full_analysis_pipeline parse current_date nlp other resume_text
    = r.
Proof.
  intros Hno. cbv zeta.
  assert (Hl : CvVetter2.linkedin
                 (CvVetter2.extract_personal_details resume_text)
               = "Not Found").
  { unfold CvVetter2.extract_personal_details. cbn [CvVetter2.linkedin].
    destruct (Re.search false CvVetter2.linkedin_pattern resume_text)
      as [l|] eqn:E; [|done].
    apply linkedin_match_host in E. congruence. }
  unfold CvVetter2.full_analysis_pipeline.
  cbn [CvVetter2.res_linkedin CvVetter2.res_readiness]. rewrite Hl.
  split; [reflexivity|]. split; [reflexivity|]. reflexivity.
Qed.

Lemma pipeline_without_profile_witness :
  Py.contains "linkedin.com/" Sample.senior_resume = false ∧
  CvVetter2.res_linkedin
    (CvVetter2.full_analysis_pipeline (Sample.resolver Sample.now)
       Sample.now Sample.words Sample.online Sample.senior_resume)
  = CvVetter2.mk_linkedin_report false ["No LinkedIn found"] [].
Proof.
  assert (H : Py.contains "linkedin.com/" Sample.senior_resume = false)
    by reflexivity.
  split; [exact H|].
  exact (proj1 (pipeline_without_profile (Sample.resolver Sample.now)
                  Sample.now Sample.words Sample.online
                  Sample.senior_resume H)).
Defined.

End Contact.

(** * More on the experience *)

Section Rounding.

Lemma round_half_even_mono (x y : Q) :
  (x <= y)%Q → Py.round_half_even x <= Py.round_half_even y.
Proof.
  intros Hxy. unfold Py.round_half_even. cbv zeta.
  pose proof (Qfloor_resp_le x y Hxy) as Hfloor.
  pose proof (Qfloor_le x) as Hx1. pose proof (Qlt_floor x) as Hx2.
  pose proof (Qfloor_le y) as Hy1. pose proof (Qlt_floor y) as Hy2.
  rewrite inject_Z_plus in Hx2, Hy2.
  destruct (Z.eq_dec (Qfloor x) (Qfloor y)) as [Heq | Hne].
  - rewrite <- Heq in *. clear Hfloor Heq.
    set (n := Qfloor x) in *.
    q_compare; try lia; try (destruct (Z.even n); lia); exfalso; lra.
  - assert (Hlt : Qfloor x + 1 <= Qfloor y) by lia.
    set (n := Qfloor x) in *. set (m := Qfloor y) in *.
    q_compare; try lia; try (destruct (Z.even n); destruct (Z.even m); lia);
      try (destruct (Z.even n); lia); try (destruct (Z.even m); lia).
Qed.

Lemma round1_mono (x y : Q) :
  (x <= y)%Q → (Py.round1 x <= Py.round1 y)%Q.
Proof.
  intros Hxy. unfold Py.round1.
  assert (H : Py.round_half_even (x * 10) <= Py.round_half_even (y * 10))
    by (apply round_half_even_mono; lra).
  rewrite Zle_Qle in H.
  set (a := inject_Z (Py.round_half_even (x * 10))) in *.
  set (b := inject_Z (Py.round_half_even (y * 10))) in *.
  assert (Ha : (a / 10 == a * (1 # 10))%Q) by (by field).
  assert (Hb : (b / 10 == b * (1 # 10))%Q) by (by field).
  rewrite Ha, Hb. lra.
Qed.

Lemma round1_nonneg (x : Q) : (0 <= x)%Q → (0 <= Py.round1 x)%Q.
Proof.
  intros Hx. assert (H0 : (Py.round1 0 == 0)%Q) by reflexivity.
  rewrite <- H0. by apply round1_mono.
Qed.

Lemma max0_nonneg (x : Q) : (0 <= Py.max0 x)%Q.
Proof.
  unfold Py.max0. destruct (Py.Qltb x 0) eqn:E; [lra|].
  by apply Qltb_ge in E.
Qed.

End Rounding.

Section ExperienceBounds.
Import Tables.
Context (parse : date_resolver) (now : Py.datetime).

Lemma cv_add_pair_grows (total : Q) (sd ed : option Py.datetime) :
  (total <= CvVetter.add_pair total sd ed)%Q.
Proof.
  unfold CvVetter.add_pair. destruct sd as [s|], ed as [e|]; try lra.
  cbv zeta. pose proof (max0_nonneg
    (inject_Z (Py.sub_days e s) / (36525 # 100))). lra.
Qed.

Lemma cv2_add_pair_below (total total' : Q) (sd ed : option Py.datetime) :
  (total <= total')%Q →
  (total <= CvVetter2.add_pair now total sd ed)%Q ∧
  (CvVetter2.add_pair now total sd ed <= CvVetter.add_pair total' sd ed)%Q.
Proof.
  intros Hle. unfold CvVetter2.add_pair, CvVetter.add_pair.
  destruct sd as [s|], ed as [e|]; try lra.
  cbv zeta. pose proof (max0_nonneg
    (inject_Z (Py.sub_days e s) / (36525 # 100))).
  destruct (Py.dt_gt s now); lra.
Qed.

Lemma cv_add_pairs_grow (pairs : list (string * string)) (total : Q) :
  (total <= add_pairs (cv_add parse now) total pairs)%Q.
Proof.
  revert total. induction pairs as [|[s e] pairs IH]; intros total;
    cbn [add_pairs foldl]; [lra|].
  fold (add_pairs (cv_add parse now) (cv_add parse now total s e) pairs).
  eapply Qle_trans; [|apply IH]. apply cv_add_pair_grows.
Qed.

Lemma cv2_add_pairs_below (pairs : list (string * string))
    (total total' : Q) :
  (total <= total')%Q →
  (total <= add_pairs (cv2_add parse now) total pairs)%Q ∧
  (add_pairs (cv2_add parse now) total pairs
   <= add_pairs (cv_add parse now) total' pairs)%Q.
Proof.
  revert total total'. induction pairs as [|[s e] pairs IH];
    intros total total' Hle; cbn [add_pairs foldl]; [lra|].
  fold (add_pairs (cv2_add parse now) (cv2_add parse now total s e) pairs).
  fold (add_pairs (cv_add parse now) (cv_add parse now total' s e) pairs).
  unfold cv2_add at 2 4, cv_add at 2. unfold CvVetter.resolve_pair.
  match goal with
  | |- context [CvVetter2.add_pair now total ?sd ?ed] =>
      destruct (cv2_add_pair_below total total' sd ed Hle) as [H1 H2];
      destruct (IH _ _ H2) as [H3 H4]
  end.
  split; [|exact H4]. eapply Qle_trans; [exact H1 | exact H3].
Qed.

(** The pairs of a full loop are those of the loop that stops early and
    at most one more. *)
Lemma paired_split (dates : list string) :
  ∃ extra, paired dates = paired_complete dates ++ extra.
Proof.
  induction dates as [|a|a b dates [extra IH]] using list_pair_ind.
  - by exists [].
  - by exists [(a, "Present")].
  - exists extra. cbn [paired paired_complete]. by rewrite IH.
Qed.

(** X7: whatever the date resolver answers, the experience of
    cv_vetter.py and of cv_vetter2.py is never negative, and on the same
    tokens cv_vetter2.py, which skips the pairs that start in the future
    and a last single token, never reports more than cv_vetter.py; so it
    is for the whole pipeline on a text. *)
Theorem experience_never_negative (dates : list string) (text : string)
    (nlp : tokenizer) (requests_head : http_client) :
  (0 <= CvVetter2.calculate_experience parse now dates)%Q ∧
  (0 <= CvVetter.parse_experience parse now text)%Q ∧
  (CvVetter2.calculate_experience parse now dates
   <= Py.round1 (CvVetter.experience_loop parse now dates))%Q ∧
  (CvVetter2.res_experience
     (CvVetter2.full_analysis_pipeline parse now nlp requests_head text)
   <= CvVetter.parse_experience parse now text)%Q.
Proof.
  assert (Hcv2 : ∀ ds,
             (0 <= CvVetter2.experience_loop parse now ds)%Q ∧
             (CvVetter2.experience_loop parse now ds
              <= CvVetter.experience_loop parse now ds)%Q).
  { intros ds. rewrite cv2_loop_paired, cv_loop_paired.
    destruct (paired_split ds) as [extra ->].
    rewrite add_pairs_app.
    destruct (cv2_add_pairs_below (paired_complete ds) 0 0) as [H1 H2];
      [lra|].
    split; [exact H1|]. eapply Qle_trans; [exact H2|]. apply cv_add_pairs_grow. }
  assert (Hcv : ∀ ds, (0 <= CvVetter.experience_loop parse now ds)%Q).
  { intros ds. rewrite cv_loop_paired. apply cv_add_pairs_grow. }
  unfold CvVetter2.calculate_experience, CvVetter.parse_experience.
  split; [apply round1_nonneg, Hcv2|].
  split; [apply round1_nonneg, Hcv|].
  split; [apply round1_mono, Hcv2|].
  unfold CvVetter2.full_analysis_pipeline. cbn [CvVetter2.res_experience].
  apply round1_mono, Hcv2.
Qed.

End ExperienceBounds.

Section ExperienceGrowth.
Import Tables.
Context (parse : date_resolver) (now : Py.datetime).

(** X8: tokens that follow never lower the experience: for a list of
    tokens of even length, cv_vetter.py and cv_vetter2.py report at least
    as much for the list followed by more tokens as for the list alone,
    before and after the rounding, whatever the date resolver answers. *)
Theorem experience_grows_with_tokens (ds1 ds2 : list string) :
  Nat.Even (length ds1) →
  (CvVetter.experience_loop parse now ds1
   <= CvVetter.experience_loop parse now (ds1 ++ ds2))%Q ∧
  (Py.round1 (CvVetter.experience_loop parse now ds1)
   <= Py.round1 (CvVetter.experience_loop parse now (ds1 ++ ds2)))%Q ∧
  (CvVetter2.experience_loop parse now ds1
   <= CvVetter2.experience_loop parse now (ds1 ++ ds2))%Q ∧
  (CvVetter2.calculate_experience parse now ds1
   <= CvVetter2.calculate_experience parse now (ds1 ++ ds2))%Q.
Proof.
  intros Heven.
  assert (Hcv : (CvVetter.experience_loop parse now ds1
                 <= CvVetter.experience_loop parse now (ds1 ++ ds2))%Q).
  { rewrite !cv_loop_paired, paired_app, add_pairs_app by done.
    apply cv_add_pairs_grow. }
  assert (Hcv2 : (CvVetter2.experience_loop parse now ds1
                  <= CvVetter2.experience_loop parse now (ds1 ++ ds2))%Q).
  { rewrite !cv2_loop_paired, paired_complete_app, add_pairs_app by done.
    apply (cv2_add_pairs_below parse now (paired_complete ds2)
             _ _ (Qle_refl _)). }
  unfold CvVetter2.calculate_experience.
  split; [exact Hcv|]. split; [by apply round1_mono|].
  split; [exact Hcv2 | by apply round1_mono].
Qed.

End ExperienceGrowth.

Lemma experience_grows_with_tokens_witness :
  Nat.Even (length ["2015"; "2018"]) ∧
  (CvVetter2.calculate_experience (Sample.resolver Sample.now) Sample.now
     ["2015"; "2018"]
   <= CvVetter2.calculate_experience (Sample.resolver Sample.now) Sample.now
        (["2015"; "2018"] ++ ["2019"; "2021"]))%Q.
Proof.
  assert (H : Nat.Even (length ["2015"; "2018"]))
    by (exists 1%nat; reflexivity).
  split; [exact H|].
  exact (proj2 (proj2 (proj2
           (experience_grows_with_tokens (Sample.resolver Sample.now)
              Sample.now ["2015"; "2018"] ["2019"; "2021"] H)))).
Defined.

Section TestExperienceBounds.
Import Tables.
Context (parse : date_resolver) (relativedelta : month_counter)
        (now : Py.datetime).

Lemma test_add_pairs_grow (pairs : list (string * string)) (total : Q) :
  (∀ s e, Py.dt_le s e = true →
          0 <= (relativedelta e s).1 ∧ 0 <= (relativedelta e s).2) →
  (total <= add_pairs (test_add parse relativedelta now) total pairs)%Q.
Proof.
  intros Hdelta. revert total.
  induction pairs as [|[s e] pairs IH]; intros total;
    cbn [add_pairs foldl]; [lra|].
  fold (add_pairs (test_add parse relativedelta now)
          (test_add parse relativedelta now total s e) pairs).
  eapply Qle_trans; [|apply IH].
  unfold test_add, CvVetter.resolve_pair, TestPy.add_pair.
  destruct (parse s) as [sd|]; [|lra].
  destruct (if negb _ then _ else _) as [ed|]; [|lra].
  destruct (Py.dt_le sd ed) eqn:Hle; [|lra]. cbv zeta.
  destruct (Hdelta sd ed Hle) as [Hy Hm].
  rewrite Zle_Qle in Hy, Hm.
  set (y := inject_Z (relativedelta ed sd).1) in *.
  set (m := inject_Z (relativedelta ed sd).2) in *.
  assert (Hdiv : (m / 12 == m * (1 # 12))%Q) by (by field).
  rewrite Hdiv. change (inject_Z 0) with 0%Q in *. lra.
Qed.

(** X9: test.py adds to the experience the years and months that
    [relativedelta] reports for a pair, and asks for them only when the
    start is not after the end; if [relativedelta] reports no negative
    field for such a pair, as dateutil does, the experience of
    [parse_experience] is never negative, for every text and every date
    resolver. *)
Theorem test_experience_never_negative (text : string) :
  (∀ s e, Py.dt_le s e = true →
          0 <= (relativedelta e s).1 ∧ 0 <= (relativedelta e s).2) →
  (0 <= TestPy.parse_experience parse relativedelta now text)%Q.
Proof.
  intros Hdelta. unfold TestPy.parse_experience. cbv zeta.
  apply round1_nonneg. rewrite test_loop_paired.
  by apply test_add_pairs_grow.
Qed.

End TestExperienceBounds.

Lemma test_experience_never_negative_witness :
  (0 <= TestPy.parse_experience (Sample.resolver Sample.now) Sample.one_year
          Sample.now "2015 - 2018")%Q.
Proof.
  apply (test_experience_never_negative (Sample.resolver Sample.now)
           Sample.one_year Sample.now "2015 - 2018").
  intros s e _. simpl. lia.
Defined.

(** * More on the project scores *)

Section ProjectScores.
Import Tables.

Lemma lower_idemp (text : string) : Py.lower (Py.lower text) = Py.lower text.
Proof.
  unfold Py.lower. rewrite chars_of_chars, <- list_fmap_compose.
  f_equal. apply list_fmap_ext. intros _ c _. apply to_lower_idemp.
Qed.

Lemma lower_piece (t t' : string) :
  piece_of (Py.chars t) (Py.chars t') →
  piece_of (Py.chars (Py.lower t)) (Py.chars (Py.lower t')).
Proof.
  intros (before & after & H). unfold Py.lower.
  rewrite !chars_of_chars, H, !fmap_app. by eexists _, _.
Qed.

Lemma contains_lower_piece (word t t' : string) :
  piece_of (Py.chars t) (Py.chars t') →
  Py.contains word (Py.lower t) = true →
  Py.contains word (Py.lower t') = true.
Proof.
  intros Hpiece. rewrite !contains_spec. intros Hword.
  eapply piece_of_trans; [exact Hword | by apply lower_piece].
Qed.

Lemma weights_bounds (table : list (string * Z)) (text : string) :
  Forall (λ kw, 0 <= kw.2) table →
  0 <= Zsum (snd <$> filter (λ '(word, _),
                               Py.contains word (Py.lower text) = true) table)
    <= Zsum (snd <$> table).
Proof.
  induction 1 as [|[k w] table Hw _ IH]; [done|].
  rewrite filter_cons. simpl in Hw.
  case_decide; rewrite ?fmap_cons; cbn [Zsum foldr snd];
    fold (Zsum table.*2) in *;
    fold (Zsum (snd <$> filter (λ '(word, _),
            Py.contains word (Py.lower text) = true) table)) in *; lia.
Qed.

Lemma weights_mono (table : list (string * Z)) (t t' : string) :
  Forall (λ kw, 0 <= kw.2) table →
  piece_of (Py.chars t) (Py.chars t') →
  Zsum (snd <$> filter (λ '(word, _),
                          Py.contains word (Py.lower t) = true) table)
  <= Zsum (snd <$> filter (λ '(word, _),
                             Py.contains word (Py.lower t') = true) table).
Proof.
  intros Hall Hpiece.
  induction Hall as [|[k w] table Hw Hall IH]; [done|].
  rewrite !filter_cons. simpl in Hw.
  pose proof (weights_bounds table t' Hall) as [Hpos _].
  pose proof (contains_lower_piece k t t' Hpiece) as Hk.
  repeat case_decide; rewrite ?fmap_cons; cbn [Zsum foldr snd];
    fold (Zsum (snd <$> filter (λ '(word, _),
            Py.contains word (Py.lower t) = true) table)) in *;
    fold (Zsum (snd <$> filter (λ '(word, _),
            Py.contains word (Py.lower t') = true) table)) in *;
    try lia.
  exfalso. auto.
Qed.

Lemma keyword_weights_nonneg : Forall (λ kw, 0 <= kw.2) CvVetter2.keywords.
Proof. repeat constructor; simpl; lia. Qed.

Lemma score_projects_weights (text : string) :
  CvVetter2.score_projects text
  = Zsum (snd <$> filter (λ '(word, _),
                            Py.contains word (Py.lower text) = true)
                         CvVetter2.keywords).
Proof.
  unfold CvVetter2.score_projects, CvVetter2.sum. by rewrite foldl_add_Zsum.
Qed.

(** X10: the project score of cv_vetter2.py is between 0 and 19, the sum
    of the eight weights, for every text, although the interface shows it
    as a mark out of 10; it does not depend on the case of the letters; and
    it never goes down when text is added before or after: a text scores at
    least what any piece of it scores. *)
Theorem score_projects_range (text text' : string) :
  0 <= CvVetter2.score_projects text <= 19 ∧
  CvVetter2.score_projects (Py.lower text) = CvVetter2.score_projects text ∧
  (piece_of (Py.chars text) (Py.chars text') →
   CvVetter2.score_projects text <= CvVetter2.score_projects text').
Proof.
  rewrite !score_projects_weights. split; [|split].
  - apply (weights_bounds _ text keyword_weights_nonneg).
  - by rewrite lower_idemp.
  - apply weights_mono, keyword_weights_nonneg.
Qed.

Lemma score_projects_range_witness :
  piece_of (Py.chars "CI/CD") (Py.chars "Advanced CI/CD pipeline") ∧
  CvVetter2.score_projects "CI/CD"
  <= CvVetter2.score_projects "Advanced CI/CD pipeline".
Proof.
  assert (H : piece_of (Py.chars "CI/CD")
                       (Py.chars "Advanced CI/CD pipeline")).
  { exists (Py.chars "Advanced "), (Py.chars " pipeline"). reflexivity. }
  split; [exact H|].
  exact (proj2 (proj2 (score_projects_range "CI/CD"
                         "Advanced CI/CD pipeline")) H).
Defined.

Lemma hits_mono (table : list string) (p p' : string) :
  piece_of (Py.chars p) (Py.chars p') →
  (length (filter (λ keyword, Py.contains keyword (Py.lower p) = true) table)
   <= length (filter (λ keyword, Py.contains keyword (Py.lower p') = true)
                     table))%nat.
Proof.
  intros Hpiece. induction table as [|k table IH]; [done|].
  rewrite !filter_cons.
  pose proof (contains_lower_piece k p p' Hpiece) as Hk.
  repeat case_decide; simpl; try lia. exfalso. auto.
Qed.

Lemma Zsum_app (l1 l2 : list Z) : Zsum (l1 ++ l2) = Zsum l1 + Zsum l2.
Proof.
  induction l1 as [|x l1 IH]; [done|].
  cbn [app Zsum foldr]. fold (Zsum (l1 ++ l2)). fold (Zsum l1). lia.
Qed.

Lemma Zsum_perm (l1 l2 : list Z) : l1 ≡ₚ l2 → Zsum l1 = Zsum l2.
Proof.
  induction 1 as [|x l1 l2 _ IH|x y l|l1 l2 l3 _ IH1 _ IH2].
  - done.
  - cbn [Zsum foldr]. fold (Zsum l1). fold (Zsum l2). lia.
  - cbn [Zsum foldr]. lia.
  - lia.
Qed.

(** X11: the project score of test.py is the sum of the scores of the
    segments taken one by one: the score of two lists of segments put
    together is the sum of their scores, the order of the segments does not
    matter, and a segment to which text is added never scores less. *)
Theorem score_projects_by_segment (ps1 ps2 : list string) (p p' : string) :
  TestPy.score_projects (ps1 ++ ps2)
  = TestPy.score_projects ps1 + TestPy.score_projects ps2 ∧
  (ps1 ≡ₚ ps2 → TestPy.score_projects ps1 = TestPy.score_projects ps2) ∧
  (piece_of (Py.chars p) (Py.chars p') →
   TestPy.score_projects (ps1 ++ p :: ps2)
   <= TestPy.score_projects (ps1 ++ p' :: ps2)).
Proof.
  rewrite !score_projects_hits. split; [|split].
  - by rewrite fmap_app, Zsum_app.
  - intros Hperm. apply Zsum_perm. by apply fmap_Permutation.
  - intros Hpiece. rewrite !fmap_app, !Zsum_app, !fmap_cons.
    cbn [Zsum foldr].
    pose proof (hits_mono TestPy.complexity_keywords p p' Hpiece) as H.
    unfold keyword_hits. lia.
Qed.

Lemma score_projects_by_segment_witness :
  ["Scalable API"; "Cloud database"] ≡ₚ ["Cloud database"; "Scalable API"] ∧
  TestPy.score_projects ["Scalable API"; "Cloud database"]
  = TestPy.score_projects ["Cloud database"; "Scalable API"].
Proof.
  assert (H : ["Scalable API"; "Cloud database"]
              ≡ₚ ["Cloud database"; "Scalable API"]) by apply perm_swap.
  split; [exact H|].
  exact (proj1 (proj2 (score_projects_by_segment
                         ["Scalable API"; "Cloud database"]
                         ["Cloud database"; "Scalable API"] "" "")) H).
Defined.

End ProjectScores.

(** * More on the levels and the readiness *)

Section Verdicts.
Import Tables.

(** X12: in every run of the pipeline of cv_vetter2.py the verdict depends
    on the experience and the project score only: the candidate is ready
    exactly when the experience is over one year and the project score at
    least 4.  The readiness score runs from 1 to 9 and is never 4, although
    the interface shows it as a mark out of 4; it is at least 5 for a ready
    candidate and at most 7 for one who is not, so that it does not tell
    the two apart. *)
Theorem readiness_by_inputs (parse : date_resolver)
    (current_date : Py.datetime) (nlp : tokenizer)
    (requests_head : http_client) (resume_text : string) :
  let r := CvVetter2.full_analysis_pipeline parse current_date nlp
             requests_head resume_text in
  let verdict := CvVetter2.res_readiness r in
  (CvVetter2.ready verdict = true ↔
   (1 < CvVetter2.res_experience r)%Q ∧ 4 <= CvVetter2.res_project_score r) ∧
  1 <= CvVetter2.score verdict <= 9 ∧
  CvVetter2.score verdict ≠ 4 ∧
  (CvVetter2.ready verdict = true → 5 <= CvVetter2.score verdict) ∧
  (CvVetter2.ready verdict = false → CvVetter2.score verdict <= 7).
Proof.
  cbv zeta. unfold CvVetter2.full_analysis_pipeline.
  cbn [CvVetter2.res_readiness CvVetter2.res_experience
       CvVetter2.res_project_score].
  generalize (CvVetter2.calculate_experience parse current_date
                (Re.findall false CvVetter.date_pattern resume_text)).
  generalize (CvVetter2.score_projects resume_text).
  intros project_score experience.
  unfold CvVetter2.readiness_of. cbn [CvVetter2.ready CvVetter2.score].
  unfold CvVetter2.determine_proficiency.
  q_compare; z_compare; cbn [snd];
    repeat split; intros; destruct_and?; by_order.
Qed.

Lemma readiness_by_inputs_witness :
  let r := CvVetter2.full_analysis_pipeline (Sample.resolver Sample.now)
             Sample.now Sample.words Sample.online Sample.senior_resume in
  CvVetter2.ready (CvVetter2.res_readiness r) = true ∧
  5 <= CvVetter2.score (CvVetter2.res_readiness r).
Proof.
  cbv zeta.
  assert (H : CvVetter2.ready
                (CvVetter2.res_readiness
                   (CvVetter2.full_analysis_pipeline
                      (Sample.resolver Sample.now) Sample.now Sample.words
                      Sample.online Sample.senior_resume)) = true)
    by (vm_compute; reflexivity).
  split; [exact H|].
  exact (proj1 (proj2 (proj2 (proj2
           (readiness_by_inputs (Sample.resolver Sample.now) Sample.now
              Sample.words Sample.online Sample.senior_resume)))) H).
Defined.

(** X13: in cv_vetter2.py the tier label and the level number determine
    each other: two results of [determine_proficiency] have the same label
    exactly when they have the same level.  In test.py they do not: the
    label [Intermediate] comes with level 2 and with level 3. *)
Theorem tier_names_level (e1 e2 : Q) (p1 p2 : Z) :
  ((CvVetter2.determine_proficiency e1 p1).1
   = (CvVetter2.determine_proficiency e2 p2).1 ↔
   (CvVetter2.determine_proficiency e1 p1).2
   = (CvVetter2.determine_proficiency e2 p2).2) ∧
  TestPy.categorize_candidate (1 # 2) 3 = (2, "Intermediate") ∧
  TestPy.categorize_candidate 2 3 = (3, "Intermediate").
Proof.
  split; [|split; reflexivity].
  unfold CvVetter2.determine_proficiency.
  repeat match goal with
    | |- context [if ?c then _ else _] => destruct c
    end; cbn [fst snd]; split; intros H; try reflexivity; discriminate H.
Qed.

(** X14: in test.py the test of the project score in the readiness line
    never decides: a level of 3 or more is given only with a project score
    over 2, so the candidate is interview ready exactly when the level of
    [categorize_candidate] is at least 3, that is, when the experience is
    over one year and the project score is in the range of the rule of its
    band.  The levels are 1, 2, 3, 4 and 6 only. *)
Theorem interview_ready_by_level (experience : Q) (project_score : Z) :
  let level := (TestPy.categorize_candidate experience project_score).1 in
  (TestPy.interview_ready level project_score = "Yes" ↔ 3 <= level) ∧
  (3 <= level ↔
   ((1 < experience)%Q ∧ (experience <= 3)%Q ∧ 3 <= project_score <= 4) ∨
   ((3 < experience)%Q ∧ (experience <= 5)%Q ∧ 5 <= project_score) ∨
   ((5 < experience)%Q ∧ 6 <= project_score)) ∧
  level ∈ [1; 2; 3; 4; 6].
Proof.
  cbv zeta. unfold TestPy.categorize_candidate, TestPy.interview_ready.
  q_compare; z_compare; cbn [fst]; z_compare;
    (split; [split; intros; by_order|]);
    (split;
     [|repeat first [apply list_elem_of_here | apply list_elem_of_further]]);
    (split; [intros; try by_order;
             first [left; repeat split; by_order
                   | right; left; repeat split; by_order
                   | right; right; repeat split; by_order]
            | intros [(? & ? & ?) | [(? & ? & ?) | (? & ?)]]; by_order]).
Qed.

End Verdicts.

(** * The similarity score *)

Section PlagiarismBounds.
Import Tables.
Context (ratio : similarity).

Lemma py_max_range (l : list Q) :
  l ≠ [] → Forall (λ x, (0 <= x)%Q ∧ (x <= 1)%Q) l →
  ∃ m, TestPy.py_max l = TestPy.Ok m ∧ (0 <= m)%Q ∧ (m <= 1)%Q.
Proof.
  destruct l as [|x l]; [done|]. intros _ Hall.
  apply Forall_cons in Hall as [Hx Hl].
  eexists. split; [reflexivity|].
  revert x Hx. induction Hl as [|y l Hy _ IH]; intros x Hx; [exact Hx|].
  cbn [foldl]. apply IH. by destruct (Py.Qltb x y).
Qed.

Lemma plagiarism_loop_range (projects : list string) (acc : Q) :
  (∀ a b, (0 <= ratio a b)%Q ∧ (ratio a b <= 1)%Q) →
  ∃ q, TestPy.plagiarism_loop ratio acc projects = TestPy.Ok q ∧
       (acc <= q)%Q ∧ (q <= acc + inject_Z (Py.len projects))%Q.
Proof.
  intros ratio_range.
  revert acc. induction projects as [|p projects IH]; intros acc.
  - exists acc. split; [reflexivity|]. unfold Py.len.
    change (inject_Z (Z.of_nat (length (@nil string)))) with 0%Q. lra.
  - cbn [TestPy.plagiarism_loop].
    destruct (py_max_range (ratio p <$> TestPy.known_projects))
      as (m & -> & Hm0 & Hm1).
    { discriminate. }
    { apply Forall_fmap, Forall_forall. intros kp _. apply ratio_range. }
    cbn [mbind TestPy.result_bind].
    destruct (IH (acc + m)%Q) as (q & -> & Hq0 & Hq1).
    exists q. split; [reflexivity|].
    rewrite len_cons, inject_Z_plus. change (inject_Z 1) with 1%Q. lra.
Qed.

(** X15: if the similarity ratio is between 0 and 1, as that of difflib
    is, [check_plagiarism] returns, for every list of segments, a
    percentage between 0 and 100, and raises no exception. *)
Theorem check_plagiarism_range (projects : list string) :
  (∀ a b, (0 <= ratio a b)%Q ∧ (ratio a b <= 1)%Q) →
  ∃ q, TestPy.check_plagiarism ratio projects = TestPy.Ok q ∧
       (0 <= q)%Q ∧ (q <= 100)%Q.
Proof.
  intros ratio_range. unfold TestPy.check_plagiarism.
  destruct (plagiarism_loop_range projects 0 ratio_range)
    as (total & -> & H0 & H1).
  cbn [mbind TestPy.result_bind].
  destruct projects as [|p projects]; [exists 0%Q; split; [reflexivity|lra]|].
  unfold TestPy.py_div.
  set (n := Py.len (p :: projects)) in *.
  assert (Hn : 0 < n) by (unfold n; rewrite len_cons;
                          pose proof (len_nonneg projects); lia).
  replace (n =? 0) with false by (symmetry; apply Z.eqb_neq; lia).
  cbn [mbind TestPy.result_bind].
  eexists. split; [reflexivity|].
  assert (Hq : (0 < inject_Z n)%Q) by (rewrite <- (Zlt_Qlt 0); exact Hn).
  assert (Hlow : (0 <= total / inject_Z n)%Q).
  { apply Qle_shift_div_l; [exact Hq | lra]. }
  assert (Hhigh : (total / inject_Z n <= 1)%Q).
  { apply Qle_shift_div_r; [exact Hq | lra]. }
  lra.
Qed.
End PlagiarismBounds.

Lemma check_plagiarism_range_witness :
  ∃ q, TestPy.check_plagiarism Sample.same_text
         ["Built a REST API with Django"; "Wrote a compiler"]
       = TestPy.Ok q ∧ (0 <= q)%Q ∧ (q <= 100)%Q.
Proof.
  apply (check_plagiarism_range Sample.same_text
           ["Built a REST API with Django"; "Wrote a compiler"]).
  intros a b. unfold Sample.same_text.
  destruct (String.eqb a b); split; lra.
Defined.

(** * The project segments and the summary of test.py *)

Section Segments.
Import Tables.

Lemma segment_goes_on (c : ascii) (item rest : list ascii) :
  Py.contains_chars (Py.chars bullet_break) (c :: item) = false →
  TestPy.segment_ends (c :: item ++ Py.chars bullet_break ++ rest) = false.
Proof.
  cbn [Py.contains_chars]. intros [Hhere _]%orb_false_elim.
  unfold TestPy.segment_ends. apply orb_false_intro.
  - revert Hhere. unfold bullet_break. cbn [Py.chars String.list_ascii_of_string].
    cbn [Py.prefix_chars].
    destruct (Ascii.eqb Py.newline c); [|done]. cbn [andb].
    destruct item as [|x [|y item]]; cbn [app]; done.
  - unfold bullet_break. by destruct item as [|x [|y item]].
Qed.

Lemma lazy_segment_item (item rest : list ascii) :
  Py.contains_chars (Py.chars bullet_break) item = false →
  TestPy.lazy_segment (item ++ Py.chars bullet_break ++ rest) = item.
Proof.
  induction item as [|c item IH]; intros Hno.
  - reflexivity.
  - cbn [app TestPy.lazy_segment]. rewrite (segment_goes_on c item rest Hno).
    f_equal. apply IH. cbn [Py.contains_chars] in Hno.
    by apply orb_false_elim in Hno as [_ ?].
Qed.

Lemma lazy_segment_last (item : list ascii) :
  Py.contains_chars (Py.chars bullet_break) item = false →
  last item ≠ Some Py.newline →
  TestPy.lazy_segment item = item.
Proof.
  induction item as [|c item IH]; intros Hno Hlast; [reflexivity|].
  cbn [Py.contains_chars] in Hno. apply orb_false_elim in Hno as [Hhere Hno].
  cbn [TestPy.lazy_segment]. unfold TestPy.segment_ends.
  change [Py.newline; "-"%char; " "%char] with (Py.chars bullet_break).
  rewrite Hhere. cbn [orb].
  destruct item as [|x item].
  - destruct (Ascii.eqb c Py.newline) eqn:E; [|reflexivity].
    apply Ascii.eqb_eq in E as ->. done.
  - f_equal. apply IH; [exact Hno|]. by rewrite last_cons_cons in Hlast.
Qed.

Lemma segments_go_skip (pre s : list ascii) :
  TestPy.segments_go (length pre) (pre ++ s) = TestPy.segments_go 0 s.
Proof. induction pre as [|c pre IH]; [reflexivity | exact IH]. Qed.

Lemma endswith_last (s : string) :
  Py.endswith s (String Py.newline "") = false →
  last (Py.chars s) ≠ Some Py.newline.
Proof.
  unfold Py.endswith. rewrite <- head_reverse.
  cbn [Py.chars String.list_ascii_of_string reverse rev_append].
  destruct (reverse (Py.chars s)) as [|c l]; [done|].
  cbn [Py.prefix_chars head]. rewrite andb_true_r.
  intros E [= ->]. by rewrite Ascii.eqb_refl in E.
Qed.


Lemma chars_bullet_cons (x y : string) (items : list string) :
  Py.chars (bullet_list (x :: y :: items))
  = "-"%char :: " "%char :: Py.chars x ++ Py.newline
      :: Py.chars (bullet_list (y :: items)).
Proof.
  unfold bullet_list. rewrite !fmap_cons. cbn [Py.join].
  by rewrite !chars_app.
Qed.

Lemma chars_bullet_head (y : string) (items : list string) :
  ∃ rest, Py.chars (bullet_list (y :: items))
          = "-"%char :: " "%char :: rest.
Proof.
  destruct items as [|z items].
  - by eexists.
  - rewrite chars_bullet_cons. by eexists.
Qed.

Lemma segments_go_bullet (s : list ascii) :
  TestPy.segments_go 0 ("-"%char :: " "%char :: s)
  = TestPy.lazy_segment s
      :: TestPy.segments_go (length (TestPy.lazy_segment s)) s.
Proof. reflexivity. Qed.

Lemma segments_of_bullets (items : list string) :
  Forall (λ item, Py.contains bullet_break item = false) items →
  (∀ item, last items = Some item →
           Py.endswith item (String Py.newline "") = false) →
  TestPy.segments_go 0 (Py.chars (bullet_list items)) = Py.chars <$> items.
Proof.
  intros Hall. induction Hall as [|x items Hx Hall IH]; intros Hlast.
  - reflexivity.
  - destruct items as [|y items].
    + unfold bullet_list. cbn [fmap list_fmap Py.join].
      rewrite chars_app.
      change (Py.chars "- " ++ Py.chars x)
        with ("-"%char :: " "%char :: Py.chars x).
      rewrite segments_go_bullet.
      rewrite lazy_segment_last;
        [|exact Hx | by apply endswith_last, Hlast].
      f_equal. rewrite <- (app_nil_r (Py.chars x)) at 2.
      by rewrite segments_go_skip.
    + rewrite chars_bullet_cons.
      destruct (chars_bullet_head y items) as [rest Hrest].
      rewrite Hrest in *.
      rewrite segments_go_bullet.
      change (Py.chars x ++ Py.newline :: "-"%char :: " "%char :: rest)
        with (Py.chars x ++ Py.chars bullet_break ++ rest).
      rewrite (lazy_segment_item _ rest Hx). rewrite fmap_cons. f_equal.
      rewrite segments_go_skip.
      change (TestPy.segments_go 0 (Py.chars bullet_break ++ rest))
        with (TestPy.segments_go 0 ("-"%char :: " "%char :: rest)).
      apply IH. intros item Hitem. apply Hlast.
      by rewrite last_cons_cons.
Qed.

(** X16: the project segments of test.py are the items of a bullet list:
    for items none of which contains a newline followed by a hyphen and a
    blank, and the last of which does not end with a newline, the segments
    found in the list written with one item a line, each after a hyphen and
    a blank, are the items, in their order. *)
Theorem project_segments_of_bullets (items : list string) :
  Forall (λ item, Py.contains bullet_break item = false) items →
  (∀ item, last items = Some item →
           Py.endswith item (String Py.newline "") = false) →
  TestPy.project_segments (bullet_list items) = items.
Proof.
  intros Hall Hlast. unfold TestPy.project_segments.
  rewrite segments_of_bullets by done.
  rewrite <- list_fmap_compose. rewrite <- (list_fmap_id items) at 2.
  apply list_fmap_ext. intros _ item _. apply of_chars_chars.
Qed.

End Segments.

Lemma project_segments_of_bullets_witness :
  TestPy.project_segments
    (Tables.bullet_list ["Built a REST API"; "Scalable cloud - AWS"])
  = ["Built a REST API"; "Scalable cloud - AWS"].
Proof.
  apply (project_segments_of_bullets
           ["Built a REST API"; "Scalable cloud - AWS"]).
  - repeat constructor.
  - intros item [= <-]. reflexivity.
Defined.

Section Summary.
Import Tables.
Context (parse : date_resolver) (relativedelta : month_counter)
        (now : Py.datetime) (nlp : tokenizer) (ratio : similarity)
        (scrape_linkedin : string → TestPy.result (list string)).

Lemma segments_go_none (s : list ascii) :
  Py.contains_chars (Py.chars "- ") s = false →
  TestPy.segments_go 0 s = [].
Proof.
  induction s as [|c s IH]; [reflexivity|].
  cbn [Py.contains_chars]. intros [Hhere Hno]%orb_false_elim.
  cbn [TestPy.segments_go].
  change ["-"%char; " "%char] with (Py.chars "- "). rewrite Hhere.
  by apply IH.
Qed.

(** The level without project score. *)
Lemma categorize_without_projects (experience : Q) :
  1 <= (TestPy.categorize_candidate experience 0).1 <= 2 ∧
  TestPy.interview_ready (TestPy.categorize_candidate experience 0).1 0
  = "No".
Proof.
  unfold TestPy.categorize_candidate.
  change (0 <=? 2) with true. change (2 <? 0) with false.
  change (4 <? 0) with false. change (5 <? 0) with false.
  rewrite !andb_false_r, andb_true_r. cbn [andb].
  destruct (Qle_bool experience 1); cbn [fst]; split;
    (lia || reflexivity).
Qed.

(** X17: a resume in which no hyphen is followed by a blank has no
    project segment.  If it holds no profile address, or if the browser
    returns for the address found, [main] of test.py shows the project
    score 0 and the plagiarism risk 0 for it, a level of 1 or 2 and [No]
    for the interview readiness, whatever the experience; if the browser
    raises, so does [main]. *)
Theorem summary_without_bullets (text : string) :
  Py.contains "- " text = false →
  ((Re.search false TestPy.linkedin_url_pattern text = None ∨
    ∃ m l, Re.search false TestPy.linkedin_url_pattern text = Some m ∧
           scrape_linkedin ("https://www." +:+ m) = TestPy.Ok l) →
   ∃ s, TestPy.candidate_summary parse relativedelta now nlp ratio
          scrape_linkedin text = TestPy.Ok s ∧
        no_projects s) ∧
  (∀ m e, Re.search false TestPy.linkedin_url_pattern text = Some m →
          scrape_linkedin ("https://www." +:+ m) = TestPy.Raise e →
          TestPy.candidate_summary parse relativedelta now nlp ratio
            scrape_linkedin text = TestPy.Raise e).
Proof.
  intros Hno. unfold TestPy.candidate_summary. cbv zeta.
  unfold TestPy.project_segments. rewrite (segments_go_none _ Hno).
  change (TestPy.score_projects (Py.of_chars <$> [])) with 0.
  change (TestPy.check_plagiarism ratio (Py.of_chars <$> []))
    with (TestPy.Ok (A := Q) 0%Q).
  cbn [mbind TestPy.result_bind].
  generalize (TestPy.parse_experience parse relativedelta now text).
  intros experience.
  pose proof (categorize_without_projects experience) as [Hlevel Hready].
  destruct (TestPy.categorize_candidate experience 0) as [level tier].
  cbn [fst] in Hlevel, Hready.
  split.
  - intros [-> | (m & l & -> & ->)]; cbn [mbind TestPy.result_bind];
      (eexists; split; [reflexivity|]);
      unfold no_projects;
      cbn [TestPy.sum_project_score TestPy.sum_plagiarism_score
           TestPy.sum_level TestPy.sum_interview_ready];
      (split; [reflexivity|]); (split; [reflexivity|]);
      (split; [exact Hlevel | exact Hready]).
  - by intros m e -> ->.
Qed.

Lemma plagiarism_loop_ok (projects : list string) (acc : Q) :
  ∃ q, TestPy.plagiarism_loop ratio acc projects = TestPy.Ok q.
Proof.
  revert acc. induction projects as [|p projects IH]; intros acc; simpl;
    [eauto | apply IH].
Qed.

Lemma check_plagiarism_ok (projects : list string) :
  ∃ q, TestPy.check_plagiarism ratio projects = TestPy.Ok q.
Proof.
  unfold TestPy.check_plagiarism.
  destruct (plagiarism_loop_ok projects 0%Q) as [q ->].
  cbn [mbind TestPy.result_bind].
  destruct projects as [|p projects]; [eauto|].
  unfold TestPy.py_div.
  replace (Py.len (p :: projects) =? 0) with false; [cbn; eauto|].
  symmetry. apply Z.eqb_neq. rewrite len_cons.
  pose proof (len_nonneg projects). lia.
Qed.

Lemma linkedin_url_shape (text m : string) :
  Re.search false TestPy.linkedin_url_pattern text = Some m →
  ∃ handle, m = "linkedin.com/in/" +:+ Py.of_chars handle ∧
            handle ≠ [] ∧ Forall (λ c, handle_char c = true) handle ∧
            piece_of (Py.chars "linkedin.com/in/" ++ handle) (Py.chars text).
Proof.
  intros [Hlang Hpiece]%search_sound.
  unfold TestPy.linkedin_url_pattern in Hlang.
  apply Lang_seqs_inv in Hlang as (ws & Hm & Hws).
  apply Forall2_cons_inv_l in Hws as (w1 & ws1 & H1 & Hws & ->).
  apply Forall2_cons_inv_l in Hws as (w2 & ws2 & H2 & Hws & ->).
  apply Forall2_nil_inv_l in Hws as ->.
  apply Lang_lit_exact in H1 as ->.
  apply Lang_plus_cls_inv in H2 as [Hne Hall].
  cbn [concat] in Hm. rewrite app_nil_r in Hm.
  exists w2. split; [|split; [exact Hne|split; [exact Hall|]]].
  - apply chars_inj. by rewrite chars_app, chars_of_chars.
  - by rewrite <- Hm.
Qed.

(** X18: for an ASCII text, the skills that [main] of test.py shows are
    those of [parse_skills], which has no entry [LinkedIn Skills], when the
    text has no match of the profile pattern.  When it has one, the match
    is [linkedin.com/in/] and a handle, where the handle is not empty, is
    made of letters, digits, underscores and hyphens, and follows
    [linkedin.com/in/] in the text; the browser is asked for
    [https://www.] and the match; what it returns is added as the entry
    [LinkedIn Skills], and [main] stops on what it raises; the two
    scores raise nothing. *)
Theorem summary_linkedin_skills (text : string) :
  Py.isascii text = true →
  TestPy.parse_skills nlp text !! "LinkedIn Skills" = None ∧
  (Re.search false TestPy.linkedin_url_pattern text = None →
   ∃ s, TestPy.candidate_summary parse relativedelta now nlp ratio
          scrape_linkedin text = TestPy.Ok s ∧
        TestPy.sum_skills s = TestPy.parse_skills nlp text) ∧
  (∀ m, Re.search false TestPy.linkedin_url_pattern text = Some m →
        (∃ handle,
            m = "linkedin.com/in/" +:+ Py.of_chars handle ∧
            handle ≠ [] ∧ Forall (λ c, handle_char c = true) handle ∧
            piece_of (Py.chars "linkedin.com/in/" ++ handle)
                     (Py.chars text)) ∧
        (∀ l, scrape_linkedin ("https://www." +:+ m) = TestPy.Ok l →
              ∃ s, TestPy.candidate_summary parse relativedelta now nlp
                     ratio scrape_linkedin text = TestPy.Ok s ∧
                   TestPy.sum_skills s
                   = <["LinkedIn Skills" := l]>
                       (TestPy.parse_skills nlp text)) ∧
        (∀ e, scrape_linkedin ("https://www." +:+ m) = TestPy.Raise e →
              TestPy.candidate_summary parse relativedelta now nlp ratio
                scrape_linkedin text = TestPy.Raise e)).
Proof.
  intros _. split.
  { destruct (TestPy.parse_skills nlp text !! "LinkedIn Skills")
      as [l|] eqn:Hl; [|done].
    apply parse_skills_lookup in Hl as (kws & Hin & _).
    exfalso. revert Hin. unfold TestPy.skills_db.
    rewrite !elem_of_cons, elem_of_nil. intros [|[|[|]]]; congruence. }
  unfold TestPy.candidate_summary. cbv zeta.
  destruct (check_plagiarism_ok (TestPy.project_segments text)) as [q ->].
  cbn [mbind TestPy.result_bind].
  destruct (TestPy.categorize_candidate _ _) as [level tier].
  split.
  - intros ->. cbn [mbind TestPy.result_bind]. eexists.
    split; reflexivity.
  - intros m Hm. split; [by apply linkedin_url_shape|]. rewrite Hm. split.
    + intros l ->. cbn [mbind TestPy.result_bind]. eexists.
      split; reflexivity.
    + by intros e ->.
Qed.

End Summary.

Lemma summary_without_bullets_witness :
  ∃ s, TestPy.candidate_summary (Sample.resolver Sample.now) Sample.one_year
         Sample.now Sample.words Sample.same_text Sample.browser
         "JOHN DOE linkedin.com/in/john-doe" = TestPy.Ok s ∧
       Tables.no_projects s.
Proof.
  apply (summary_without_bullets (Sample.resolver Sample.now)
           Sample.one_year Sample.now Sample.words Sample.same_text
           Sample.browser "JOHN DOE linkedin.com/in/john-doe").
  - reflexivity.
  - right. exists "linkedin.com/in/john-doe",
                  ["https://www.linkedin.com/in/john-doe"].
    split; reflexivity.
Defined.

Lemma summary_linkedin_skills_witness :
  TestPy.candidate_summary (Sample.resolver Sample.now) Sample.one_year
    Sample.now Sample.words Sample.same_text Sample.no_browser
    "JOHN DOE linkedin.com/in/john-doe"
  = TestPy.Raise TestPy.WebDriverException.
Proof.
  assert (Hascii : Py.isascii "JOHN DOE linkedin.com/in/john-doe" = true)
    by reflexivity.
  assert (Hm : Re.search false TestPy.linkedin_url_pattern
                 "JOHN DOE linkedin.com/in/john-doe"
               = Some "linkedin.com/in/john-doe") by reflexivity.
  apply (proj2 (proj2 (proj2 (proj2
           (summary_linkedin_skills (Sample.resolver Sample.now)
              Sample.one_year Sample.now Sample.words Sample.same_text
              Sample.no_browser "JOHN DOE linkedin.com/in/john-doe"
              Hascii)) _ Hm))).
  reflexivity.
Defined.

(** * The text of an upload *)

Section Uploads.
Import Tables.

Lemma lstrip_no_leading_space (l : list ascii) :
  no_leading_space (Py.lstrip_chars l).
Proof.
  induction l as [|c l IH]; [done|]. cbn [Py.lstrip_chars].
  by destruct (Py.is_space c) eqn:E.
Qed.

Lemma lstrip_fixed (l : list ascii) :
  no_leading_space l → Py.lstrip_chars l = l.
Proof. destruct l as [|c l]; [done|]. simpl. by intros ->. Qed.

Lemma lstrip_split (l : list ascii) :
  ∃ blanks, l = blanks ++ Py.lstrip_chars l.
Proof.
  induction l as [|c l [blanks IH]]; [by exists []|].
  cbn [Py.lstrip_chars]. destruct (Py.is_space c).
  - exists (c :: blanks). by rewrite IH at 1.
  - by exists [].
Qed.

Lemma no_leading_space_app (l1 l2 : list ascii) :
  no_leading_space (l1 ++ l2) → no_leading_space l1.
Proof. by destruct l1. Qed.

Lemma strip_chars_idemp (l : list ascii) :
  Py.strip_chars (Py.strip_chars l) = Py.strip_chars l.
Proof.
  unfold Py.strip_chars.
  set (a := Py.lstrip_chars l).
  set (b := Py.lstrip_chars (reverse a)).
  assert (Ha : no_leading_space a) by apply lstrip_no_leading_space.
  assert (Hb : no_leading_space b) by apply lstrip_no_leading_space.
  destruct (lstrip_split (reverse a)) as [blanks Hsplit]. fold b in Hsplit.
  assert (Hrb : no_leading_space (reverse b)).
  { apply (no_leading_space_app _ (reverse blanks)).
    rewrite <- reverse_app, <- Hsplit. by rewrite reverse_involutive. }
  rewrite (lstrip_fixed _ Hrb), reverse_involutive.
  by rewrite (lstrip_fixed _ Hb).
Qed.

Lemma strip_idemp (s : string) : Py.strip (Py.strip s) = Py.strip s.
Proof. unfold Py.strip. by rewrite chars_of_chars, strip_chars_idemp. Qed.

Lemma pages_text_error (pages : list CvVetter2.page) (text : string) :
  CvVetter2.PageError ∈ pages → CvVetter2.pages_text text pages = None.
Proof.
  revert text. induction pages as [|p pages IH]; intros text Hin.
  - by apply elem_of_nil in Hin.
  - destruct p; cbn [CvVetter2.pages_text]; [| |done].
    + apply IH. by apply elem_of_cons in Hin as [|].
    + apply IH. by apply elem_of_cons in Hin as [|].
Qed.

(** X19: the text that [extract_text] of cv_vetter2.py returns has no
    white space at its ends; it is empty for a file whose name ends neither
    with [.pdf] nor with [.docx], and for a PDF that the library cannot
    open or one of whose pages raises.  [main] runs the pipeline exactly
    when the text is not empty, and on that text: it stops without result
    when the text is empty, and gives the result of the pipeline on the
    text when it is not. *)
Theorem extract_text_stripped (parse : date_resolver) (now : Py.datetime)
    (nlp : tokenizer) (requests_head : http_client)
    (file_path : CvVetter2.upload) :
  Py.strip (CvVetter2.extract_text file_path)
  = CvVetter2.extract_text file_path ∧
  (Py.endswith (CvVetter2.upload_name file_path) ".pdf" = false →
   Py.endswith (CvVetter2.upload_name file_path) ".docx" = false →
   CvVetter2.extract_text file_path = "") ∧
  (Py.endswith (CvVetter2.upload_name file_path) ".pdf" = true →
   (∀ pages, CvVetter2.pdf_pages file_path = Some pages →
             CvVetter2.PageError ∈ pages) →
   CvVetter2.extract_text file_path = "") ∧
  (CvVetter2.extract_text file_path = "" ↔
   CvVetter2.main_analysis parse now nlp requests_head file_path = None) ∧
  (CvVetter2.extract_text file_path ≠ "" →
   CvVetter2.main_analysis parse now nlp requests_head file_path
   = Some (CvVetter2.full_analysis_pipeline parse now nlp requests_head
             (CvVetter2.extract_text file_path))).
Proof.
  split; [|split; [|split; [|split]]].
  - unfold CvVetter2.extract_text. cbv zeta.
    destruct (if Py.endswith _ _ then _ else _); [apply strip_idemp | done].
  - unfold CvVetter2.extract_text. by intros -> ->.
  - unfold CvVetter2.extract_text. intros -> Hpages.
    destruct (CvVetter2.pdf_pages file_path) as [pages|]; [|done].
    cbn [mbind option_bind]. by rewrite pages_text_error by auto.
  - unfold CvVetter2.main_analysis. cbv zeta.
    destruct (String.eqb_spec (CvVetter2.extract_text file_path) "")
      as [-> | Hne]; [done|]. split; [done | discriminate].
  - unfold CvVetter2.main_analysis. cbv zeta. intros Hne.
    by destruct (String.eqb_spec (CvVetter2.extract_text file_path) "").
Qed.

End Uploads.

Lemma extract_text_stripped_witness :
  let notes := CvVetter2.mk_upload "notes.txt" None None in
  let resume := CvVetter2.mk_upload "resume.docx" None
                  (Some ["JOHN DOE"; "Software Engineer"]) in
  (Py.endswith (CvVetter2.upload_name notes) ".pdf" = false ∧
   Py.endswith (CvVetter2.upload_name notes) ".docx" = false ∧
   CvVetter2.extract_text notes = "" ∧
   CvVetter2.main_analysis (Sample.resolver Sample.now) Sample.now
     Sample.words Sample.online notes = None) ∧
  (CvVetter2.extract_text resume ≠ "" ∧
   CvVetter2.main_analysis (Sample.resolver Sample.now) Sample.now
     Sample.words Sample.online resume
   = Some (CvVetter2.full_analysis_pipeline (Sample.resolver Sample.now)
             Sample.now Sample.words Sample.online
             (CvVetter2.extract_text resume))).
Proof.
  cbv zeta. split.
  - pose proof (extract_text_stripped (Sample.resolver Sample.now)
                  Sample.now Sample.words Sample.online
                  (CvVetter2.mk_upload "notes.txt" None None))
      as (_ & Hname & _ & Hnone & _).
    assert (H1 : Py.endswith "notes.txt" ".pdf" = false) by reflexivity.
    assert (H2 : Py.endswith "notes.txt" ".docx" = false) by reflexivity.
    split; [exact H1|]. split; [exact H2|].
    split; [exact (Hname H1 H2) | exact (proj1 Hnone (Hname H1 H2))].
  - pose proof (extract_text_stripped (Sample.resolver Sample.now)
                  Sample.now Sample.words Sample.online
                  (CvVetter2.mk_upload "resume.docx" None
                     (Some ["JOHN DOE"; "Software Engineer"])))
      as (_ & _ & _ & _ & Hsome).
    assert (H : CvVetter2.extract_text
                  (CvVetter2.mk_upload "resume.docx" None
                     (Some ["JOHN DOE"; "Software Engineer"])) ≠ "")
      by (vm_compute; discriminate).
    split; [exact H | exact (Hsome H)].
Defined.

Section OlderUploads.
Import Tables.

Lemma lstrip_blank_end (l : list ascii) (c : ascii) :
  Py.is_space c = true →
  Py.lstrip_chars (l ++ [c]) = [] ∧ Py.lstrip_chars l = [] ∨
  Py.lstrip_chars (l ++ [c]) = Py.lstrip_chars l ++ [c].
Proof.
  intros Hc. induction l as [|x l IH]; cbn [app Py.lstrip_chars].
  - rewrite Hc. by left.
  - destruct (Py.is_space x); [exact IH | by right].
Qed.

Lemma strip_chars_blank_end (l : list ascii) (c : ascii) :
  Py.is_space c = true →
  Py.strip_chars (l ++ [c]) = Py.strip_chars l.
Proof.
  intros Hc. unfold Py.strip_chars.
  destruct (lstrip_blank_end l c Hc) as [[-> ->] | ->]; [done|].
  rewrite reverse_app. cbn [reverse rev_append app Py.lstrip_chars].
  change (reverse [c]) with [c]. cbn [app Py.lstrip_chars]. by rewrite Hc.
Qed.

Lemma older_pages_text (pages : list CvVetter2.page) (text t : string) :
  TestPy.pages_text text pages = Some t →
  CvVetter2.pages_text text pages = Some t.
Proof.
  revert text. induction pages as [|[p| |] pages IH]; intros text;
    cbn [TestPy.pages_text CvVetter2.pages_text]; try done. apply IH.
Qed.

Lemma older_pages_none (pages : list CvVetter2.page) (text : string) :
  CvVetter2.PageNone ∈ pages → TestPy.pages_text text pages = None.
Proof.
  revert text. induction pages as [|[p| |] pages IH]; intros text Hin;
    cbn [TestPy.pages_text]; try done.
  - by apply elem_of_nil in Hin.
  - apply IH. by apply elem_of_cons in Hin as [|].
Qed.

Lemma chars_paragraphs (paragraphs : list string) (text : string) :
  Py.chars (foldl (λ text para, text +:+ (para +:+ String Py.newline ""))
                  text paragraphs)
  = Py.chars text
    ++ concat ((λ para, Py.chars para ++ [Py.newline]) <$> paragraphs).
Proof.
  revert text. induction paragraphs as [|p ps IH]; intros text;
    cbn [foldl fmap list_fmap concat].
  - by rewrite app_nil_r.
  - rewrite IH, !chars_app. by rewrite <- app_assoc.
Qed.

Lemma chars_join_lines (p : string) (ps : list string) :
  Py.chars (Py.join (String Py.newline "") (p :: ps)) ++ [Py.newline]
  = concat ((λ para, Py.chars para ++ [Py.newline]) <$> (p :: ps)).
Proof.
  revert p. induction ps as [|q ps IH]; intros p.
  - cbn. by rewrite app_nil_r.
  - change (Py.join (String Py.newline "") (p :: q :: ps))
      with (p +:+ String Py.newline "" +:+ Py.join (String Py.newline "") (q :: ps)).
    rewrite !chars_app, <- !app_assoc, IH.
    rewrite (fmap_cons _ p), concat_cons, <- app_assoc. reflexivity.
Qed.

Lemma chars_join_empty (l : list string) :
  Py.chars (Py.join "" l) = concat (Py.chars <$> l).
Proof.
  induction l as [|x [|y l] IH]; [done|by cbn; rewrite app_nil_r|].
  change (Py.join "" (x :: y :: l)) with (x +:+ "" +:+ Py.join "" (y :: l)).
  by rewrite !chars_app, IH.
Qed.

Lemma newer_pages_text (pages : list CvVetter2.page) (text : string) :
  CvVetter2.PageError ∉ pages →
  ∃ t, CvVetter2.pages_text text pages = Some t ∧
       Py.chars t
       = Py.chars text ++ concat (Py.chars <$> (page_text <$> pages)).
Proof.
  revert text. induction pages as [|p pages IH]; intros text Hno.
  - exists text. split; [done|]. by rewrite app_nil_r.
  - assert (Hpages : CvVetter2.PageError ∉ pages).
    { intros H. apply Hno. by right. }
    destruct p as [t| |]; cbn [CvVetter2.pages_text].
    + destruct (IH (text +:+ t) Hpages) as (r & -> & Hr).
      exists r. split; [done|].
      by rewrite Hr, chars_app, <- app_assoc.
    + destruct (IH (text +:+ "") Hpages) as (r & -> & Hr).
      exists r. split; [done|].
      by rewrite Hr, chars_app, <- app_assoc.
    + exfalso. apply Hno. left.
Qed.

(** X20: [extract_text] of cv_vetter.py and test.py, which are the same
    function, and that of cv_vetter2.py agree up to the white space at the
    ends: whenever the older function returns a text, cv_vetter2.py returns
    that text stripped.  The older function raises on a PDF one of whose
    pages gives no text; cv_vetter2.py goes on: if no page raises, it
    returns the texts of the pages put together, nothing for a page
    without text, and stripped. *)
Theorem older_extract_text (file_path : CvVetter2.upload) :
  (∀ t, TestPy.extract_text file_path = Some t →
        CvVetter2.extract_text file_path = Py.strip t) ∧
  (Py.endswith (CvVetter2.upload_name file_path) ".pdf" = true →
   ∀ pages, CvVetter2.pdf_pages file_path = Some pages →
            (CvVetter2.PageNone ∈ pages →
             TestPy.extract_text file_path = None) ∧
            (CvVetter2.PageError ∉ pages →
             CvVetter2.extract_text file_path
             = Py.strip (Py.join "" (page_text <$> pages)))).
Proof.
  unfold TestPy.extract_text, CvVetter2.extract_text. cbv zeta. split.
  - intros t. destruct (Py.endswith _ ".pdf").
    + destruct (CvVetter2.pdf_pages file_path) as [pages|]; [|done].
      cbn [mbind option_bind]. intros H.
      by rewrite (older_pages_text _ _ _ H).
    + destruct (Py.endswith _ ".docx"); [|by intros [= <-]].
      destruct (CvVetter2.docx_paragraphs file_path) as [ps|]; [|done].
      cbn [mbind option_bind]. intros [= <-].
      unfold Py.strip. f_equal. rewrite chars_paragraphs.
      destruct ps as [|p ps]; [done|].
      rewrite <- chars_join_lines. cbn [Py.chars String.list_ascii_of_string app].
      symmetry. by apply strip_chars_blank_end.
  - intros -> pages ->. cbn [mbind option_bind]. split.
    + by apply older_pages_none.
    + intros Hno. destruct (newer_pages_text pages "" Hno) as (t & -> & Ht).
      unfold Py.strip. by rewrite Ht, chars_join_empty.
Qed.

End OlderUploads.

Lemma older_extract_text_witness :
  let resume := CvVetter2.mk_upload "resume.docx" None
                  (Some ["JOHN DOE"; "Software Engineer"]) in
  let scan := CvVetter2.mk_upload "scan.pdf"
                (Some [CvVetter2.PageText "JOHN DOE "; CvVetter2.PageNone])
                None in
  (∃ t, TestPy.extract_text resume = Some t ∧
        CvVetter2.extract_text resume = Py.strip t) ∧
  (TestPy.extract_text scan = None ∧
   CvVetter2.extract_text scan = "JOHN DOE").
Proof.
  cbv zeta. split.
  - eexists. split; [reflexivity|].
    apply (proj1 (older_extract_text
                    (CvVetter2.mk_upload "resume.docx" None
                       (Some ["JOHN DOE"; "Software Engineer"])))).
    reflexivity.
  - pose proof (proj2 (older_extract_text
                   (CvVetter2.mk_upload "scan.pdf"
                      (Some [CvVetter2.PageText "JOHN DOE ";
                             CvVetter2.PageNone]) None))
                  eq_refl _ eq_refl) as [Hold Hnew].
    split.
    + apply Hold. right. left.
    + rewrite Hnew; [reflexivity|].
      intros H. repeat (apply elem_of_cons in H as [H | H]; [done|]).
      by apply elem_of_nil in H.
Defined.
